(** * The fleet engine reconciler

    A shallow embedding of [engine/reconciler.go]: the task producer
    [calculateClusterTasks], the task executor [doTask] and the pass
    [Reconcile], together with the parts of the cluster snapshot they use.

    The producer goroutine and the consuming [range] loop of [Reconcile]
    meet on an unbuffered channel.  The embedding runs them as coroutines on
    one logical clock: every observable action (a poll of the stop channel,
    a hand-off, a metric report, a log line, a call of the Engine facade) is
    one event, the clock is the number of events so far, and the receiver's
    body runs at the hand-off.  The stop channel is a function of that
    clock.

    The file also embeds the [stop] and [start] commands of fleetctl and
    the etcd double of the registry tests, each with the calls and the
    output it makes as a trace. *)

From Stdlib Require Import String List Bool Arith ZArith Lia.
Import ListNotations.
Open Scope string_scope.
Open Scope list_scope.

(** ** Data model *)

(** [job.JobState] is a string type ([job.JobState(u.CurrentState)] converts
    a string to it, and the reconciler prints it with [%s]). *)
Definition JobState := string.

(** Modelled from the spec: the constant [job.JobStateInactive] (package
    [job] is not among the sources); the spec gives the target states as
    inactive, loaded and launched. *)
Definition JobStateInactive : JobState := "inactive".
Definition JobStateLoaded : JobState := "loaded".
Definition JobStateLaunched : JobState := "launched".

(** Modelled from the spec: [job.Job] (package [job] is not among the
    sources).  The reconciler reads [Name], [TargetState], [TargetMachineID]
    and [Scheduled()]; the requirement fields are read by the agent's
    eligibility predicate only. *)
Record Job := mkJob {
  Name : string;
  UnitHash : string;
  TargetState : JobState;
  TargetMachineID : string;
  RequiredMetadata : list (string * string);
  Conflicts : list string;
  Peers : list string
}.

(** [Scheduled()]: the target machine id is not empty. *)
Definition Scheduled (j : Job) : bool := negb (TargetMachineID j =? "").

Record Resources := mkResources { Cores : nat; Memory : nat; Disk : nat }.

(** Modelled from the spec: [machine.MachineState]. *)
Record MachineState := mkMachine {
  ID : string;
  Metadata : list (string * string);
  Version : string;
  TotalResources : Resources;
  FreeResources : Resources
}.

(** Modelled from the spec: the cluster snapshot type [clusterState] of
    package [engine] (its declaration is not among the sources).  [jobs] is
    kept in the order in which [range clust.jobs] yields the job objects,
    the same in both loops of a pass; a job object is identified by its
    position, and the jobs of a snapshot have different names. *)
Record clusterState := mkCluster {
  jobs : list Job;
  machines : list MachineState
}.

Definition setTargetMachineID (machID : string) (j : Job) : Job :=
  mkJob (Name j) (UnitHash j) (TargetState j) machID
        (RequiredMetadata j) (Conflicts j) (Peers j).

Definition retarget (jName machID : string) (j : Job) : Job :=
  if Name j =? jName then setTargetMachineID machID j else j.

(** Modelled from the spec: [clusterState.unschedule(name)] clears the
    in-memory scheduling of the job called [name]. *)
Definition unschedule (jName : string) (cs : clusterState) : clusterState :=
  mkCluster (map (retarget jName "") (jobs cs)) (machines cs).

(** Modelled from the spec: [clusterState.schedule(name, machID)] sets the
    in-memory scheduling of the job called [name]; the agents' bookkeeping
    is derived from the jobs by [agents], so it follows. *)
Definition schedule (jName machID : string) (cs : clusterState) : clusterState :=
  mkCluster (map (retarget jName machID) (jobs cs)) (machines cs).

(** Modelled from the spec: [agent.AgentState], a machine with the
    scheduled jobs assigned to it. *)
Record AgentState := mkAgent {
  MState : MachineState;
  Units : list Job
}.

(** Modelled from the spec: [clusterState.agents()], the mapping from
    machine id to agent, the scheduled jobs folded in. *)
Definition agents (cs : clusterState) : list (string * AgentState) :=
  map (fun ms =>
         (ID ms,
          mkAgent ms (filter (fun j => Scheduled j && (TargetMachineID j =? ID ms))
                             (jobs cs))))
      (machines cs).

(** [as, ok := agents[id]]. *)
Fixpoint lookupAgent (id : string) (ags : list (string * AgentState)) : option AgentState :=
  match ags with
  | [] => None
  | (k, a) :: rest => if k =? id then Some a else lookupAgent id rest
  end.

Definition taskTypeUnscheduleUnit : string := "UnscheduleUnit".
Definition taskTypeAttemptScheduleUnit : string := "AttemptScheduleUnit".

(** [type task struct]; the field [Type] is called [Typ] here. *)
Record task := mkTask {
  Typ : string;
  Reason : string;
  JobName : string;
  MachineID : string
}.

(** The [decision] a [Scheduler] returns. *)
Record decision := mkDecision { machineID : string }.

(** Go [error] values: whatever the Engine or the scheduler returns, and
    the [fmt.Errorf("unrecognized task type %q", t.Type)] of [doTask]. *)
Inductive error :=
| OtherError (msg : string)
| UnrecognizedTaskType (typ : string).

(** ** Observable actions *)

Inductive failure := MachineAway | RunFailure | ScheduleFailure.

(** The log calls of the reconciler, with their arguments. *)
Inductive logEntry :=
| DebugPollingRegistry
| ErrorFailedClusterState (err : error)
| ErrorFailedResolvingTask (t : task) (err : error)
| DebugUnableToSchedule (jName : string) (err : error)
| InfoCompletedTask (t : task).

Inductive event :=
| Poll (stopped : bool)               (* the [select] on the stop channel *)
| Send (t : task)                     (* [taskchan <- t] *)
| Close                               (* [close(taskchan)] *)
| Log (l : logEntry)
| ReportEngineReconcileSuccess
| ReportEngineReconcileFailure (f : failure)
| ReportEngineTask (typ : string)
| ReportEngineTaskFailure (typ : string)
| CallClusterState                    (* [e.clusterState()] *)
| CallUnscheduleUnit (jName machID : string)
| CallAttemptScheduleUnit (jName machID : string).

(** The tasks handed off, in order. *)
Fixpoint sent (evs : list event) : list task :=
  match evs with
  | [] => []
  | Send t :: rest => t :: sent rest
  | _ :: rest => sent rest
  end.

(** A Registry write: a call of [unscheduleUnit] or [attemptScheduleUnit]. *)
Definition isWrite (e : event) : bool :=
  match e with
  | CallUnscheduleUnit _ _ | CallAttemptScheduleUnit _ _ => true
  | _ => false
  end.

Definition isFailure (f : failure) (e : event) : bool :=
  match e, f with
  | ReportEngineReconcileFailure MachineAway, MachineAway => true
  | ReportEngineReconcileFailure RunFailure, RunFailure => true
  | ReportEngineReconcileFailure ScheduleFailure, ScheduleFailure => true
  | _, _ => false
  end.

Definition isUnscheduleOf (jName : string) (t : task) : bool :=
  (Typ t =? taskTypeUnscheduleUnit) && (JobName t =? jName).

Definition isAttemptOf (jName : string) (t : task) : bool :=
  (Typ t =? taskTypeAttemptScheduleUnit) && (JobName t =? jName).

(** ** Collaborators and snapshots for the examples

    The reconciler below is parametric in the Engine, the agents'
    eligibility predicate, the scheduler and the stop channel.  The
    examples instantiate them with the definitions of this part. *)

(** A registry that records the target machine of each job. *)
Definition registry := list (string * string).

Definition regUnschedule (r : registry) (jName machID : string) : registry * option error :=
  (filter (fun kv => negb (fst kv =? jName)) r, None).

Definition regAttemptSchedule (r : registry) (jName machID : string) : registry * bool :=
  ((jName, machID) :: r, true).

(** A registry whose unschedule write fails. *)
Definition regUnscheduleFails (r : registry) (jName machID : string) : registry * option error :=
  (r, Some (OtherError "store unavailable")).

Definition inNames (n : string) (l : list string) : bool :=
  existsb (String.eqb n) l.

(** An eligibility predicate over peers and conflicts: every peer of the
    job is on the agent (else the reschedule marker), and no unit on the
    agent conflicts with the job. *)
Definition peersAndConflicts (marker : string) (a : AgentState) (j : Job) : bool * string :=
  let here := map Name (Units a) in
  if negb (forallb (fun p => inNames p here) (Peers j)) then (false, marker)
  else if existsb (fun c => inNames c here) (Conflicts j) then (false, "conflict")
  else (true, "").

Definition lessLoaded (a b : string * AgentState) : bool :=
  Nat.ltb (length (Units (snd a))) (length (Units (snd b))) ||
  (Nat.eqb (length (Units (snd a))) (length (Units (snd b))) && String.ltb (fst a) (fst b)).

Fixpoint leastOf (best : option (string * AgentState)) (l : list (string * AgentState))
  : option (string * AgentState) :=
  match l with
  | [] => best
  | a :: rest =>
      match best with
      | None => leastOf (Some a) rest
      | Some b => leastOf (Some (if lessLoaded a b then a else b)) rest
      end
  end.

(** A least-loaded scheduler for the examples, after the policy the spec
    describes ([Scheduler] is an interface, and the reconciler is verified
    for every implementation of it): among the agents able to run the job,
    the one with the fewest scheduled units, and of two such the one with
    the smaller machine id. *)
Definition leastLoaded (able : AgentState -> Job -> bool * string)
  (cs : clusterState) (j : Job) : decision + error :=
  match leastOf None (filter (fun a => fst (able (snd a) j)) (agents cs)) with
  | Some a => inl (mkDecision (fst a))
  | None => inr (OtherError "unable to schedule unit")
  end.

Definition noResources : Resources := mkResources 0 0 0.
Definition machine (id : string) : MachineState := mkMachine id [] "" noResources noResources.
Definition simpleJob (n : string) (ts : JobState) (m : string) : Job :=
  mkJob n "" ts m [] [] [].

(** The collaborators of the examples: the marker, the agents'
    predicate, the scheduler and three stop channels. *)
Definition sampleMarker : string := "JobReschedule".
Definition sampleAble : AgentState -> Job -> bool * string :=
  peersAndConflicts sampleMarker.
Definition sampleDecide : clusterState -> Job -> decision + error :=
  leastLoaded sampleAble.
Definition neverStopped (t : nat) : bool := false.
Definition alwaysStopped (t : nat) : bool := true.
Definition stoppedFrom (n t : nat) : bool := Nat.leb n t.

Definition registryReads (cs : clusterState) (r : registry)
  : registry * (clusterState + error) := (r, inl cs).
Definition registryDown (r : registry) : registry * (clusterState + error) :=
  (r, inr (OtherError "store unavailable")).

(** One agent A; J is scheduled to A and is to be inactive. *)
Definition inactiveCluster : clusterState :=
  mkCluster [simpleJob "J" JobStateInactive "A"] [machine "A"].

(** Agent A only; J is scheduled to B. *)
Definition awayCluster : clusterState :=
  mkCluster [simpleJob "J" JobStateLaunched "B"] [machine "A"].

(** Agents A, with two jobs, and B, with none; J is unscheduled. *)
Definition placementCluster : clusterState :=
  mkCluster [simpleJob "K1" JobStateLaunched "A";
             simpleJob "K2" JobStateLaunched "A";
             simpleJob "J" JobStateLaunched ""]
            [machine "A"; machine "B"].

(** Agents A and B; J needs its peer K; K is on A and J on B. *)
Definition peerCluster : clusterState :=
  mkCluster [mkJob "J" "" JobStateLaunched "B" [] [] ["K"];
             simpleJob "K" JobStateLaunched "A"]
            [machine "A"; machine "B"].

(** Agent A only, with K; J conflicts with K and is unscheduled. *)
Definition conflictCluster : clusterState :=
  mkCluster [mkJob "J" "" JobStateLaunched "" [] ["K"] [];
             simpleJob "K" JobStateLaunched "A"]
            [machine "A"].

(** Agent A only; J conflicts with K and both are on A. *)
Definition crowdedCluster : clusterState :=
  mkCluster [mkJob "J" "" JobStateLaunched "A" [] ["K"] [];
             simpleJob "K" JobStateLaunched "A"]
            [machine "A"].

(** The same, and J is to be inactive. *)
Definition crowdedInactiveCluster : clusterState :=
  mkCluster [mkJob "J" "" JobStateInactive "A" [] ["K"] [];
             simpleJob "K" JobStateLaunched "A"]
            [machine "A"].

(** Agent A only; J and K conflict with each other and both are on A. *)
Definition feudCluster : clusterState :=
  mkCluster [mkJob "J" "" JobStateLaunched "A" [] ["K"] [];
             mkJob "K" "" JobStateLaunched "A" [] ["J"] []]
            [machine "A"].

(** ** fleetctl: the stop and start commands *)

(** The fields of [schema.Unit] that the commands read; [Options] is what
    [suToGlobal] looks at, as (section, name, value). *)
Record Unit := mkUnit {
  UnitName : string;
  CurrentState : string;
  Options : list (string * string * string)
}.

(** What the commands print, by format string. *)
Inductive message :=
| NoUnitsGiven
| ErrorValue (err : error)
| UnitsNotFoundInRegistry
| UnableToStopUnit (name : string) (st : JobState)
| UnitAlreadyInState (name : string) (st : JobState)
| SettingTargetState (name : string) (st : JobState)
| TriggeredGlobalUnit (name verb : string)
| FailedToStopUnits (names : list string) (err : error)
| SuccessfullyStoppedUnits (names : list string)
| ErrorCreatingUnits (err : error)
| ErrorStartingUnits (err : error)
| ErrorWaitingForUnitStates (err : error)
| ErrorWaitingForSystemdUnitStates (err : error).

(** The observable actions of a command: its output and its calls. *)
Inductive cliEvent :=
| Stderr (m : message)
| Stdout (m : message)
| Debugf (m : message)
| CallFindUnits (args : list string)
| CallSetUnitTargetState (name target : string)
| CallTryWaitForUnitStates (names : list string) (verb : string) (st : JobState) (attempts : Z)
| CallLazyCreateUnits (args : list string)
| CallLazyStartUnits (args : list string)
| CallTryWaitForSystemdActiveState (names : list string) (attempts : Z).

Definition isCall (ev : cliEvent) : bool :=
  match ev with
  | Stderr _ | Stdout _ | Debugf _ => false
  | _ => true
  end.

Definition isSetUnitTargetState (ev : cliEvent) : bool :=
  match ev with
  | CallSetUnitTargetState _ _ => true
  | _ => false
  end.

Definition isWait (ev : cliEvent) : bool :=
  match ev with
  | CallTryWaitForUnitStates _ _ _ _ | CallTryWaitForSystemdActiveState _ _ => true
  | _ => false
  end.

Section Fleetctl.

(** The cluster behind [cAPI] and the helpers of package main that are not
    among the sources. *)
Variable A : Type.
Variable findUnits : A -> list string -> A * (list Unit + error).
Variable suToGlobal : Unit -> bool.
Variable SetUnitTargetState : A -> string -> string -> A * option error.
Variable tryWaitForUnitStates :
  A -> list string -> string -> JobState -> Z -> A * option error.
Variable tryWaitForSystemdActiveState : A -> list string -> Z -> A * option error.
Variable lazyCreateUnits : A -> list string -> A * option error.
Variable lazyStartUnits : A -> list string -> A * (list Unit + error).

(** The value of [getBlockAttempts(cCmd)]. *)
Variable getBlockAttempts : Z.

(** The loop of [runStopUnit] over the units still to visit; [None] is the
    [return 1] inside the loop. *)
Fixpoint stopUnits (units : list Unit) (stopping : list string) (a : A)
  : list cliEvent * option (list string) * A :=
  match units with
  | [] => ([], Some stopping, a)
  | u :: rest =>
      if negb (suToGlobal u) && (CurrentState u =? JobStateInactive) then
        ([Stderr (UnableToStopUnit (UnitName u) JobStateInactive)], None, a)
      else if negb (suToGlobal u) && (CurrentState u =? JobStateLoaded) then
        let '(evs, r, a') := stopUnits rest stopping a in
        (Debugf (UnitAlreadyInState (UnitName u) JobStateLoaded) :: evs, r, a')
      else
        let a1 := fst (SetUnitTargetState a (UnitName u) JobStateLoaded) in
        if suToGlobal u then
          let '(evs, r, a') := stopUnits rest stopping a1 in
          (Debugf (SettingTargetState (UnitName u) JobStateLoaded)
             :: CallSetUnitTargetState (UnitName u) JobStateLoaded
             :: Stdout (TriggeredGlobalUnit (UnitName u) "stop") :: evs, r, a')
        else
          let '(evs, r, a') := stopUnits rest (stopping ++ [UnitName u]) a1 in
          (Debugf (SettingTargetState (UnitName u) JobStateLoaded)
             :: CallSetUnitTargetState (UnitName u) JobStateLoaded :: evs, r, a')
  end.

Definition runStopUnit (args : list string) (a : A) : Z * list cliEvent * A :=
  match args with
  | [] => (0%Z, [Stderr NoUnitsGiven], a)
  | _ :: _ =>
      let '(a1, found) := findUnits a args in
      match found with
      | inr err => (1%Z, [CallFindUnits args; Stderr (ErrorValue err)], a1)
      | inl [] => (0%Z, [CallFindUnits args; Stderr UnitsNotFoundInRegistry], a1)
      | inl units =>
          let '(evs, r, a2) := stopUnits units [] a1 in
          match r with
          | None => (1%Z, CallFindUnits args :: evs, a2)
          | Some stopping =>
              let '(a3, err) :=
                tryWaitForUnitStates a2 stopping "stop" JobStateLoaded getBlockAttempts in
              let wait :=
                CallTryWaitForUnitStates stopping "stop" JobStateLoaded getBlockAttempts in
              match err with
              | Some err =>
                  (1%Z, CallFindUnits args :: evs
                          ++ [wait; Stderr (FailedToStopUnits stopping err)], a3)
              | None =>
                  (0%Z, CallFindUnits args :: evs
                          ++ [wait; Stderr (SuccessfullyStoppedUnits stopping)], a3)
              end
          end
      end
  end.

(** The loop of [runStartUnit] over the triggered units. *)
Fixpoint startUnits (triggered : list Unit) (starting : list string)
  : list cliEvent * list string :=
  match triggered with
  | [] => ([], starting)
  | u :: rest =>
      if suToGlobal u then
        let '(evs, r) := startUnits rest starting in
        (Stdout (TriggeredGlobalUnit (UnitName u) "start") :: evs, r)
      else startUnits rest (starting ++ [UnitName u])
  end.

Definition runStartUnit (args : list string) (a : A) : Z * list cliEvent * A :=
  match args with
  | [] => (0%Z, [Stderr NoUnitsGiven], a)
  | _ :: _ =>
      let '(a1, cerr) := lazyCreateUnits a args in
      match cerr with
      | Some err =>
          (1%Z, [CallLazyCreateUnits args; Stderr (ErrorCreatingUnits err)], a1)
      | None =>
          let '(a2, r) := lazyStartUnits a1 args in
          match r with
          | inr err =>
              (1%Z, [CallLazyCreateUnits args; CallLazyStartUnits args;
                     Stderr (ErrorStartingUnits err)], a2)
          | inl triggered =>
              let '(evs, starting) := startUnits triggered [] in
              let pre := CallLazyCreateUnits args :: CallLazyStartUnits args :: evs in
              let '(a3, werr) :=
                tryWaitForUnitStates a2 starting "start" JobStateLaunched getBlockAttempts in
              let wait1 :=
                CallTryWaitForUnitStates starting "start" JobStateLaunched getBlockAttempts in
              match werr with
              | Some err =>
                  (1%Z, pre ++ [wait1; Stderr (ErrorWaitingForUnitStates err)], a3)
              | None =>
                  let '(a4, serr) :=
                    tryWaitForSystemdActiveState a3 starting getBlockAttempts in
                  let wait2 := CallTryWaitForSystemdActiveState starting getBlockAttempts in
                  match serr with
                  | Some err =>
                      (1%Z, pre ++ [wait1; wait2;
                                    Stderr (ErrorWaitingForSystemdUnitStates err)], a4)
                  | None => (0%Z, pre ++ [wait1; wait2], a4)
                  end
              end
          end
      end
  end.

End Fleetctl.

(** What the stop loop does with one unit: it refuses a unit that is not
    global and inactive, and it tells the others to stop unless they are
    not global and loaded already. *)
Definition refusesToStop (suToGlobal : Unit -> bool) (u : Unit) : bool :=
  negb (suToGlobal u) && (CurrentState u =? JobStateInactive).

Definition toldToStop (suToGlobal : Unit -> bool) (u : Unit) : bool :=
  suToGlobal u || negb (CurrentState u =? JobStateLoaded).

Definition waitedFor (suToGlobal : Unit -> bool) (u : Unit) : bool :=
  negb (suToGlobal u) && negb (CurrentState u =? JobStateLoaded).

(** The units that the stop loop visits before it refuses one. *)
Fixpoint visited (suToGlobal : Unit -> bool) (units : list Unit) : list Unit :=
  match units with
  | [] => []
  | u :: rest =>
      if refusesToStop suToGlobal u then [] else u :: visited suToGlobal rest
  end.

Definition isStdout (ev : cliEvent) : bool :=
  match ev with
  | Stdout _ => true
  | _ => false
  end.

(** Collaborators for the examples: the cluster is the list of target
    states set so far, every named unit is found, a unit is global when
    it has the option [X-Fleet]/[Global]/[true], and the waits succeed. *)
Definition cluster := list (string * string).

Definition globalOption : string * string * string := ("X-Fleet", "Global", "true").

Definition sampleGlobal (u : Unit) : bool :=
  existsb (fun o => (fst (fst o) =? "X-Fleet") && (snd (fst o) =? "Global")
                    && (snd o =? "true")) (Options u).

Definition sampleUnits : list Unit :=
  [mkUnit "web" "launched" [];
   mkUnit "db" "loaded" [];
   mkUnit "agent" "inactive" [globalOption];
   mkUnit "old" "inactive" [];
   mkUnit "cache" "launched" []].

Definition findIn (known : list Unit) (c : cluster) (args : list string)
  : cluster * (list Unit + error) :=
  (c, inl (filter (fun u => inNames (UnitName u) args) known)).

Definition setTarget (c : cluster) (name target : string) : cluster * option error :=
  (c ++ [(name, target)], None).

Definition waitSucceeds (c : cluster) (names : list string) (verb : string)
  (st : JobState) (attempts : Z) : cluster * option error := (c, None).

Definition waitFails (c : cluster) (names : list string) (verb : string)
  (st : JobState) (attempts : Z) : cluster * option error :=
  (c, Some (OtherError "timed out")).

Definition systemdWaitSucceeds (c : cluster) (names : list string) (attempts : Z)
  : cluster * option error := (c, None).

Definition createNothing (c : cluster) (args : list string) : cluster * option error :=
  (c, None).

(** ** The etcd double of the registry tests *)

Record action := mkAction {
  key : string;
  val : string;
  rec : bool
}.

(** The one field of [etcd.GetOptions] and of [etcd.DeleteOptions] that
    the double reads. *)
Record GetOptions := mkGetOptions { GetRecursive : bool }.
Record DeleteOptions := mkDeleteOptions { DeleteRecursive : bool }.

Section EtcdDouble.

(** [etcd.Response]; a [nil] pointer is [None]. *)
Variable Response : Type.

(** [ri] and [ei] start at zero and are only ever incremented, so they are
    naturals here. *)
Record testEtcdKeysAPI := mkTestEtcdKeysAPI {
  gets : list action;
  sets : list action;
  deletes : list action;
  res : list (option Response);
  ri : nat;
  err : list (option error);
  ei : nat
}.

Definition next (t : testEtcdKeysAPI)
  : option Response * option error * testEtcdKeysAPI :=
  let '(r, t1) :=
    if Nat.ltb (ri t) (length (res t))
    then (nth (ri t) (res t) None,
          mkTestEtcdKeysAPI (gets t) (sets t) (deletes t) (res t) (ri t + 1) (err t) (ei t))
    else (None, t) in
  let '(e, t2) :=
    if Nat.ltb (ei t1) (length (err t1))
    then (nth (ei t1) (err t1) None,
          mkTestEtcdKeysAPI (gets t1) (sets t1) (deletes t1) (res t1) (ri t1) (err t1)
                            (ei t1 + 1))
    else (None, t1) in
  (r, e, t2).

Definition Set_ (t : testEtcdKeysAPI) (k value : string)
  : option Response * option error * testEtcdKeysAPI :=
  next (mkTestEtcdKeysAPI (gets t) (sets t ++ [mkAction k value false]) (deletes t)
                          (res t) (ri t) (err t) (ei t)).

Definition Get (t : testEtcdKeysAPI) (k : string) (opts : option GetOptions)
  : option Response * option error * testEtcdKeysAPI :=
  let act :=
    match opts with
    | Some o => mkAction k "" (GetRecursive o)
    | None => mkAction k "" false
    end in
  next (mkTestEtcdKeysAPI (gets t ++ [act]) (sets t) (deletes t)
                          (res t) (ri t) (err t) (ei t)).

Definition Delete (t : testEtcdKeysAPI) (k : string) (opts : option DeleteOptions)
  : option Response * option error * testEtcdKeysAPI :=
  let act :=
    match opts with
    | Some o => mkAction k "" (DeleteRecursive o)
    | None => mkAction k "" false
    end in
  next (mkTestEtcdKeysAPI (gets t) (sets t) (deletes t ++ [act])
                          (res t) (ri t) (err t) (ei t)).

(** A client of the double: the calls it makes, one after the other, and
    what they return. *)
Inductive call :=
| DoSet (k value : string)
| DoGet (k : string) (opts : option GetOptions)
| DoDelete (k : string) (opts : option DeleteOptions).

Definition invoke (t : testEtcdKeysAPI) (c : call)
  : option Response * option error * testEtcdKeysAPI :=
  match c with
  | DoSet k value => Set_ t k value
  | DoGet k opts => Get t k opts
  | DoDelete k opts => Delete t k opts
  end.

Fixpoint invokeAll (t : testEtcdKeysAPI) (calls : list call)
  : list (option Response * option error) * testEtcdKeysAPI :=
  match calls with
  | [] => ([], t)
  | c :: rest =>
      let '(r, e, t1) := invoke t c in
      let '(out, t2) := invokeAll t1 rest in
      ((r, e) :: out, t2)
  end.

Definition setsOf (calls : list call) : list action :=
  flat_map (fun c => match c with
                     | DoSet k value => [mkAction k value false]
                     | _ => []
                     end) calls.

Definition getsOf (calls : list call) : list action :=
  flat_map (fun c => match c with
                     | DoGet k (Some o) => [mkAction k "" (GetRecursive o)]
                     | DoGet k None => [mkAction k "" false]
                     | _ => []
                     end) calls.

Definition deletesOf (calls : list call) : list action :=
  flat_map (fun c => match c with
                     | DoDelete k (Some o) => [mkAction k "" (DeleteRecursive o)]
                     | DoDelete k None => [mkAction k "" false]
                     | _ => []
                     end) calls.

End EtcdDouble.

(** ** The reconciler *)

Section Reconciler.

(** The Engine facade: the state behind [*Engine] and its three methods. *)
Variable E : Type.
Variable AttemptResult : Type.
Variable Engine_clusterState : E -> E * (clusterState + error).
Variable unscheduleUnit : E -> string -> string -> E * option error.
Variable attemptScheduleUnit : E -> string -> string -> E * AttemptResult.

(** [agent.AgentState.AbleToRun] and the marker [job.JobReschedule]. *)
Variable AbleToRun : AgentState -> Job -> bool * string.
Variable JobReschedule : string.

(** [r.sched.Decide]. *)
Variable Decide : clusterState -> Job -> decision + error.

(** The stop channel: [stopchan t] holds when a receive on it succeeds at
    logical time [t]. *)
Variable stopchan : nat -> bool.

Record state := mkState { clust : clusterState; eng : E }.

(** A computation starts at a time in a state and yields a result, the
    events it performed and the state it leaves. *)
Definition M (A : Type) : Type := nat -> state -> A * list event * state.

Definition ret {A : Type} (a : A) : M A := fun _ s => (a, [], s).

Definition bind {A B : Type} (c : M A) (k : A -> M B) : M B :=
  fun t s =>
    let '(a, ev1, s1) := c t s in
    let '(b, ev2, s2) := k a (t + length ev1) s1 in
    (b, ev1 ++ ev2, s2).

Notation "x <- c ;; k" := (bind c (fun x => k))
  (at level 61, c at next level, right associativity).
Notation "c ;;; k" := (bind c (fun _ => k))
  (at level 61, right associativity).

Definition emit (e : event) : M unit := fun _ s => (tt, [e], s).

(** A result that comes with the events of computing it. *)
Definition perform {A : Type} (r : A * list event) : M A :=
  fun _ s => (fst r, snd r, s).

Definition getClust : M clusterState := fun _ s => (clust s, [], s).

Definition modifyClust (f : clusterState -> clusterState) : M unit :=
  fun _ s => (tt, [], mkState (f (clust s)) (eng s)).

(** [select { case <-stopchan: ...; default: }]. *)
Definition pollStop : M bool := fun t s => (stopchan t, [Poll (stopchan t)], s).

(** The rendezvous on the unbuffered channel: the receiver's loop body
    runs on the Engine. *)
Definition handOff (recv : task -> E -> list event * E) (t : task) : M unit :=
  fun _ s => let '(ev, e') := recv t (eng s) in (tt, ev, mkState (clust s) e').

(** The closure [send]. *)
Definition send (recv : task -> E -> list event * E)
  (typ reason jName machID : string) : M bool :=
  stopped <- pollStop ;;
  if stopped then ret false
  else
    emit (Send (mkTask typ reason jName machID)) ;;;
    handOff recv (mkTask typ reason jName machID) ;;;
    ret true.

(** The closure [decide] of the unschedule loop: the verdict, the reason
    and the metrics it reports on the way. *)
Definition decide (ags : list (string * AgentState)) (j : Job)
  : bool * string * list event :=
  if TargetState j =? JobStateInactive then (true, "target state inactive", [])
  else
    match lookupAgent (TargetMachineID j) ags with
    | None =>
        (true, ("target Machine(" ++ TargetMachineID j ++ ") went away")%string,
         [ReportEngineReconcileFailure MachineAway])
    | Some a =>
        let '(able, ableReason) := AbleToRun a j in
        if negb able then
          if ableReason =? JobReschedule then (true, ableReason, [])
          else
            (true, ("target Machine(" ++ TargetMachineID j ++ ") unable to run unit")%string,
             [ReportEngineReconcileFailure RunFailure])
        else (false, "", [])
    end.

(** One iteration of the first loop; [false] is the [return] that ends
    the goroutine. *)
Definition unscheduleStep (recv : task -> E -> list event * E)
  (ags : list (string * AgentState)) (j : Job) : M bool :=
  if negb (Scheduled j) then ret true
  else
    d <- perform (decide ags j) ;;
    if negb (fst d) then ret true
    else
      ok <- send recv taskTypeUnscheduleUnit (snd d) (Name j) (TargetMachineID j) ;;
      if negb ok then ret false
      else modifyClust (unschedule (Name j)) ;;; ret true.

(** One iteration of the second loop. *)
Definition scheduleStep (recv : task -> E -> list event * E) (j : Job) : M bool :=
  if Scheduled j || (TargetState j =? JobStateInactive) then ret true
  else
    cs <- getClust ;;
    match Decide cs j with
    | inr err =>
        emit (Log (DebugUnableToSchedule (Name j) err)) ;;;
        emit (ReportEngineReconcileFailure ScheduleFailure) ;;;
        ret true
    | inl dec =>
        ok <- send recv taskTypeAttemptScheduleUnit
                ("target state " ++ TargetState j ++ " and unit not scheduled")%string
                (Name j) (machineID dec) ;;
        if negb ok then
          emit (ReportEngineReconcileFailure ScheduleFailure) ;;; ret false
        else modifyClust (schedule (Name j) (machineID dec)) ;;; ret true
    end.

(** [for _, j := range clust.jobs]: the job objects are visited by
    position and read in the state current at the visit. *)
Fixpoint rangeJobs (body : Job -> M bool) (idx : list nat) : M bool :=
  match idx with
  | [] => ret true
  | i :: rest =>
      cs <- getClust ;;
      match nth_error (jobs cs) i with
      | None => rangeJobs body rest
      | Some j =>
          ok <- body j ;;
          if ok then rangeJobs body rest else ret false
      end
  end.

Definition unschedulePhase (recv : task -> E -> list event * E) : M bool :=
  cs <- getClust ;;
  rangeJobs (unscheduleStep recv (agents cs)) (seq 0 (length (jobs cs))).

Definition schedulePhase (recv : task -> E -> list event * E) : M bool :=
  cs <- getClust ;;
  rangeJobs (scheduleStep recv) (seq 0 (length (jobs cs))).

(** The goroutine of [calculateClusterTasks]. *)
Definition producer (recv : task -> E -> list event * E) : M unit :=
  ok <- unschedulePhase recv ;;
  if ok then schedulePhase recv ;;; emit Close
  else emit Close.

Definition calculateClusterTasks (recv : task -> E -> list event * E)
  (cs : clusterState) (t : nat) (e : E) : list event * state :=
  let '(_, evs, s) := producer recv t (mkState cs e) in (evs, s).

Definition doTask (t : task) (e : E) : option error * list event * E :=
  let '(err, evs, e') :=
    if Typ t =? taskTypeUnscheduleUnit then
      let '(e', err) := unscheduleUnit e (JobName t) (MachineID t) in
      (err, [CallUnscheduleUnit (JobName t) (MachineID t); ReportEngineTask (Typ t)], e')
    else if Typ t =? taskTypeAttemptScheduleUnit then
      let '(e', _) := attemptScheduleUnit e (JobName t) (MachineID t) in
      (None, [CallAttemptScheduleUnit (JobName t) (MachineID t); ReportEngineTask (Typ t)], e')
    else (Some (UnrecognizedTaskType (Typ t)), [], e) in
  match err with
  | None => (err, evs ++ [Log (InfoCompletedTask t)], e')
  | Some _ => (err, evs ++ [ReportEngineTaskFailure (Typ t)], e')
  end.

(** The body of the [range] loop of [Reconcile]. *)
Definition receive (t : task) (e : E) : list event * E :=
  let '(err, evs, e') := doTask t e in
  match err with
  | Some er => (evs ++ [Log (ErrorFailedResolvingTask t er)], e')
  | None => (evs, e')
  end.

(** [Reconcile], started at time [t]. *)
Definition Reconcile (t : nat) (e : E) : list event * E :=
  let '(e1, r) := Engine_clusterState e in
  match r with
  | inr err =>
      ([Log DebugPollingRegistry; CallClusterState; Log (ErrorFailedClusterState err)], e1)
  | inl cs =>
      let '(evs, s) := calculateClusterTasks receive cs (t + 2) e1 in
      ([Log DebugPollingRegistry; CallClusterState] ++ evs ++ [ReportEngineReconcileSuccess],
       eng s)
  end.

(** ** What the loops do with one job *)

Definition willUnschedule (ags : list (string * AgentState)) (j : Job) : bool :=
  Scheduled j && fst (fst (decide ags j)).

Definition unscheduleTask (ags : list (string * AgentState)) (j : Job) : task :=
  mkTask taskTypeUnscheduleUnit (snd (fst (decide ags j))) (Name j) (TargetMachineID j).

Definition attemptTask (j : Job) (machID : string) : task :=
  mkTask taskTypeAttemptScheduleUnit
         ("target state " ++ TargetState j ++ " and unit not scheduled")%string
         (Name j) machID.

(** The job as the unschedule loop leaves it, the task it sends for it
    and the metrics it reports for it, when it is not stopped. *)
Definition settle (ags : list (string * AgentState)) (j : Job) : Job :=
  if willUnschedule ags j then setTargetMachineID "" j else j.

Definition tasksOf (ags : list (string * AgentState)) (j : Job) : list task :=
  if willUnschedule ags j then [unscheduleTask ags j] else [].

Definition notesOf (ags : list (string * AgentState)) (j : Job) : list event :=
  if Scheduled j then snd (decide ags j) else [].

(** The schedule loop visits a job and asks the scheduler. *)
Definition wantsSchedule (j : Job) : bool :=
  negb (Scheduled j || (TargetState j =? JobStateInactive)).

Definition isFailureReport (e : event) : bool :=
  match e with ReportEngineReconcileFailure _ => true | _ => false end.

Definition failures (evs : list event) : list event := filter isFailureReport evs.

(** Events of the producer between two polls, and events of the
    receiver. *)
Definition producerNote (e : event) : bool :=
  match e with
  | ReportEngineReconcileFailure _ => true
  | Log (DebugUnableToSchedule _ _) => true
  | _ => false
  end.

Definition receiverEvent (e : event) : bool :=
  match e with
  | CallUnscheduleUnit _ _ | CallAttemptScheduleUnit _ _ => true
  | ReportEngineTask _ | ReportEngineTaskFailure _ => true
  | Log (InfoCompletedTask _) | Log (ErrorFailedResolvingTask _ _) => true
  | _ => false
  end.

(** The shape of what the producer does from time [t] on: notes, guarded
    hand-offs each followed by the receiver's work on the task, and at
    most one poll that finds the stop channel ready, after which nothing
    is handed off.  The flag tells whether the producer was not stopped. *)
Inductive producerTrace (recv : task -> E -> list event * E)
  : nat -> list event -> bool -> Prop :=
| PT_nil : forall t, producerTrace recv t [] true
| PT_note : forall t e evs ok,
    producerNote e = true ->
    producerTrace recv (S t) evs ok ->
    producerTrace recv t (e :: evs) ok
| PT_send : forall t x e0 evs ok,
    stopchan t = false ->
    producerTrace recv (t + 2 + length (fst (recv x e0))) evs ok ->
    producerTrace recv t (Poll false :: Send x :: fst (recv x e0) ++ evs) ok
| PT_stop : forall t tail,
    stopchan t = true ->
    tail = [] \/ tail = [ReportEngineReconcileFailure ScheduleFailure] ->
    producerTrace recv t (Poll true :: tail) false.

(** How often a reconcile failure is reported. *)
Definition countFailure (f : failure) (evs : list event) : nat :=
  length (filter (isFailure f) evs).

(** A scheduled job, not to be inactive, whose target machine is not in
    the agent map. *)
Definition awayJob (ags : list (string * AgentState)) (j : Job) : bool :=
  Scheduled j && negb (TargetState j =? JobStateInactive) &&
  match lookupAgent (TargetMachineID j) ags with
  | None => true
  | Some _ => false
  end.

(** A scheduled job, not to be inactive, whose agent is there and cannot
    run it, for another reason than the reschedule marker. *)
Definition runFailJob (ags : list (string * AgentState)) (j : Job) : bool :=
  Scheduled j && negb (TargetState j =? JobStateInactive) &&
  match lookupAgent (TargetMachineID j) ags with
  | None => false
  | Some a =>
      negb (fst (AbleToRun a j)) && negb (snd (AbleToRun a j) =? JobReschedule)
  end.

(** The Registry write that executing a task issues. *)
Definition writesOf (x : task) : list event :=
  if Typ x =? taskTypeUnscheduleUnit then
    [CallUnscheduleUnit (JobName x) (MachineID x)]
  else if Typ x =? taskTypeAttemptScheduleUnit then
    [CallAttemptScheduleUnit (JobName x) (MachineID x)]
  else [].

(** Sequencing of two runs of a loop: the second starts where the first
    stopped, unless the first ended the goroutine. *)
Definition andThen (r : bool * list event * state)
  (k : nat -> state -> bool * list event * state) (t : nat)
  : bool * list event * state :=
  let '(ok, ev1, s1) := r in
  if ok then
    let '(ok2, ev2, s2) := k (t + length ev1) s1 in (ok2, ev1 ++ ev2, s2)
  else (false, ev1, s1).

(** ** The monad *)

Ltac run := unfold bind, ret, emit, perform, getClust, modifyClust, pollStop, handOff; simpl.

Lemma send_stopped recv typ reason jName machID t s :
  stopchan t = true ->
  send recv typ reason jName machID t s = (false, [Poll true], s).
Proof.
  intros H. unfold send. run. rewrite H. reflexivity.
Qed.

Lemma send_passed recv typ reason jName machID t s :
  stopchan t = false ->
  send recv typ reason jName machID t s =
    (true,
     Poll false :: Send (mkTask typ reason jName machID)
       :: fst (recv (mkTask typ reason jName machID) (eng s)),
     mkState (clust s) (snd (recv (mkTask typ reason jName machID) (eng s)))).
Proof.
  intros H. unfold send. run. rewrite H. simpl.
  destruct (recv _ (eng s)) as [ev e']. simpl. rewrite app_nil_r. reflexivity.
Qed.

Lemma unscheduleStep_skip recv ags j t s :
  willUnschedule ags j = false ->
  unscheduleStep recv ags j t s = (true, notesOf ags j, s).
Proof.
  unfold willUnschedule, notesOf, unscheduleStep. intros H.
  destruct (Scheduled j); simpl in *.
  - run. rewrite H. simpl. rewrite app_nil_r. reflexivity.
  - reflexivity.
Qed.

Lemma unscheduleStep_stopped recv ags j t s :
  willUnschedule ags j = true ->
  stopchan (t + length (notesOf ags j)) = true ->
  unscheduleStep recv ags j t s = (false, notesOf ags j ++ [Poll true], s).
Proof.
  unfold willUnschedule, notesOf, unscheduleStep. intros H Hs.
  apply andb_prop in H. destruct H as [H1 H2]. rewrite H1 in *. simpl.
  unfold bind at 1. unfold perform at 1. simpl. rewrite H2. simpl.
  unfold bind. rewrite (send_stopped _ _ _ _ _ _ _ Hs). reflexivity.
Qed.

Lemma unscheduleStep_sent recv ags j t s :
  willUnschedule ags j = true ->
  stopchan (t + length (notesOf ags j)) = false ->
  unscheduleStep recv ags j t s =
    (true,
     notesOf ags j ++ Poll false :: Send (unscheduleTask ags j)
       :: fst (recv (unscheduleTask ags j) (eng s)),
     mkState (unschedule (Name j) (clust s))
             (snd (recv (unscheduleTask ags j) (eng s)))).
Proof.
  unfold willUnschedule, notesOf, unscheduleStep. intros H Hs.
  apply andb_prop in H. destruct H as [H1 H2]. rewrite H1 in *. simpl.
  unfold bind at 1. unfold perform at 1. simpl. rewrite H2. simpl.
  unfold bind. rewrite (send_passed _ _ _ _ _ _ _ Hs). simpl.
  rewrite app_nil_r. reflexivity.
Qed.

Lemma scheduleStep_skip recv j t s :
  wantsSchedule j = false ->
  scheduleStep recv j t s = (true, [], s).
Proof.
  unfold wantsSchedule, scheduleStep. intros H.
  apply negb_false_iff in H. rewrite H. reflexivity.
Qed.

Lemma scheduleStep_failed recv j t s err :
  wantsSchedule j = true ->
  Decide (clust s) j = inr err ->
  scheduleStep recv j t s =
    (true,
     [Log (DebugUnableToSchedule (Name j) err);
      ReportEngineReconcileFailure ScheduleFailure],
     s).
Proof.
  unfold wantsSchedule, scheduleStep. intros H Hd.
  apply negb_true_iff in H. rewrite H. run. rewrite Hd. reflexivity.
Qed.

Lemma scheduleStep_stopped recv j t s dec :
  wantsSchedule j = true ->
  Decide (clust s) j = inl dec ->
  stopchan t = true ->
  scheduleStep recv j t s =
    (false, [Poll true; ReportEngineReconcileFailure ScheduleFailure], s).
Proof.
  unfold wantsSchedule, scheduleStep. intros H Hd Hs.
  apply negb_true_iff in H. rewrite H.
  unfold bind at 1. unfold getClust at 1. simpl. rewrite Hd.
  unfold bind at 1. rewrite Nat.add_0_r.
  rewrite (send_stopped _ _ _ _ _ _ _ Hs). reflexivity.
Qed.

Lemma scheduleStep_sent recv j t s dec :
  wantsSchedule j = true ->
  Decide (clust s) j = inl dec ->
  stopchan t = false ->
  scheduleStep recv j t s =
    (true,
     Poll false :: Send (attemptTask j (machineID dec))
       :: fst (recv (attemptTask j (machineID dec)) (eng s)),
     mkState (schedule (Name j) (machineID dec) (clust s))
             (snd (recv (attemptTask j (machineID dec)) (eng s)))).
Proof.
  unfold wantsSchedule, scheduleStep. intros H Hd Hs.
  apply negb_true_iff in H. rewrite H.
  unfold bind at 1. unfold getClust at 1. simpl. rewrite Hd.
  unfold bind at 1. rewrite Nat.add_0_r.
  rewrite (send_passed _ _ _ _ _ _ _ Hs). simpl.
  rewrite app_nil_r. reflexivity.
Qed.

(** ** The range loop *)

Lemma rangeJobs_nil body t s : rangeJobs body [] t s = (true, [], s).
Proof. reflexivity. Qed.

Lemma rangeJobs_cons body i rest t s j :
  nth_error (jobs (clust s)) i = Some j ->
  rangeJobs body (i :: rest) t s = andThen (body j t s) (rangeJobs body rest) t.
Proof.
  intros H. simpl. unfold bind at 1. unfold getClust. simpl.
  rewrite Nat.add_0_r, H. unfold bind, andThen.
  destruct (body j t s) as [[ok ev1] s1].
  destruct ok.
  - destruct (rangeJobs body rest (t + length ev1) s1) as [[ok2 ev2] s2]. reflexivity.
  - simpl. rewrite app_nil_r. reflexivity.
Qed.

Lemma rangeJobs_cons_none body i rest t s :
  nth_error (jobs (clust s)) i = None ->
  rangeJobs body (i :: rest) t s = rangeJobs body rest t s.
Proof.
  intros H. simpl. unfold bind at 1. unfold getClust. simpl.
  rewrite Nat.add_0_r, H.
  destruct (rangeJobs body rest t s) as [[ok2 ev2] s2]. reflexivity.
Qed.

Lemma rangeJobs_app body l1 : forall l2 t s,
  rangeJobs body (l1 ++ l2) t s = andThen (rangeJobs body l1 t s) (rangeJobs body l2) t.
Proof.
  induction l1 as [|i l1 IH]; intros l2 t s.
  - simpl. unfold andThen, ret. simpl. rewrite Nat.add_0_r.
    destruct (rangeJobs body l2 t s) as [[ok2 ev2] s2]. reflexivity.
  - destruct (nth_error (jobs (clust s)) i) as [j|] eqn:Hj.
    + simpl app. rewrite (rangeJobs_cons _ _ _ _ _ _ Hj), (rangeJobs_cons _ _ _ _ _ _ Hj).
      destruct (body j t s) as [[ok ev1] s1]. unfold andThen. destruct ok.
      * rewrite IH. unfold andThen.
        destruct (rangeJobs body l1 (t + length ev1) s1) as [[ok2 ev2] s2].
        destruct ok2.
        -- rewrite length_app, Nat.add_assoc.
           destruct (rangeJobs body l2 (t + length ev1 + length ev2) s2) as [[ok3 ev3] s3].
           rewrite app_assoc. reflexivity.
        -- reflexivity.
      * reflexivity.
    + simpl app. rewrite (rangeJobs_cons_none _ _ _ _ _ Hj), (rangeJobs_cons_none _ _ _ _ _ Hj).
      apply IH.
Qed.

(** ** The shape of the producer's events *)

Lemma producerTrace_app recv t A : forall B ok,
  producerTrace recv t A true ->
  producerTrace recv (t + length A) B ok ->
  producerTrace recv t (A ++ B) ok.
Proof.
  intros B ok HA. remember true as okA eqn:Hok. revert Hok.
  induction HA as [t|t e evs okA He HA IH|t x e0 evs okA Hs HA IH|t tail Hs Ht];
    intros Hok HB.
  - simpl in HB. rewrite Nat.add_0_r in HB. exact HB.
  - simpl. apply PT_note; [exact He|]. apply IH; [exact Hok|].
    simpl in HB. rewrite <- Nat.add_succ_comm in HB. exact HB.
  - simpl. rewrite <- app_assoc. apply PT_send; [exact Hs|].
    apply IH; [exact Hok|].
    simpl in HB. rewrite length_app in HB.
    replace (t + 2 + length (fst (recv x e0)) + length evs)
      with (t + S (S (length (fst (recv x e0)) + length evs))) by lia.
    exact HB.
  - discriminate.
Qed.

Lemma producerTrace_notes recv : forall notes t evs ok,
  Forall (fun e => producerNote e = true) notes ->
  producerTrace recv (t + length notes) evs ok ->
  producerTrace recv t (notes ++ evs) ok.
Proof.
  induction notes as [|e notes IH]; intros t evs ok Hn H.
  - simpl in *. rewrite Nat.add_0_r in H. exact H.
  - inversion Hn; subst. simpl. apply PT_note; [assumption|].
    apply IH; [assumption|]. simpl in H. rewrite <- Nat.add_succ_comm in H. exact H.
Qed.

Lemma producerTrace_unstopped recv t evs ok :
  (forall k, stopchan k = false) ->
  producerTrace recv t evs ok -> ok = true.
Proof.
  intros Hs H. induction H; auto.
  rewrite Hs in H. discriminate.
Qed.

Lemma decide_notes ags j :
  Forall (fun e => producerNote e = true) (snd (decide ags j)).
Proof.
  unfold decide.
  destruct (TargetState j =? JobStateInactive); [constructor|].
  destruct (lookupAgent (TargetMachineID j) ags) as [a|].
  - destruct (AbleToRun a j) as [able r]. destruct able; simpl; [constructor|].
    destruct (r =? JobReschedule); simpl; repeat constructor.
  - simpl. repeat constructor.
Qed.

Lemma notesOf_notes ags j :
  Forall (fun e => producerNote e = true) (notesOf ags j).
Proof.
  unfold notesOf. destruct (Scheduled j); [apply decide_notes|constructor].
Qed.

(** ** Projections of a trace *)

Lemma sent_app a b : sent (a ++ b) = sent a ++ sent b.
Proof.
  induction a as [|e a IH]; simpl; [reflexivity|].
  destruct e; simpl; rewrite ?IH; reflexivity.
Qed.

Lemma failures_app a b : failures (a ++ b) = failures a ++ failures b.
Proof. apply filter_app. Qed.

Lemma sent_notes notes :
  Forall (fun e => producerNote e = true) notes -> sent notes = [].
Proof.
  induction 1 as [|e l He _ IH]; simpl; [reflexivity|].
  destruct e; simpl in *; try discriminate; exact IH.
Qed.

Lemma sent_receiver R :
  Forall (fun e => receiverEvent e = true) R -> sent R = [].
Proof.
  induction 1 as [|e l He _ IH]; simpl; [reflexivity|].
  destruct e; simpl in *; try discriminate; exact IH.
Qed.

Lemma failures_receiver R :
  Forall (fun e => receiverEvent e = true) R -> failures R = [].
Proof.
  induction 1 as [|e l He _ IH]; simpl; [reflexivity|].
  destruct e; simpl in *; try discriminate; exact IH.
Qed.

Lemma failures_decide ags j : failures (snd (decide ags j)) = snd (decide ags j).
Proof.
  unfold decide.
  destruct (TargetState j =? JobStateInactive); [reflexivity|].
  destruct (lookupAgent (TargetMachineID j) ags) as [a|]; [|reflexivity].
  destruct (AbleToRun a j) as [able r]. destruct able; simpl; [reflexivity|].
  destruct (r =? JobReschedule); reflexivity.
Qed.

Lemma failures_notesOf ags j : failures (notesOf ags j) = notesOf ags j.
Proof.
  unfold notesOf. destruct (Scheduled j); [apply failures_decide|reflexivity].
Qed.

(** ** The snapshot under [schedule] and [unschedule] *)

Lemma retarget_Name n m j : Name (retarget n m j) = Name j.
Proof. unfold retarget. destruct (Name j =? n); reflexivity. Qed.

Lemma map_retarget_Name n m l : map Name (map (retarget n m) l) = map Name l.
Proof.
  rewrite map_map. apply map_ext. intros j. apply retarget_Name.
Qed.

Lemma map_retarget_other n m l :
  ~ In n (map Name l) -> map (retarget n m) l = l.
Proof.
  induction l as [|j l IH]; simpl; intros H; [reflexivity|].
  unfold retarget at 1. destruct (String.eqb_spec (Name j) n) as [Hn|Hn].
  - exfalso. apply H. left. exact Hn.
  - rewrite IH; [reflexivity|]. intros Hin. apply H. right. exact Hin.
Qed.

Lemma map_retarget_at m done j rest :
  NoDup (map Name (done ++ j :: rest)) ->
  map (retarget (Name j) m) (done ++ j :: rest) =
    done ++ setTargetMachineID m j :: rest.
Proof.
  intros H. rewrite map_app in H. simpl in H.
  pose proof (NoDup_remove_2 _ _ _ H) as Hn.
  rewrite map_app. simpl. unfold retarget at 2. rewrite String.eqb_refl.
  rewrite !map_retarget_other; [reflexivity| |].
  - intros Hin. apply Hn. apply in_or_app. right. exact Hin.
  - intros Hin. apply Hn. apply in_or_app. left. exact Hin.
Qed.

Lemma nth_error_middle {A : Type} (done : list A) (j : A) (rest : list A) :
  nth_error (done ++ j :: rest) (length done) = Some j.
Proof.
  rewrite nth_error_app2 by lia. rewrite Nat.sub_diag. reflexivity.
Qed.

Lemma names_setTarget_at m done j rest :
  map Name (done ++ setTargetMachineID m j :: rest) = map Name (done ++ j :: rest).
Proof. rewrite !map_app. reflexivity. Qed.

Section Producer.

Variable recv : task -> E -> list event * E.
Hypothesis recv_events :
  forall x e, Forall (fun ev => receiverEvent ev = true) (fst (recv x e)).

Lemma unscheduleStep_cases ags j t s :
  (willUnschedule ags j = false /\
   unscheduleStep recv ags j t s = (true, notesOf ags j, s)) \/
  (willUnschedule ags j = true /\
   stopchan (t + length (notesOf ags j)) = true /\
   unscheduleStep recv ags j t s = (false, notesOf ags j ++ [Poll true], s)) \/
  (willUnschedule ags j = true /\
   stopchan (t + length (notesOf ags j)) = false /\
   unscheduleStep recv ags j t s =
     (true,
      notesOf ags j ++ Poll false :: Send (unscheduleTask ags j)
        :: fst (recv (unscheduleTask ags j) (eng s)),
      mkState (unschedule (Name j) (clust s))
              (snd (recv (unscheduleTask ags j) (eng s))))).
Proof.
  destruct (willUnschedule ags j) eqn:Hw.
  - destruct (stopchan (t + length (notesOf ags j))) eqn:Hs.
    + right; left. repeat split; auto using unscheduleStep_stopped.
    + right; right. repeat split; auto using unscheduleStep_sent.
  - left. split; auto using unscheduleStep_skip.
Qed.

Lemma scheduleStep_cases j t s :
  (wantsSchedule j = false /\ scheduleStep recv j t s = (true, [], s)) \/
  (wantsSchedule j = true /\ exists err,
     Decide (clust s) j = inr err /\
     scheduleStep recv j t s =
       (true,
        [Log (DebugUnableToSchedule (Name j) err);
         ReportEngineReconcileFailure ScheduleFailure],
        s)) \/
  (wantsSchedule j = true /\ exists dec,
     Decide (clust s) j = inl dec /\ stopchan t = true /\
     scheduleStep recv j t s =
       (false, [Poll true; ReportEngineReconcileFailure ScheduleFailure], s)) \/
  (wantsSchedule j = true /\ exists dec,
     Decide (clust s) j = inl dec /\ stopchan t = false /\
     scheduleStep recv j t s =
       (true,
        Poll false :: Send (attemptTask j (machineID dec))
          :: fst (recv (attemptTask j (machineID dec)) (eng s)),
        mkState (schedule (Name j) (machineID dec) (clust s))
                (snd (recv (attemptTask j (machineID dec)) (eng s))))).
Proof.
  destruct (wantsSchedule j) eqn:Hw.
  - destruct (Decide (clust s) j) as [dec|err] eqn:Hd.
    + destruct (stopchan t) eqn:Hs.
      * right; right; left. split; [reflexivity|]. exists dec.
        repeat split; eauto using scheduleStep_stopped.
      * right; right; right. split; [reflexivity|]. exists dec.
        repeat split; eauto using scheduleStep_sent.
    + right; left. split; [reflexivity|]. exists err.
      split; eauto using scheduleStep_failed.
  - left. split; auto using scheduleStep_skip.
Qed.

Lemma unscheduleStep_trace ags j t s ok evs s' :
  unscheduleStep recv ags j t s = (ok, evs, s') ->
  producerTrace recv t evs ok.
Proof.
  intros H.
  destruct (unscheduleStep_cases ags j t s) as [[_ E1]|[[_ [Hs E1]]|[_ [Hs E1]]]];
    rewrite E1 in H; inversion H; subst; clear H.
  - rewrite <- (app_nil_r (notesOf ags j)).
    apply producerTrace_notes; [apply notesOf_notes|apply PT_nil].
  - apply producerTrace_notes; [apply notesOf_notes|].
    apply PT_stop; auto.
  - apply producerTrace_notes; [apply notesOf_notes|].
    rewrite <- (app_nil_r (fst _)).
    apply PT_send; [exact Hs|apply PT_nil].
Qed.

Lemma scheduleStep_trace j t s ok evs s' :
  scheduleStep recv j t s = (ok, evs, s') ->
  producerTrace recv t evs ok.
Proof.
  intros H.
  destruct (scheduleStep_cases j t s)
    as [[_ E1]|[[_ [err [_ E1]]]|[[_ [dec [_ [Hs E1]]]]|[_ [dec [_ [Hs E1]]]]]]];
    rewrite E1 in H; inversion H; subst; clear H.
  - apply PT_nil.
  - apply PT_note; [reflexivity|]. apply PT_note; [reflexivity|]. apply PT_nil.
  - apply PT_stop; auto.
  - rewrite <- (app_nil_r (fst _)).
    apply PT_send; [exact Hs|apply PT_nil].
Qed.

Lemma rangeJobs_trace body :
  (forall j t s ok evs s', body j t s = (ok, evs, s') -> producerTrace recv t evs ok) ->
  forall idx t s ok evs s',
    rangeJobs body idx t s = (ok, evs, s') -> producerTrace recv t evs ok.
Proof.
  intros Hb. induction idx as [|i idx IH]; intros t s ok evs s' H.
  - inversion H; subst. apply PT_nil.
  - destruct (nth_error (jobs (clust s)) i) as [j|] eqn:Hj.
    + rewrite (rangeJobs_cons _ _ _ _ _ _ Hj) in H. unfold andThen in H.
      destruct (body j t s) as [[ok1 ev1] s1] eqn:E1.
      apply Hb in E1. destruct ok1.
      * destruct (rangeJobs body idx (t + length ev1) s1) as [[ok2 ev2] s2] eqn:E2.
        inversion H; subst. apply producerTrace_app; [exact E1|].
        eapply IH; eauto.
      * inversion H; subst. exact E1.
    + rewrite (rangeJobs_cons_none _ _ _ _ _ Hj) in H. eapply IH; eauto.
Qed.

(** The unschedule loop over the jobs [rest], the jobs [done] before
    them already visited. *)
Lemma unschedule_range ags : forall rest done post t s ok evs s',
  jobs (clust s) = done ++ rest ++ post ->
  NoDup (map Name (done ++ rest ++ post)) ->
  rangeJobs (unscheduleStep recv ags) (seq (length done) (length rest)) t s
    = (ok, evs, s') ->
  (NoDup (map JobName (sent evs)) /\
   Forall (fun x => In (JobName x) (map Name rest)) (sent evs)) /\
  (ok = true ->
   jobs (clust s') = done ++ map (settle ags) rest ++ post /\
   machines (clust s') = machines (clust s) /\
   sent evs = flat_map (tasksOf ags) rest /\
   failures evs = flat_map (notesOf ags) rest).
Proof.
  induction rest as [|j rest IH]; intros done post t s ok evs s' Hjobs Hnd H.
  - simpl in H. inversion H; subst. simpl.
    repeat split; auto; constructor.
  - simpl length in H. simpl seq in H.
    assert (Hj : nth_error (jobs (clust s)) (length done) = Some j).
    { rewrite Hjobs. simpl. apply nth_error_middle. }
    rewrite (rangeJobs_cons _ _ _ _ _ _ Hj) in H. unfold andThen in H.
    assert (Hfresh : ~ In (Name j) (map Name rest)).
    { rewrite map_app in Hnd. simpl in Hnd. apply NoDup_remove_2 in Hnd.
      intros Hin. apply Hnd. apply in_or_app. right.
      rewrite map_app. apply in_or_app. left. exact Hin. }
    pose proof (sent_notes _ (notesOf_notes ags j)) as Hsn.
    destruct (unscheduleStep_cases ags j t s) as [[Hw E1]|[[Hw [Hs E1]]|[Hw [Hs E1]]]];
      rewrite E1 in H.
    + destruct (rangeJobs _ _ (t + length (notesOf ags j)) s) as [[ok2 ev2] s2] eqn:E2.
      inversion H; subst; clear H.
      replace (S (length done)) with (length (done ++ [j])) in E2
        by (rewrite length_app; simpl; lia).
      apply IH with (post := post) in E2;
        [|rewrite <- app_assoc; exact Hjobs|rewrite <- app_assoc; exact Hnd].
      destruct E2 as [[Hn Hin] Hfull].
      rewrite sent_app, Hsn. simpl. split.
      * split; [exact Hn|].
        eapply Forall_impl; [|exact Hin]. simpl. intros x Hx. right. exact Hx.
      * intros Hok. destruct (Hfull Hok) as [Hjs [Hms [Hse Hfa]]].
        unfold settle at 1, tasksOf at 1. rewrite Hw. simpl.
        rewrite failures_app, failures_notesOf, Hfa, Hjs, <- app_assoc.
        repeat split; auto.
    + inversion H; subst; clear H. rewrite sent_app, Hsn. simpl.
      split; [split; constructor|discriminate].
    + set (R := recv (unscheduleTask ags j) (eng s)) in *.
      set (s1 := mkState (unschedule (Name j) (clust s)) (snd R)) in *.
      destruct (rangeJobs _ _ _ s1) as [[ok2 ev2] s2] eqn:E2.
      inversion H; subst ok evs s'; clear H.
      assert (Hs1 : jobs (clust s1) = (done ++ [setTargetMachineID "" j]) ++ rest ++ post).
      { unfold s1, unschedule. simpl. rewrite Hjobs. simpl.
        rewrite map_retarget_at by exact Hnd. rewrite <- app_assoc. reflexivity. }
      replace (S (length done)) with (length (done ++ [setTargetMachineID "" j])) in E2
        by (rewrite length_app; simpl; lia).
      apply IH with (post := post) in E2; [|exact Hs1|].
      2:{ rewrite <- app_assoc. simpl.
          rewrite names_setTarget_at. exact Hnd. }
      destruct E2 as [[Hn Hin] Hfull].
      pose proof (sent_receiver _ (recv_events (unscheduleTask ags j) (eng s))) as HsR.
      pose proof (failures_receiver _ (recv_events (unscheduleTask ags j) (eng s))) as HfR.
      fold R in HsR, HfR.
      rewrite !sent_app, Hsn. simpl. rewrite HsR. simpl. split.
      * split.
        -- constructor; [|exact Hn]. intros Hx.
           rewrite Forall_forall in Hin. apply in_map_iff in Hx.
           destruct Hx as [x [Hx1 Hx2]]. apply Hin in Hx2.
           rewrite Hx1 in Hx2. simpl in Hx2. contradiction.
        -- constructor; [left; reflexivity|].
           eapply Forall_impl; [|exact Hin]. simpl. intros x Hx. right. exact Hx.
      * intros Hok. destruct (Hfull Hok) as [Hjs [Hms [Hse Hfa]]].
        unfold settle at 1, tasksOf at 1. rewrite Hw. simpl.
        rewrite !failures_app, failures_notesOf. simpl.
        fold (failures (fst R)). rewrite HfR, Hfa, Hjs, <- app_assoc. simpl.
        repeat split; auto.
        -- rewrite Hse. reflexivity.
        -- rewrite app_nil_r. reflexivity.
Qed.

Lemma Forall2_same {A : Type} (P : A -> A -> Prop) (l : list A) :
  (forall a, P a a) -> Forall2 P l l.
Proof. intros H. induction l; constructor; auto. Qed.

(** The schedule loop over the jobs [rest]. *)
Lemma schedule_range : forall rest done post t s ok evs s',
  jobs (clust s) = done ++ rest ++ post ->
  NoDup (map Name (done ++ rest ++ post)) ->
  rangeJobs (scheduleStep recv) (seq (length done) (length rest)) t s
    = (ok, evs, s') ->
  machines (clust s') = machines (clust s) /\
  NoDup (map JobName (sent evs)) /\
  Forall (fun x => exists j m,
            In j rest /\ wantsSchedule j = true /\ x = attemptTask j m)
         (sent evs) /\
  Forall (fun e => e = ReportEngineReconcileFailure ScheduleFailure) (failures evs) /\
  exists rest',
    jobs (clust s') = done ++ rest' ++ post /\
    Forall2 (fun j j' =>
               j' = j \/
               (wantsSchedule j = true /\ exists m, j' = setTargetMachineID m j))
            rest rest'.
Proof.
  induction rest as [|j rest IH]; intros done post t s ok evs s' Hjobs Hnd H.
  - simpl in H. inversion H; subst. simpl.
    repeat split; try constructor. exists []. split; [exact Hjobs|constructor].
  - simpl length in H. simpl seq in H.
    assert (Hj : nth_error (jobs (clust s)) (length done) = Some j).
    { rewrite Hjobs. simpl. apply nth_error_middle. }
    rewrite (rangeJobs_cons _ _ _ _ _ _ Hj) in H. unfold andThen in H.
    assert (Hfresh : ~ In (Name j) (map Name rest)).
    { rewrite map_app in Hnd. simpl in Hnd. apply NoDup_remove_2 in Hnd.
      intros Hin. apply Hnd. apply in_or_app. right.
      rewrite map_app. apply in_or_app. left. exact Hin. }
    assert (Hlift : forall l,
      Forall (fun x => exists j0 m,
                In j0 rest /\ wantsSchedule j0 = true /\ x = attemptTask j0 m) l ->
      Forall (fun x => exists j0 m,
                In j0 (j :: rest) /\ wantsSchedule j0 = true /\ x = attemptTask j0 m) l).
    { intros l Hl. eapply Forall_impl; [|exact Hl]. simpl.
      intros x [j0 [m [H1 [H2 H3]]]]. exists j0, m. auto. }
    assert (Hkeep : forall t0 s0 ok2 ev2 s2,
      jobs (clust s0) = done ++ (j :: rest) ++ post ->
      rangeJobs (scheduleStep recv) (seq (S (length done)) (length rest)) t0 s0
        = (ok2, ev2, s2) ->
      machines (clust s2) = machines (clust s0) /\
      NoDup (map JobName (sent ev2)) /\
      Forall (fun x => exists j0 m,
                In j0 (j :: rest) /\ wantsSchedule j0 = true /\ x = attemptTask j0 m)
             (sent ev2) /\
      Forall (fun e => e = ReportEngineReconcileFailure ScheduleFailure) (failures ev2) /\
      exists rest',
        jobs (clust s2) = done ++ rest' ++ post /\
        Forall2 (fun j0 j' =>
                   j' = j0 \/
                   (wantsSchedule j0 = true /\ exists m, j' = setTargetMachineID m j0))
                (j :: rest) rest').
    { intros t0 s0 ok2 ev2 s2 Hs0 E2.
      replace (S (length done)) with (length (done ++ [j])) in E2
        by (rewrite length_app; simpl; lia).
      apply IH with (post := post) in E2;
        [|rewrite <- app_assoc; exact Hs0|rewrite <- app_assoc; exact Hnd].
      destruct E2 as [Hms [Hn [Hin [Hfa [rest' [Hjs HF]]]]]].
      repeat split; auto.
      exists (j :: rest'). split.
      - rewrite Hjs, <- app_assoc. reflexivity.
      - constructor; [left; reflexivity|exact HF]. }
    destruct (scheduleStep_cases j t s)
      as [[Hw E1]|[[Hw [err [Hd E1]]]|[[Hw [dec [Hd [Hs E1]]]]|[Hw [dec [Hd [Hs E1]]]]]]];
      rewrite E1 in H.
    + destruct (rangeJobs _ _ _ s) as [[ok2 ev2] s2] eqn:E2.
      inversion H; subst; clear H.
      apply Hkeep in E2; [|exact Hjobs]. exact E2.
    + destruct (rangeJobs _ _ _ s) as [[ok2 ev2] s2] eqn:E2.
      inversion H; subst; clear H.
      apply Hkeep in E2; [|exact Hjobs].
      destruct E2 as [Hms [Hn [Hin [Hfa Hrest]]]].
      simpl. repeat split; auto.
    + inversion H; subst; clear H. simpl.
      repeat split; try constructor; auto.
      exists (j :: rest). split; [exact Hjobs|].
      apply Forall2_same. intros a. left. reflexivity.
    + set (x := attemptTask j (machineID dec)) in *.
      set (R := recv x (eng s)) in *.
      set (s1 := mkState (schedule (Name j) (machineID dec) (clust s)) (snd R)) in *.
      destruct (rangeJobs _ _ _ s1) as [[ok2 ev2] s2] eqn:E2.
      inversion H; subst ok evs s'; clear H.
      assert (Hs1 : jobs (clust s1) =
                    (done ++ [setTargetMachineID (machineID dec) j]) ++ rest ++ post).
      { unfold s1, schedule. simpl. rewrite Hjobs. simpl.
        rewrite map_retarget_at by exact Hnd. rewrite <- app_assoc. reflexivity. }
      replace (S (length done))
        with (length (done ++ [setTargetMachineID (machineID dec) j])) in E2
        by (rewrite length_app; simpl; lia).
      apply IH with (post := post) in E2; [|exact Hs1|].
      2:{ rewrite <- app_assoc. simpl. rewrite names_setTarget_at. exact Hnd. }
      destruct E2 as [Hms [Hn [Hin [Hfa [rest' [Hjs HF]]]]]].
      pose proof (sent_receiver _ (recv_events x (eng s))) as HsR.
      pose proof (failures_receiver _ (recv_events x (eng s))) as HfR.
      fold R in HsR, HfR.
      simpl. rewrite !sent_app, HsR. simpl.
      fold (failures (fst R ++ ev2)). rewrite failures_app, HfR. simpl.
      repeat split; auto.
      * constructor; [|exact Hn]. intros Hx.
        rewrite Forall_forall in Hin. apply in_map_iff in Hx.
        destruct Hx as [y [Hy1 Hy2]]. apply Hin in Hy2.
        destruct Hy2 as [j0 [m [Hj0 [_ Hy]]]]. subst y. simpl in Hy1.
        apply Hfresh. rewrite <- Hy1. apply in_map. exact Hj0.
      * constructor; [|apply Hlift; exact Hin].
        exists j, (machineID dec). simpl. auto.
      * exists (setTargetMachineID (machineID dec) j :: rest'). split.
        -- rewrite Hjs, <- app_assoc. reflexivity.
        -- constructor; [|exact HF]. right. split; [exact Hw|].
           exists (machineID dec). reflexivity.
Qed.

End Producer.

(** ** The phases and the goroutine *)

Lemma unschedulePhase_eq recv t s :
  unschedulePhase recv t s =
    rangeJobs (unscheduleStep recv (agents (clust s)))
              (seq 0 (length (jobs (clust s)))) t s.
Proof.
  unfold unschedulePhase, bind, getClust. simpl. rewrite Nat.add_0_r.
  destruct (rangeJobs _ _ t s) as [[ok evs] s']. reflexivity.
Qed.

Lemma schedulePhase_eq recv t s :
  schedulePhase recv t s =
    rangeJobs (scheduleStep recv) (seq 0 (length (jobs (clust s)))) t s.
Proof.
  unfold schedulePhase, bind, getClust. simpl. rewrite Nat.add_0_r.
  destruct (rangeJobs _ _ t s) as [[ok evs] s']. reflexivity.
Qed.

Lemma calculateClusterTasks_eq recv cs t e :
  calculateClusterTasks recv cs t e =
    let '(ok1, ev1, s1) := unschedulePhase recv t (mkState cs e) in
    if ok1 then
      let '(ok2, ev2, s2) := schedulePhase recv (t + length ev1) s1 in
      (ev1 ++ ev2 ++ [Close], s2)
    else (ev1 ++ [Close], s1).
Proof.
  unfold calculateClusterTasks, producer. unfold bind at 1.
  destruct (unschedulePhase recv t (mkState cs e)) as [[ok1 ev1] s1].
  destruct ok1.
  - unfold bind, emit.
    destruct (schedulePhase recv (t + length ev1) s1) as [[ok2 ev2] s2]. reflexivity.
  - reflexivity.
Qed.

Lemma unschedulePhase_trace recv t s ok evs s' :
  unschedulePhase recv t s = (ok, evs, s') -> producerTrace recv t evs ok.
Proof.
  rewrite unschedulePhase_eq. apply rangeJobs_trace.
  intros j t0 s0 ok0 evs0 s0'. apply unscheduleStep_trace.
Qed.

Lemma schedulePhase_trace recv t s ok evs s' :
  schedulePhase recv t s = (ok, evs, s') -> producerTrace recv t evs ok.
Proof.
  rewrite schedulePhase_eq. apply rangeJobs_trace.
  intros j t0 s0 ok0 evs0 s0'. apply scheduleStep_trace.
Qed.

Lemma calculateClusterTasks_trace recv cs t e :
  exists body ok,
    fst (calculateClusterTasks recv cs t e) = body ++ [Close] /\
    producerTrace recv t body ok.
Proof.
  rewrite calculateClusterTasks_eq.
  destruct (unschedulePhase recv t (mkState cs e)) as [[ok1 ev1] s1] eqn:E1.
  apply unschedulePhase_trace in E1. destruct ok1.
  - destruct (schedulePhase recv (t + length ev1) s1) as [[ok2 ev2] s2] eqn:E2.
    apply schedulePhase_trace in E2.
    exists (ev1 ++ ev2), ok2. simpl. rewrite app_assoc. split; [reflexivity|].
    apply producerTrace_app; assumption.
  - exists ev1, false. split; [reflexivity|exact E1].
Qed.

(** ** The receiver *)

Lemma doTask_events x e :
  Forall (fun ev => receiverEvent ev = true) (snd (fst (doTask x e))).
Proof.
  unfold doTask.
  destruct (Typ x =? taskTypeUnscheduleUnit).
  - destruct (unscheduleUnit e (JobName x) (MachineID x)) as [e' [err|]];
      simpl; repeat constructor.
  - destruct (Typ x =? taskTypeAttemptScheduleUnit).
    + destruct (attemptScheduleUnit e (JobName x) (MachineID x)) as [e' r].
      simpl. repeat constructor.
    + simpl. repeat constructor.
Qed.

Lemma receive_events x e :
  Forall (fun ev => receiverEvent ev = true) (fst (receive x e)).
Proof.
  unfold receive. pose proof (doTask_events x e) as H.
  destruct (doTask x e) as [[err evs] e']. simpl in H.
  destruct err as [er|]; simpl; [|exact H].
  apply Forall_app. split; [exact H|]. repeat constructor.
Qed.

(** ** Polls, hand-offs and the close in a trace *)

Lemma split_skip (Q : event -> bool) : forall R l pre z post,
  Forall (fun e => Q e = true) R ->
  Q z = false ->
  R ++ l = pre ++ z :: post ->
  exists pre', pre = R ++ pre' /\ l = pre' ++ z :: post.
Proof.
  induction R as [|a R IH]; intros l pre z post HR Hz H.
  - exists pre. split; [reflexivity|exact H].
  - inversion HR as [|a' R' Ha HR']; subst.
    destruct pre as [|b pre]; simpl in H; inversion H; subst.
    + rewrite Ha in Hz. discriminate.
    + destruct (IH _ _ _ _ HR' Hz H2) as [pre' [H3 H4]].
      exists pre'. split; [rewrite H3; reflexivity|exact H4].
Qed.

Lemma snoc_split {A : Type} (c z : A) : forall body pre post,
  body ++ [c] = pre ++ z :: post ->
  z <> c ->
  exists post', post = post' ++ [c] /\ body = pre ++ z :: post'.
Proof.
  intros body pre post H Hz.
  destruct (exists_last (l := z :: post)) as [l' [a Hl]]; [discriminate|].
  rewrite Hl in H. rewrite app_assoc in H. apply app_inj_tail in H.
  destruct H as [H1 H2]. subst a.
  destruct post as [|y post].
  - destruct l' as [|? [|? ?]]; simpl in Hl; inversion Hl; subst. contradiction.
  - destruct (exists_last (l := y :: post)) as [post' [a Ha]]; [discriminate|].
    rewrite Ha in Hl. rewrite app_comm_cons in Hl. apply app_inj_tail in Hl.
    destruct Hl as [Hl1 Hl2]. subst a. exists post'. split; [exact Ha|].
    rewrite H1, <- Hl1. reflexivity.
Qed.

Section Guards.

Variable recv : task -> E -> list event * E.
Hypothesis recv_events :
  forall x e, Forall (fun ev => receiverEvent ev = true) (fst (recv x e)).

Lemma producerTrace_send t evs ok :
  producerTrace recv t evs ok ->
  forall pre x post,
    evs = pre ++ Send x :: post ->
    exists pre', pre = pre' ++ [Poll false] /\ stopchan (t + length pre') = false.
Proof.
  induction 1 as [t|t e evs ok He HA IH|t x0 e0 evs ok Hs HA IH|t tail Hs Ht];
    intros pre x post Heq.
  - destruct pre; discriminate.
  - destruct pre as [|b pre]; simpl in Heq; inversion Heq; subst.
    + discriminate.
    + destruct (IH _ _ _ eq_refl) as [pre' [H1 H2]]. subst pre.
      exists (b :: pre'). split; [reflexivity|].
      simpl. rewrite <- Nat.add_succ_comm. exact H2.
  - destruct pre as [|b pre]; simpl in Heq; inversion Heq; subst.
    destruct pre as [|b2 pre]; simpl in H1; inversion H1; subst.
    + exists []. split; [reflexivity|]. simpl. rewrite Nat.add_0_r. exact Hs.
    + destruct (split_skip receiverEvent _ _ _ (Send x) _ (recv_events x0 e0) eq_refl H2)
        as [pre3 [H3 H4]].
      destruct (IH _ _ _ H4) as [pre' [H5 H6]]. subst.
      exists (Poll false :: Send x0 :: fst (recv x0 e0) ++ pre'). split.
      * simpl. rewrite <- app_assoc. reflexivity.
      * simpl. rewrite length_app.
        replace (t + S (S (length (fst (recv x0 e0)) + length pre')))
          with (t + 2 + length (fst (recv x0 e0)) + length pre') by lia.
        exact H6.
  - destruct pre as [|b pre]; simpl in Heq; inversion Heq; subst.
    destruct Ht as [Ht|Ht]; subst.
    + destruct pre; discriminate.
    + destruct pre as [|? [|? ?]]; discriminate.
Qed.

Lemma producerTrace_poll t evs ok :
  producerTrace recv t evs ok ->
  forall pre b post,
    evs = pre ++ Poll b :: post ->
    stopchan (t + length pre) = b /\
    (b = true ->
     post = [] \/ post = [ReportEngineReconcileFailure ScheduleFailure]).
Proof.
  induction 1 as [t|t e evs ok He HA IH|t x0 e0 evs ok Hs HA IH|t tail Hs Ht];
    intros pre b post Heq.
  - destruct pre; discriminate.
  - destruct pre as [|c pre]; simpl in Heq; inversion Heq; subst.
    + discriminate.
    + destruct (IH _ _ _ eq_refl) as [H1 H2].
      simpl. rewrite <- Nat.add_succ_comm. split; assumption.
  - destruct pre as [|c pre]; simpl in Heq; inversion Heq; subst.
    + simpl. rewrite Nat.add_0_r. split; [exact Hs|discriminate].
    + destruct pre as [|c2 pre]; simpl in H1; inversion H1; subst.
      destruct (split_skip receiverEvent _ _ _ (Poll b) _ (recv_events x0 e0) eq_refl H2)
        as [pre3 [H3 H4]].
      destruct (IH _ _ _ H4) as [H5 H6]. rewrite H3. split; [|exact H6].
      simpl. rewrite length_app.
      replace (t + S (S (length (fst (recv x0 e0)) + length pre3)))
        with (t + 2 + length (fst (recv x0 e0)) + length pre3) by lia.
      exact H5.
  - destruct pre as [|c pre]; simpl in Heq; inversion Heq; subst.
    + simpl. rewrite Nat.add_0_r. split; [exact Hs|]. intros _. exact Ht.
    + destruct Ht as [Ht|Ht]; subst.
      * destruct pre; discriminate.
      * destruct pre as [|? [|? ?]]; discriminate.
Qed.

Lemma producerTrace_open t evs ok :
  producerTrace recv t evs ok -> ~ In Close evs.
Proof.
  induction 1 as [t|t e evs ok He HA IH|t x0 e0 evs ok Hs HA IH|t tail Hs Ht];
    intros Hin.
  - destruct Hin.
  - destruct Hin as [Hin|Hin]; [subst; discriminate|auto].
  - destruct Hin as [Hin|[Hin|Hin]]; try discriminate.
    apply in_app_or in Hin. destruct Hin as [Hin|Hin]; [|auto].
    pose proof (recv_events x0 e0) as HR. rewrite Forall_forall in HR.
    apply HR in Hin. discriminate.
  - destruct Hin as [Hin|Hin]; [discriminate|].
    destruct Ht as [Ht|Ht]; subst; [destruct Hin|].
    destruct Hin as [Hin|[]]. discriminate.
Qed.

End Guards.

(** ** The phases on a well-formed snapshot *)

Lemma names_settle ags l : map Name (map (settle ags) l) = map Name l.
Proof.
  rewrite map_map. apply map_ext. intros j. unfold settle.
  destruct (willUnschedule ags j); reflexivity.
Qed.

Lemma unschedulePhase_spec cs t e ok1 ev1 s1 :
  NoDup (map Name (jobs cs)) ->
  unschedulePhase receive t (mkState cs e) = (ok1, ev1, s1) ->
  (NoDup (map JobName (sent ev1)) /\
   Forall (fun x => In (JobName x) (map Name (jobs cs))) (sent ev1)) /\
  (ok1 = true ->
   jobs (clust s1) = map (settle (agents cs)) (jobs cs) /\
   machines (clust s1) = machines cs /\
   sent ev1 = flat_map (tasksOf (agents cs)) (jobs cs) /\
   failures ev1 = flat_map (notesOf (agents cs)) (jobs cs)).
Proof.
  intros Hnd H. rewrite unschedulePhase_eq in H. simpl in H.
  pose proof (unschedule_range receive receive_events (agents cs)
                (jobs cs) [] [] t (mkState cs e) ok1 ev1 s1) as P.
  simpl in P. rewrite !app_nil_r in P.
  specialize (P eq_refl Hnd H). exact P.
Qed.

Lemma schedulePhase_spec s t ok evs s' :
  NoDup (map Name (jobs (clust s))) ->
  schedulePhase receive t s = (ok, evs, s') ->
  machines (clust s') = machines (clust s) /\
  NoDup (map JobName (sent evs)) /\
  Forall (fun x => exists j m,
            In j (jobs (clust s)) /\ wantsSchedule j = true /\ x = attemptTask j m)
         (sent evs) /\
  Forall (fun e => e = ReportEngineReconcileFailure ScheduleFailure) (failures evs) /\
  Forall2 (fun j j' =>
             j' = j \/
             (wantsSchedule j = true /\ exists m, j' = setTargetMachineID m j))
          (jobs (clust s)) (jobs (clust s')).
Proof.
  intros Hnd H. rewrite schedulePhase_eq in H.
  pose proof (schedule_range receive receive_events
                (jobs (clust s)) [] [] t s ok evs s') as P.
  simpl in P. rewrite !app_nil_r in P.
  specialize (P eq_refl Hnd H).
  destruct P as [P1 [P2 [P3 [P4 [rest' [P5 P6]]]]]].
  rewrite app_nil_r in P5. rewrite P5. auto.
Qed.

Lemma unstopped_pass cs t e :
  (forall k, stopchan k = false) ->
  exists ev1 s1 ev2 s2,
    unschedulePhase receive t (mkState cs e) = (true, ev1, s1) /\
    schedulePhase receive (t + length ev1) s1 = (true, ev2, s2) /\
    calculateClusterTasks receive cs t e = (ev1 ++ ev2 ++ [Close], s2).
Proof.
  intros Hs. rewrite calculateClusterTasks_eq.
  destruct (unschedulePhase receive t (mkState cs e)) as [[ok1 ev1] s1] eqn:E1.
  pose proof (producerTrace_unstopped _ _ _ _ Hs (unschedulePhase_trace _ _ _ _ _ _ E1)).
  subst ok1.
  destruct (schedulePhase receive (t + length ev1) s1) as [[ok2 ev2] s2] eqn:E2.
  pose proof (producerTrace_unstopped _ _ _ _ Hs (schedulePhase_trace _ _ _ _ _ _ E2)).
  subst ok2. exists ev1, s1, ev2, s2. auto.
Qed.

(** ** Counting tasks and reports *)

Lemma filter_none {A : Type} (f : A -> bool) (l : list A) :
  (forall x, In x l -> f x = false) -> filter f l = [].
Proof.
  induction l as [|a l IH]; intros H; simpl; [reflexivity|].
  rewrite (H a) by (left; reflexivity). apply IH. intros x Hx. apply H. right. exact Hx.
Qed.


Lemma attempt_not_unschedule x :
  Typ x = taskTypeUnscheduleUnit -> forall u, isAttemptOf u x = false.
Proof. intros H u. unfold isAttemptOf. rewrite H. reflexivity. Qed.

Lemma filter_tasksOf_other ags n l :
  ~ In n (map Name l) ->
  filter (isUnscheduleOf n) (flat_map (tasksOf ags) l) = [].
Proof.
  intros H. apply filter_none. intros x Hx.
  apply in_flat_map in Hx. destruct Hx as [j [Hj Hx]].
  unfold tasksOf in Hx. destruct (willUnschedule ags j); [|destruct Hx].
  destruct Hx as [Hx|[]]. subst x. unfold isUnscheduleOf, unscheduleTask. simpl.
  destruct (String.eqb_spec (Name j) n) as [Hn|Hn]; [|reflexivity].
  exfalso. apply H. rewrite <- Hn. apply in_map. exact Hj.
Qed.

Lemma filter_tasksOf_at ags pre j post :
  NoDup (map Name (pre ++ j :: post)) ->
  willUnschedule ags j = true ->
  filter (isUnscheduleOf (Name j)) (flat_map (tasksOf ags) (pre ++ j :: post))
    = [unscheduleTask ags j].
Proof.
  intros Hnd Hw. rewrite map_app in Hnd. simpl in Hnd.
  pose proof (NoDup_remove_2 _ _ _ Hnd) as Hn.
  rewrite flat_map_app, filter_app. simpl. rewrite filter_app.
  rewrite !filter_tasksOf_other.
  - unfold tasksOf. rewrite Hw. simpl.
    unfold isUnscheduleOf, unscheduleTask. simpl. rewrite String.eqb_refl. reflexivity.
  - intros Hin. apply Hn. apply in_or_app. right. exact Hin.
  - intros Hin. apply Hn. apply in_or_app. left. exact Hin.
Qed.


Lemma isFailure_failures f evs :
  filter (isFailure f) evs = filter (isFailure f) (failures evs).
Proof.
  induction evs as [|e evs IH]; simpl; [reflexivity|].
  destruct e; simpl; try exact IH.
  destruct (isFailure f (ReportEngineReconcileFailure f0)); rewrite IH; reflexivity.
Qed.

Lemma count_away ags l :
  length (filter (isFailure MachineAway) (flat_map (notesOf ags) l))
    = length (filter (awayJob ags) l).
Proof.
  induction l as [|j l IH]; simpl; [reflexivity|].
  rewrite filter_app, length_app, IH. f_equal.
  unfold notesOf, awayJob, decide.
  destruct (Scheduled j); simpl; [|reflexivity].
  destruct (TargetState j =? JobStateInactive); simpl; [reflexivity|].
  destruct (lookupAgent (TargetMachineID j) ags) as [a|]; [|reflexivity].
  destruct (AbleToRun a j) as [able r]. destruct able; simpl; [reflexivity|].
  destruct (r =? JobReschedule); reflexivity.
Qed.

Lemma count_runFail ags l :
  length (filter (isFailure RunFailure) (flat_map (notesOf ags) l))
    = length (filter (runFailJob ags) l).
Proof.
  induction l as [|j l IH]; simpl; [reflexivity|].
  rewrite filter_app, length_app, IH. f_equal.
  unfold notesOf, runFailJob, decide.
  destruct (Scheduled j); simpl; [|reflexivity].
  destruct (TargetState j =? JobStateInactive); simpl; [reflexivity|].
  destruct (lookupAgent (TargetMachineID j) ags) as [a|]; [|reflexivity].
  destruct (AbleToRun a j) as [able r]. destruct able; simpl; [reflexivity|].
  destruct (r =? JobReschedule); reflexivity.
Qed.

Lemma Forall2_nth_error {A B : Type} (P : A -> B -> Prop) : forall l l' i a,
  Forall2 P l l' ->
  nth_error l i = Some a ->
  exists b, nth_error l' i = Some b /\ P a b.
Proof.
  intros l l' i a H. revert i. induction H as [|x y l l' Hxy H IH]; intros i Hi.
  - destruct i; discriminate.
  - destruct i as [|i]; simpl in *.
    + inversion Hi; subst. exists y. auto.
    + apply IH. exact Hi.
Qed.

(** ** The verdicts of [decide] *)

Lemma decide_inactive ags j :
  TargetState j = JobStateInactive ->
  decide ags j = (true, "target state inactive", []).
Proof. intros H. unfold decide. rewrite H. reflexivity. Qed.

Lemma decide_away ags j :
  TargetState j <> JobStateInactive ->
  lookupAgent (TargetMachineID j) ags = None ->
  decide ags j =
    (true, ("target Machine(" ++ TargetMachineID j ++ ") went away")%string,
     [ReportEngineReconcileFailure MachineAway]).
Proof.
  intros H Ha. unfold decide. apply String.eqb_neq in H. rewrite H, Ha. reflexivity.
Qed.

Lemma decide_unable ags j a r :
  TargetState j <> JobStateInactive ->
  lookupAgent (TargetMachineID j) ags = Some a ->
  AbleToRun a j = (false, r) ->
  decide ags j =
    if r =? JobReschedule then (true, r, [])
    else (true, ("target Machine(" ++ TargetMachineID j ++ ") unable to run unit")%string,
          [ReportEngineReconcileFailure RunFailure]).
Proof.
  intros H Ha Hr. unfold decide. apply String.eqb_neq in H. rewrite H, Ha, Hr.
  simpl. destruct (r =? JobReschedule); reflexivity.
Qed.

(** ** A pass that is not stopped *)

Lemma unstopped_unscheduled cs t e i j :
  NoDup (map Name (jobs cs)) ->
  nth_error (jobs cs) i = Some j ->
  willUnschedule (agents cs) j = true ->
  (forall k, stopchan k = false) ->
  filter (isUnscheduleOf (Name j)) (sent (fst (calculateClusterTasks receive cs t e)))
    = [unscheduleTask (agents cs) j] /\
  nth_error (jobs (clust (snd (unschedulePhase receive t (mkState cs e))))) i
    = Some (setTargetMachineID "" j).
Proof.
  intros Hnd Hi Hw Hs.
  destruct (unstopped_pass cs t e Hs) as [ev1 [s1 [ev2 [s2 [E1 [E2 Ec]]]]]].
  rewrite Ec, E1. simpl.
  destruct (unschedulePhase_spec _ _ _ _ _ _ Hnd E1) as [_ P].
  destruct (P eq_refl) as [Hjs [Hms [Hse Hfa]]].
  assert (Hnd1 : NoDup (map Name (jobs (clust s1)))).
  { rewrite Hjs, names_settle. exact Hnd. }
  destruct (schedulePhase_spec _ _ _ _ _ Hnd1 E2) as [_ [_ [Hat _]]].
  split.
  - rewrite !sent_app, !filter_app. simpl. rewrite app_nil_r.
    rewrite (filter_none _ (sent ev2)).
    + rewrite app_nil_r, Hse.
      destruct (nth_error_split _ _ Hi) as [pre [post [Hl _]]].
      rewrite Hl in *. apply filter_tasksOf_at; assumption.
    + intros x Hx. rewrite Forall_forall in Hat.
      destruct (Hat x Hx) as [j0 [m [_ [_ Hx0]]]]. subst x. reflexivity.
  - rewrite Hjs, nth_error_map, Hi. simpl. unfold settle. rewrite Hw. reflexivity.
Qed.

Lemma unstopped_failures cs t e f :
  NoDup (map Name (jobs cs)) ->
  (forall k, stopchan k = false) ->
  f <> ScheduleFailure ->
  countFailure f (fst (calculateClusterTasks receive cs t e))
    = length (filter (isFailure f) (flat_map (notesOf (agents cs)) (jobs cs))).
Proof.
  intros Hnd Hs Hf.
  destruct (unstopped_pass cs t e Hs) as [ev1 [s1 [ev2 [s2 [E1 [E2 Ec]]]]]].
  rewrite Ec. simpl.
  destruct (unschedulePhase_spec _ _ _ _ _ _ Hnd E1) as [_ P].
  destruct (P eq_refl) as [Hjs [Hms [Hse Hfa]]].
  assert (Hnd1 : NoDup (map Name (jobs (clust s1)))).
  { rewrite Hjs, names_settle. exact Hnd. }
  destruct (schedulePhase_spec _ _ _ _ _ Hnd1 E2) as [_ [_ [_ [Hsf _]]]].
  unfold countFailure. rewrite !filter_app. simpl. rewrite app_nil_r.
  rewrite (isFailure_failures f ev2), (filter_none _ (failures ev2)).
  - rewrite app_nil_r, isFailure_failures, Hfa. reflexivity.
  - intros x Hx. rewrite Forall_forall in Hsf. rewrite (Hsf x Hx).
    destruct f; try reflexivity. contradiction.
Qed.

(** ** The job names of the snapshot do not change *)

Lemma names_schedule n m cs : map Name (jobs (schedule n m cs)) = map Name (jobs cs).
Proof. apply map_retarget_Name. Qed.

Lemma names_unschedule n cs : map Name (jobs (unschedule n cs)) = map Name (jobs cs).
Proof. apply map_retarget_Name. Qed.

Lemma unscheduleStep_names recv ags j t s :
  map Name (jobs (clust (snd (unscheduleStep recv ags j t s))))
    = map Name (jobs (clust s)).
Proof.
  destruct (willUnschedule ags j) eqn:Hw.
  - destruct (stopchan (t + length (notesOf ags j))) eqn:Hs.
    + rewrite unscheduleStep_stopped by assumption. reflexivity.
    + rewrite unscheduleStep_sent by assumption. apply names_unschedule.
  - rewrite unscheduleStep_skip by assumption. reflexivity.
Qed.

Lemma scheduleStep_names recv j t s :
  map Name (jobs (clust (snd (scheduleStep recv j t s))))
    = map Name (jobs (clust s)).
Proof.
  destruct (wantsSchedule j) eqn:Hw.
  - destruct (Decide (clust s) j) as [dec|err] eqn:Hd.
    + destruct (stopchan t) eqn:Hs.
      * rewrite (scheduleStep_stopped _ _ _ _ _ Hw Hd Hs). reflexivity.
      * rewrite (scheduleStep_sent _ _ _ _ _ Hw Hd Hs). apply names_schedule.
    + rewrite (scheduleStep_failed _ _ _ _ _ Hw Hd). reflexivity.
  - rewrite scheduleStep_skip by assumption. reflexivity.
Qed.

Lemma rangeJobs_names body :
  (forall j t s,
     map Name (jobs (clust (snd (body j t s)))) = map Name (jobs (clust s))) ->
  forall idx t s,
    map Name (jobs (clust (snd (rangeJobs body idx t s)))) = map Name (jobs (clust s)).
Proof.
  intros Hb. induction idx as [|i idx IH]; intros t s; [reflexivity|].
  destruct (nth_error (jobs (clust s)) i) as [j|] eqn:Hj.
  - rewrite (rangeJobs_cons _ _ _ _ _ _ Hj). unfold andThen.
    pose proof (Hb j t s) as H1.
    destruct (body j t s) as [[ok ev1] s1]. simpl in H1. destruct ok.
    + pose proof (IH (t + length ev1) s1) as H2.
      destruct (rangeJobs body idx (t + length ev1) s1) as [[ok2 ev2] s2].
      simpl in *. rewrite H2. exact H1.
    + exact H1.
  - rewrite (rangeJobs_cons_none _ _ _ _ _ Hj). apply IH.
Qed.

Lemma seq_at i n : i < n -> seq 0 n = seq 0 i ++ i :: seq (S i) (n - S i).
Proof.
  intros H. replace n with (i + S (n - S i)) at 1 by lia.
  rewrite seq_app. reflexivity.
Qed.

(** The schedule phase seen from the visit of position [i]. *)
Lemma schedulePhase_at s1 t1 i evi si j :
  rangeJobs (scheduleStep receive) (seq 0 i) t1 s1 = (true, evi, si) ->
  nth_error (jobs (clust si)) i = Some j ->
  schedulePhase receive t1 s1 =
    andThen (andThen (true, evi, si) (scheduleStep receive j) t1)
            (rangeJobs (scheduleStep receive)
                       (seq (S i) (length (jobs (clust s1)) - S i))) t1.
Proof.
  intros Ei Hj.
  assert (Hlt : i < length (jobs (clust s1))).
  { pose proof (rangeJobs_names _ (scheduleStep_names receive) (seq 0 i) t1 s1) as Hn.
    rewrite Ei in Hn. simpl in Hn.
    apply (f_equal (@length string)) in Hn. rewrite !length_map in Hn.
    rewrite <- Hn. apply nth_error_Some. rewrite Hj. discriminate. }
  rewrite schedulePhase_eq, (seq_at _ _ Hlt), rangeJobs_app, Ei.
  unfold andThen. rewrite (rangeJobs_cons _ _ _ _ _ _ Hj). unfold andThen.
  destruct (scheduleStep receive j (t1 + length evi) si) as [[okj evj] sj].
  destruct okj; [|reflexivity].
  rewrite length_app, Nat.add_assoc.
  destruct (rangeJobs _ _ (t1 + length evi + length evj) sj) as [[okr evr] sr].
  rewrite app_assoc. reflexivity.
Qed.

(** The state of the snapshot at the visit of position [i]: the job
    there is the one the unschedule phase left, and the jobs around it
    are the ones the earlier visits left. *)
Lemma schedule_visit s1 t1 i evi si j :
  NoDup (map Name (jobs (clust s1))) ->
  rangeJobs (scheduleStep receive) (seq 0 i) t1 s1 = (true, evi, si) ->
  nth_error (jobs (clust si)) i = Some j ->
  exists before after,
    jobs (clust si) = before ++ j :: after /\
    length before = i /\
    nth_error (jobs (clust s1)) i = Some j /\
    length after = length (jobs (clust s1)) - S i /\
    NoDup (map Name (before ++ j :: after)) /\
    Forall (fun x => In (JobName x) (map Name before)) (sent evi).
Proof.
  intros Hnd Ei Hj.
  assert (Hlen : length (jobs (clust si)) = length (jobs (clust s1))).
  { pose proof (rangeJobs_names _ (scheduleStep_names receive) (seq 0 i) t1 s1) as Hn.
    rewrite Ei in Hn. simpl in Hn.
    apply (f_equal (@length string)) in Hn. rewrite !length_map in Hn. exact Hn. }
  assert (Hlt : i < length (jobs (clust s1))).
  { rewrite <- Hlen. apply nth_error_Some. rewrite Hj. discriminate. }
  pose proof (firstn_skipn i (jobs (clust s1))) as Hsplit.
  assert (Hfl : length (firstn i (jobs (clust s1))) = i).
  { rewrite length_firstn. lia. }
  pose proof (schedule_range receive receive_events
                (firstn i (jobs (clust s1))) [] (skipn i (jobs (clust s1)))
                t1 s1 true evi si) as P.
  simpl in P. rewrite Hfl, Hsplit in P. specialize (P eq_refl Hnd Ei).
  destruct P as [_ [_ [Hat [_ [before [Hjs HF]]]]]].
  assert (Hbl : length before = i).
  { apply Forall2_length in HF. lia. }
  assert (Hnames : map Name before = map Name (firstn i (jobs (clust s1)))).
  { clear - HF. induction HF as [|a b l l' Hab HF IH]; [reflexivity|].
    simpl. rewrite IH. f_equal.
    destruct Hab as [Hab|[_ [m Hab]]]; subst; reflexivity. }
  rewrite Hjs in Hj. rewrite nth_error_app2 in Hj by lia.
  rewrite Hbl, Nat.sub_diag in Hj.
  destruct (skipn i (jobs (clust s1))) as [|j0 after] eqn:Hsk; [discriminate|].
  simpl in Hj. inversion Hj; subst j0.
  exists before, after. repeat split; auto.
  - rewrite <- Hsplit. rewrite nth_error_app2 by lia.
    rewrite Hfl, Nat.sub_diag. reflexivity.
  - apply (f_equal (@length Job)) in Hsplit. rewrite length_app in Hsplit.
    simpl in Hsplit. lia.
  - rewrite map_app, Hnames, <- map_app, Hsplit. exact Hnd.
  - rewrite Hnames. eapply Forall_impl; [|exact Hat]. simpl.
    intros x [j0 [m [Hin [_ Hx]]]]. subst x. simpl. apply in_map. exact Hin.
Qed.

Lemma unstopped_kept cs t e i j :
  NoDup (map Name (jobs cs)) ->
  (forall k, stopchan k = false) ->
  nth_error (jobs (clust (snd (unschedulePhase receive t (mkState cs e))))) i = Some j ->
  wantsSchedule j = false ->
  nth_error (jobs (clust (snd (calculateClusterTasks receive cs t e)))) i = Some j.
Proof.
  intros Hnd Hs Hi Hw.
  destruct (unstopped_pass cs t e Hs) as [ev1 [s1 [ev2 [s2 [E1 [E2 Ec]]]]]].
  rewrite Ec. rewrite E1 in Hi. simpl in *.
  destruct (unschedulePhase_spec _ _ _ _ _ _ Hnd E1) as [_ P].
  destruct (P eq_refl) as [Hjs _].
  assert (Hnd1 : NoDup (map Name (jobs (clust s1)))).
  { rewrite Hjs, names_settle. exact Hnd. }
  destruct (schedulePhase_spec _ _ _ _ _ Hnd1 E2) as [_ [_ [_ [_ HF]]]].
  destruct (Forall2_nth_error _ _ _ _ _ HF Hi) as [b [Hb [Hb'|[Hb' _]]]].
  - subst b. exact Hb.
  - rewrite Hw in Hb'. discriminate.
Qed.

Lemma filter_some {A : Type} (f : A -> bool) (l : list A) (a : A) :
  In a l -> f a = true -> 1 <= length (filter f l).
Proof.
  intros Hin Hf. assert (H : In a (filter f l)) by (apply filter_In; auto).
  destruct (filter f l); [destruct H|simpl; lia].
Qed.

Lemma filter_pick {A : Type} (f : A -> bool) (l : list A) :
  1 <= length (filter f l) -> exists a, In a l /\ f a = true.
Proof.
  intros H. destruct (filter f l) as [|a l'] eqn:Hf; [simpl in H; lia|].
  exists a. apply filter_In. rewrite Hf. left. reflexivity.
Qed.

Lemma tasksOf_unschedule ags l x :
  In x (flat_map (tasksOf ags) l) -> Typ x = taskTypeUnscheduleUnit.
Proof.
  intros Hx. apply in_flat_map in Hx. destruct Hx as [j [_ Hx]].
  unfold tasksOf in Hx. destruct (willUnschedule ags j); [|destruct Hx].
  destruct Hx as [Hx|[]]. subst x. reflexivity.
Qed.

(** The pass seen from the visit of position [i] by the schedule loop. *)
Lemma pass_at cs t e i ev1 s1 evi si j :
  NoDup (map Name (jobs cs)) ->
  unschedulePhase receive t (mkState cs e) = (true, ev1, s1) ->
  rangeJobs (scheduleStep receive) (seq 0 i) (t + length ev1) s1 = (true, evi, si) ->
  nth_error (jobs (clust si)) i = Some j ->
  calculateClusterTasks receive cs t e =
    (let '(okj, evj, sj) :=
       scheduleStep receive j (t + length ev1 + length evi) si in
     if okj then
       let '(okr, evr, sr) :=
         rangeJobs (scheduleStep receive) (seq (S i) (length (jobs cs) - S i))
                   (t + length ev1 + length evi + length evj) sj in
       (ev1 ++ evi ++ evj ++ evr ++ [Close], sr)
     else (ev1 ++ evi ++ evj ++ [Close], sj)).
Proof.
  intros Hnd E1 Ei Hj.
  destruct (unschedulePhase_spec _ _ _ _ _ _ Hnd E1) as [_ P].
  destruct (P eq_refl) as [Hjs _].
  rewrite calculateClusterTasks_eq, E1.
  rewrite (schedulePhase_at _ _ _ _ _ _ Ei Hj). unfold andThen.
  rewrite Hjs, length_map.
  destruct (scheduleStep receive j (t + length ev1 + length evi) si) as [[okj evj] sj].
  destruct okj.
  - rewrite length_app, Nat.add_assoc.
    destruct (rangeJobs _ _ (t + length ev1 + length evi + length evj) sj)
      as [[okr evr] sr].
    rewrite <- !app_assoc. reflexivity.
  - rewrite <- !app_assoc. reflexivity.
Qed.

(** The visits after position [i] leave the job there as it is, and send
    tasks for the jobs after it only. *)
Lemma schedule_rest before j' after t sj okr evr sr :
  jobs (clust sj) = before ++ j' :: after ->
  NoDup (map Name (before ++ j' :: after)) ->
  rangeJobs (scheduleStep receive) (seq (S (length before)) (length after)) t sj
    = (okr, evr, sr) ->
  nth_error (jobs (clust sr)) (length before) = Some j' /\
  Forall (fun x => In (JobName x) (map Name after)) (sent evr).
Proof.
  intros Hjs Hnd Er.
  pose proof (schedule_range receive receive_events after (before ++ [j']) []
                t sj okr evr sr) as P.
  rewrite length_app in P. simpl in P.
  replace (length before + 1) with (S (length before)) in P by lia.
  rewrite app_nil_r, <- app_assoc in P. simpl in P.
  specialize (P Hjs Hnd Er).
  destruct P as [_ [_ [Hat [_ [rest' [Hr _]]]]]].
  split.
  - rewrite Hr, <- app_assoc. simpl. apply nth_error_middle.
  - eapply Forall_impl; [|exact Hat]. simpl.
    intros x [j0 [m [Hin [_ Hx]]]]. subst x. simpl. apply in_map. exact Hin.
Qed.

Lemma filter_attempt_other n l names :
  Forall (fun x => In (JobName x) names) l ->
  ~ In n names ->
  filter (isAttemptOf n) l = [].
Proof.
  intros Hl Hn. apply filter_none. intros x Hx.
  rewrite Forall_forall in Hl. apply Hl in Hx.
  unfold isAttemptOf. destruct (String.eqb_spec (JobName x) n) as [Heq|Heq].
  - subst n. contradiction.
  - apply andb_false_r.
Qed.

(** ** The tasks of the two loops *)

Lemma rangeJobs_sent (P : task -> Prop) body :
  (forall j t s, Forall P (sent (snd (fst (body j t s))))) ->
  forall idx t s, Forall P (sent (snd (fst (rangeJobs body idx t s)))).
Proof.
  intros Hb. induction idx as [|i idx IH]; intros t s; [constructor|].
  destruct (nth_error (jobs (clust s)) i) as [j|] eqn:Hj.
  - rewrite (rangeJobs_cons _ _ _ _ _ _ Hj). unfold andThen.
    pose proof (Hb j t s) as H1.
    destruct (body j t s) as [[ok ev1] s1]. simpl in H1. destruct ok.
    + pose proof (IH (t + length ev1) s1) as H2.
      destruct (rangeJobs body idx (t + length ev1) s1) as [[ok2 ev2] s2].
      simpl in *. rewrite sent_app. apply Forall_app. auto.
    + exact H1.
  - rewrite (rangeJobs_cons_none _ _ _ _ _ Hj). apply IH.
Qed.

Lemma unscheduleStep_sends ags j t s :
  Forall (fun x => Typ x = taskTypeUnscheduleUnit)
         (sent (snd (fst (unscheduleStep receive ags j t s)))).
Proof.
  pose proof (sent_notes _ (notesOf_notes ags j)) as Hn.
  destruct (unscheduleStep_cases receive ags j t s) as [[_ E1]|[[_ [_ E1]]|[_ [_ E1]]]];
    rewrite E1; simpl; rewrite ?sent_app, Hn; simpl.
  - constructor.
  - constructor.
  - rewrite (sent_receiver _ (receive_events _ _)). repeat constructor.
Qed.

Lemma scheduleStep_sends j t s :
  Forall (fun x => Typ x = taskTypeAttemptScheduleUnit)
         (sent (snd (fst (scheduleStep receive j t s)))).
Proof.
  destruct (scheduleStep_cases receive j t s)
    as [[_ E1]|[[_ [err [_ E1]]]|[[_ [dec [_ [_ E1]]]]|[_ [dec [_ [_ E1]]]]]]];
    rewrite E1; simpl; try constructor.
  - reflexivity.
  - rewrite (sent_receiver _ (receive_events _ _)). constructor.
Qed.

Lemma unschedulePhase_sends t s :
  Forall (fun x => Typ x = taskTypeUnscheduleUnit)
         (sent (snd (fst (unschedulePhase receive t s)))).
Proof.
  rewrite unschedulePhase_eq. apply rangeJobs_sent. apply unscheduleStep_sends.
Qed.

Lemma schedulePhase_sends t s :
  Forall (fun x => Typ x = taskTypeAttemptScheduleUnit)
         (sent (snd (fst (schedulePhase receive t s)))).
Proof.
  rewrite schedulePhase_eq. apply rangeJobs_sent. apply scheduleStep_sends.
Qed.



(** ** The Registry writes of a pass *)

Lemma receive_shape x e :
  exists tail,
    fst (receive x e) = writesOf x ++ tail /\
    Forall (fun ev => negb (isWrite ev) = true) tail.
Proof.
  unfold receive, doTask, writesOf.
  destruct (Typ x =? taskTypeUnscheduleUnit).
  - destruct (unscheduleUnit e (JobName x) (MachineID x)) as [e' [err|]];
      simpl; eexists; (split; [reflexivity|repeat constructor]).
  - destruct (Typ x =? taskTypeAttemptScheduleUnit).
    + destruct (attemptScheduleUnit e (JobName x) (MachineID x)) as [e' r].
      simpl. eexists. split; [reflexivity|repeat constructor].
    + simpl. eexists. split; [reflexivity|repeat constructor].
Qed.

Lemma writesOf_cases x :
  writesOf x = [] \/ exists w, writesOf x = [w] /\ isWrite w = true.
Proof.
  unfold writesOf. destruct (Typ x =? taskTypeUnscheduleUnit).
  - right. eexists. split; reflexivity.
  - destruct (Typ x =? taskTypeAttemptScheduleUnit).
    + right. eexists. split; reflexivity.
    + left. reflexivity.
Qed.

Lemma filter_isWrite_tail tail :
  Forall (fun ev => negb (isWrite ev) = true) tail -> filter isWrite tail = [].
Proof.
  intros H. apply filter_none. intros x Hx. rewrite Forall_forall in H.
  apply H in Hx. apply negb_true_iff in Hx. exact Hx.
Qed.

Lemma producerTrace_writes t evs ok :
  producerTrace receive t evs ok ->
  filter isWrite evs = flat_map writesOf (sent evs).
Proof.
  induction 1 as [t|t e evs ok He HA IH|t x0 e0 evs ok Hs HA IH|t tail Hs Ht].
  - reflexivity.
  - destruct e; simpl in *; try discriminate; exact IH.
  - simpl. rewrite sent_app, (sent_receiver _ (receive_events x0 e0)). simpl.
    rewrite filter_app, IH. f_equal.
    destruct (receive_shape x0 e0) as [tail [Hr Ht]]. rewrite Hr, filter_app.
    rewrite (filter_isWrite_tail _ Ht), app_nil_r.
    destruct (writesOf_cases x0) as [Hw|[w [Hw Hw']]]; rewrite Hw; simpl;
      [reflexivity|rewrite Hw'; reflexivity].
  - destruct Ht as [Ht|Ht]; subst; reflexivity.
Qed.


(** ** The properties of a pass *)


(** C2: absent a stop signal, a pass sends exactly one UnscheduleUnit task
    for a job that is scheduled and whose target state is inactive; the
    task carries the job's name, its target machine and the reason
    "target state inactive", and the snapshot records the job as
    unscheduled, after the unschedule phase and at the end of the pass. *)
Theorem C2_inactive_job_unscheduled cs t e i j :
  NoDup (map Name (jobs cs)) ->
  nth_error (jobs cs) i = Some j ->
  Scheduled j = true ->
  TargetState j = JobStateInactive ->
  (forall k, stopchan k = false) ->
  filter (isUnscheduleOf (Name j)) (sent (fst (calculateClusterTasks receive cs t e)))
    = [mkTask taskTypeUnscheduleUnit "target state inactive"
              (Name j) (TargetMachineID j)] /\
  nth_error (jobs (clust (snd (unschedulePhase receive t (mkState cs e))))) i
    = Some (setTargetMachineID "" j) /\
  nth_error (jobs (clust (snd (calculateClusterTasks receive cs t e)))) i
    = Some (setTargetMachineID "" j).
Proof.
  intros Hnd Hi Hsch Hts Hs.
  assert (Hw : willUnschedule (agents cs) j = true).
  { unfold willUnschedule. rewrite Hsch, (decide_inactive _ _ Hts). reflexivity. }
  destruct (unstopped_unscheduled cs t e i j Hnd Hi Hw Hs) as [H1 H2].
  split; [|split].
  - rewrite H1. unfold unscheduleTask. rewrite (decide_inactive _ _ Hts). reflexivity.
  - exact H2.
  - apply unstopped_kept; try assumption.
    unfold wantsSchedule. simpl. rewrite Hts. reflexivity.
Qed.

(** C3: absent a stop signal, a pass sends exactly one UnscheduleUnit task
    for a job whose target state is not inactive and which is scheduled
    to a machine that is not in the agent map; the reason names the
    machine, and MachineAway is reported, once for each such job. *)
Theorem C3_machine_away cs t e i j :
  NoDup (map Name (jobs cs)) ->
  nth_error (jobs cs) i = Some j ->
  Scheduled j = true ->
  TargetState j <> JobStateInactive ->
  lookupAgent (TargetMachineID j) (agents cs) = None ->
  (forall k, stopchan k = false) ->
  filter (isUnscheduleOf (Name j)) (sent (fst (calculateClusterTasks receive cs t e)))
    = [mkTask taskTypeUnscheduleUnit
              ("target Machine(" ++ TargetMachineID j ++ ") went away")%string
              (Name j) (TargetMachineID j)] /\
  In (ReportEngineReconcileFailure MachineAway)
     (fst (calculateClusterTasks receive cs t e)) /\
  countFailure MachineAway (fst (calculateClusterTasks receive cs t e))
    = length (filter (awayJob (agents cs)) (jobs cs)).
Proof.
  intros Hnd Hi Hsch Hts Ha Hs.
  assert (Hw : willUnschedule (agents cs) j = true).
  { unfold willUnschedule. rewrite Hsch, (decide_away _ _ Hts Ha). reflexivity. }
  destruct (unstopped_unscheduled cs t e i j Hnd Hi Hw Hs) as [H1 _].
  assert (Hc : countFailure MachineAway (fst (calculateClusterTasks receive cs t e))
               = length (filter (awayJob (agents cs)) (jobs cs))).
  { rewrite unstopped_failures by (assumption || discriminate). apply count_away. }
  split; [|split].
  - rewrite H1. unfold unscheduleTask. rewrite (decide_away _ _ Hts Ha). reflexivity.
  - assert (Hge : 1 <= countFailure MachineAway (fst (calculateClusterTasks receive cs t e))).
    { rewrite Hc. apply filter_some with (a := j).
      - eapply nth_error_In. exact Hi.
      - unfold awayJob. rewrite Hsch, Ha. apply String.eqb_neq in Hts. rewrite Hts.
        reflexivity. }
    apply filter_pick in Hge. destruct Hge as [ev [Hin Hev]].
    destruct ev; try discriminate. destruct f; try discriminate. exact Hin.
  - exact Hc.
Qed.

(** C4, amended: absent a stop signal, a pass unschedules a scheduled job
    whose target state is not inactive, whose target agent is in the
    agent map and cannot run it: it sends exactly one UnscheduleUnit task
    for it and the snapshot records it as unscheduled after the unschedule
    phase.  The reason is the reschedule marker when the agent gave it,
    and else the generic one; RunFailure is reported once for each such
    job whose agent gave another reason than the marker, and not for the
    others. *)
Theorem C4_unable_to_run cs t e i j a r :
  NoDup (map Name (jobs cs)) ->
  nth_error (jobs cs) i = Some j ->
  Scheduled j = true ->
  TargetState j <> JobStateInactive ->
  lookupAgent (TargetMachineID j) (agents cs) = Some a ->
  AbleToRun a j = (false, r) ->
  (forall k, stopchan k = false) ->
  filter (isUnscheduleOf (Name j)) (sent (fst (calculateClusterTasks receive cs t e)))
    = [mkTask taskTypeUnscheduleUnit
              (if r =? JobReschedule then JobReschedule
               else ("target Machine(" ++ TargetMachineID j ++ ") unable to run unit")%string)
              (Name j) (TargetMachineID j)] /\
  nth_error (jobs (clust (snd (unschedulePhase receive t (mkState cs e))))) i
    = Some (setTargetMachineID "" j) /\
  runFailJob (agents cs) j = negb (r =? JobReschedule) /\
  countFailure RunFailure (fst (calculateClusterTasks receive cs t e))
    = length (filter (runFailJob (agents cs)) (jobs cs)).
Proof.
  intros Hnd Hi Hsch Hts Ha Hr Hs.
  pose proof (decide_unable _ _ _ _ Hts Ha Hr) as Hd.
  assert (Hw : willUnschedule (agents cs) j = true).
  { unfold willUnschedule. rewrite Hsch, Hd. destruct (r =? JobReschedule); reflexivity. }
  destruct (unstopped_unscheduled cs t e i j Hnd Hi Hw Hs) as [H1 H2].
  split; [|split; [|split]].
  - rewrite H1. unfold unscheduleTask. rewrite Hd.
    destruct (String.eqb_spec r JobReschedule) as [Hm|Hm]; [subst r|]; reflexivity.
  - exact H2.
  - unfold runFailJob. rewrite Hsch, Ha, Hr. apply String.eqb_neq in Hts. rewrite Hts.
    reflexivity.
  - rewrite unstopped_failures by (assumption || discriminate). apply count_runFail.
Qed.

(** C5, amended: when the schedule loop visits a job that the snapshot,
    as the pass has changed it so far, holds as unscheduled, and whose
    target state is not inactive, it asks the scheduler on that snapshot;
    when the scheduler returns a machine and the poll of the stop channel
    before the hand-off does not find it ready, the pass sends an
    AttemptScheduleUnit task with that machine and the reason "target state
    <TargetState> and unit not scheduled", the only such task for the job
    in the pass, and the snapshot records the job as scheduled to the
    machine, at once and at the end of the pass. *)
Theorem C5_unscheduled_job_scheduled cs t e i ev1 s1 evi si j dec :
  NoDup (map Name (jobs cs)) ->
  unschedulePhase receive t (mkState cs e) = (true, ev1, s1) ->
  rangeJobs (scheduleStep receive) (seq 0 i) (t + length ev1) s1 = (true, evi, si) ->
  nth_error (jobs (clust si)) i = Some j ->
  Scheduled j = false ->
  TargetState j <> JobStateInactive ->
  Decide (clust si) j = inl dec ->
  stopchan (t + length ev1 + length evi) = false ->
  (exists post,
     fst (calculateClusterTasks receive cs t e) =
       ev1 ++ evi ++
       Poll false
       :: Send (mkTask taskTypeAttemptScheduleUnit
                  ("target state " ++ TargetState j ++ " and unit not scheduled")%string
                  (Name j) (machineID dec))
       :: post) /\
  filter (isAttemptOf (Name j)) (sent (fst (calculateClusterTasks receive cs t e)))
    = [mkTask taskTypeAttemptScheduleUnit
         ("target state " ++ TargetState j ++ " and unit not scheduled")%string
         (Name j) (machineID dec)] /\
  nth_error (jobs (schedule (Name j) (machineID dec) (clust si))) i
    = Some (setTargetMachineID (machineID dec) j) /\
  nth_error (jobs (clust (snd (calculateClusterTasks receive cs t e)))) i
    = Some (setTargetMachineID (machineID dec) j).
Proof.
  intros Hnd E1 Ei Hj Hsch Hts Hd Hs.
  assert (Hw : wantsSchedule j = true).
  { unfold wantsSchedule. rewrite Hsch. apply String.eqb_neq in Hts. rewrite Hts.
    reflexivity. }
  destruct (unschedulePhase_spec _ _ _ _ _ _ Hnd E1) as [_ P].
  destruct (P eq_refl) as [Hjs [_ [Hse _]]].
  assert (Hnd1 : NoDup (map Name (jobs (clust s1)))).
  { rewrite Hjs, names_settle. exact Hnd. }
  destruct (schedule_visit _ _ _ _ _ _ Hnd1 Ei Hj)
    as [before [after [Hsi [Hbl [_ [Hal [Hndi Hevi]]]]]]].
  rewrite Hjs, length_map in Hal.
  assert (Hfresh : ~ In (Name j) (map Name before) /\ ~ In (Name j) (map Name after)).
  { rewrite map_app in Hndi. simpl in Hndi. apply NoDup_remove_2 in Hndi.
    split; intros Hin; apply Hndi; apply in_or_app; auto. }
  destruct Hfresh as [Hfb Hfa].
  rewrite (pass_at _ _ _ _ _ _ _ _ _ Hnd E1 Ei Hj).
  rewrite (scheduleStep_sent _ _ _ _ _ Hw Hd Hs).
  fold (attemptTask j (machineID dec)).
  set (x := attemptTask j (machineID dec)).
  set (sj := mkState (schedule (Name j) (machineID dec) (clust si))
                     (snd (receive x (eng si)))).
  assert (Hsj : jobs (clust sj) = before ++ setTargetMachineID (machineID dec) j :: after).
  { unfold sj, schedule. simpl. rewrite Hsi. apply map_retarget_at. exact Hndi. }
  destruct (rangeJobs _ _ _ sj) as [[okr evr] sr] eqn:Er.
  rewrite <- Hal, <- Hbl in Er.
  apply schedule_rest
    with (before := before) (j' := setTargetMachineID (machineID dec) j) in Er;
    [|exact Hsj|rewrite names_setTarget_at; exact Hndi].
  destruct Er as [Hfin Hevr]. rewrite Hbl in Hfin.
  simpl. split; [|split; [|split]].
  - eexists. reflexivity.
  - rewrite !sent_app, !filter_app. simpl.
    rewrite sent_app, (sent_receiver _ (receive_events x (eng si))). simpl.
    rewrite sent_app, filter_app. simpl. rewrite app_nil_r.
    rewrite (filter_none _ (sent ev1)).
    + rewrite (filter_attempt_other _ _ _ Hevi Hfb).
      rewrite (filter_attempt_other _ _ _ Hevr Hfa).
      unfold isAttemptOf, x. simpl. rewrite String.eqb_refl. reflexivity.
    + intros y Hy. rewrite Hse in Hy. apply tasksOf_unschedule in Hy.
      apply attempt_not_unschedule. exact Hy.
  - rewrite Hsi, map_retarget_at by exact Hndi.
    rewrite <- Hbl. apply nth_error_middle.
  - exact Hfin.
Qed.

(** C6: when the scheduler returns an error for a job that the schedule
    loop visits, the loop sends no task for it, logs the error and reports
    ScheduleFailure once, leaves the snapshot as it is and goes on with the
    jobs after it; the pass has no AttemptScheduleUnit task for the job. *)
Theorem C6_schedule_failure_continues cs t e i ev1 s1 evi si j err :
  NoDup (map Name (jobs cs)) ->
  unschedulePhase receive t (mkState cs e) = (true, ev1, s1) ->
  rangeJobs (scheduleStep receive) (seq 0 i) (t + length ev1) s1 = (true, evi, si) ->
  nth_error (jobs (clust si)) i = Some j ->
  Scheduled j = false ->
  TargetState j <> JobStateInactive ->
  Decide (clust si) j = inr err ->
  scheduleStep receive j (t + length ev1 + length evi) si =
    (true,
     [Log (DebugUnableToSchedule (Name j) err);
      ReportEngineReconcileFailure ScheduleFailure],
     si) /\
  (exists okr evr sr,
     rangeJobs (scheduleStep receive) (seq (S i) (length (jobs cs) - S i))
               (t + length ev1 + length evi + 2) si = (okr, evr, sr) /\
     calculateClusterTasks receive cs t e =
       (ev1 ++ evi ++
        [Log (DebugUnableToSchedule (Name j) err);
         ReportEngineReconcileFailure ScheduleFailure] ++
        evr ++ [Close],
        sr)) /\
  filter (isAttemptOf (Name j)) (sent (fst (calculateClusterTasks receive cs t e))) = [].
Proof.
  intros Hnd E1 Ei Hj Hsch Hts Hd.
  assert (Hw : wantsSchedule j = true).
  { unfold wantsSchedule. rewrite Hsch. apply String.eqb_neq in Hts. rewrite Hts.
    reflexivity. }
  destruct (unschedulePhase_spec _ _ _ _ _ _ Hnd E1) as [_ P].
  destruct (P eq_refl) as [Hjs [_ [Hse _]]].
  assert (Hnd1 : NoDup (map Name (jobs (clust s1)))).
  { rewrite Hjs, names_settle. exact Hnd. }
  destruct (schedule_visit _ _ _ _ _ _ Hnd1 Ei Hj)
    as [before [after [Hsi [Hbl [_ [Hal [Hndi Hevi]]]]]]].
  rewrite Hjs, length_map in Hal.
  assert (Hfresh : ~ In (Name j) (map Name before) /\ ~ In (Name j) (map Name after)).
  { rewrite map_app in Hndi. simpl in Hndi. apply NoDup_remove_2 in Hndi.
    split; intros Hin; apply Hndi; apply in_or_app; auto. }
  destruct Hfresh as [Hfb Hfa].
  pose proof (scheduleStep_failed receive _ (t + length ev1 + length evi) _ _ Hw Hd)
    as Hstep.
  rewrite (pass_at _ _ _ _ _ _ _ _ _ Hnd E1 Ei Hj). rewrite Hstep.
  simpl length.
  destruct (rangeJobs _ _ (t + length ev1 + length evi + 2) si)
    as [[okr evr] sr] eqn:Er.
  assert (Er' := Er). rewrite <- Hal, <- Hbl in Er'.
  apply schedule_rest with (before := before) (j' := j) in Er';
    [|exact Hsi|exact Hndi].
  destruct Er' as [_ Hevr].
  split; [reflexivity|split].
  - exists okr, evr, sr. split; reflexivity.
  - simpl. rewrite !sent_app, !filter_app. simpl. rewrite sent_app, filter_app. simpl.
    rewrite (filter_none _ (sent ev1)).
    + rewrite (filter_attempt_other _ _ _ Hevi Hfb).
      rewrite (filter_attempt_other _ _ _ Hevr Hfa). reflexivity.
    + intros y Hy. rewrite Hse in Hy. apply tasksOf_unschedule in Hy.
      apply attempt_not_unschedule. exact Hy.
Qed.

(** C7: the producer polls the stop channel before every hand-off: each
    task sent comes right after a poll that found the channel not ready.
    A poll that finds it ready is followed by no hand-off and no Registry
    write: by the close of the task channel, after the ScheduleFailure
    report when the schedule loop was stopped.  The task channel is closed
    at the end of every pass, and the Registry writes of a pass are those
    of its handed-off tasks: the producer writes nothing of the snapshot. *)
Theorem C7_stop_honored cs t e :
  (exists body,
     fst (calculateClusterTasks receive cs t e) = body ++ [Close] /\
     ~ In Close body) /\
  (forall pre x post,
     fst (calculateClusterTasks receive cs t e) = pre ++ Send x :: post ->
     exists pre', pre = pre' ++ [Poll false] /\ stopchan (t + length pre') = false) /\
  (forall pre b post,
     fst (calculateClusterTasks receive cs t e) = pre ++ Poll b :: post ->
     stopchan (t + length pre) = b) /\
  (forall pre post,
     fst (calculateClusterTasks receive cs t e) = pre ++ Poll true :: post ->
     post = [Close] \/
     post = [ReportEngineReconcileFailure ScheduleFailure; Close]) /\
  filter isWrite (fst (calculateClusterTasks receive cs t e))
    = flat_map writesOf (sent (fst (calculateClusterTasks receive cs t e))).
Proof.
  destruct (calculateClusterTasks_trace receive cs t e) as [body [ok [Hev HT]]].
  rewrite Hev. split; [|split; [|split; [|split]]].
  - exists body. split; [reflexivity|].
    eapply producerTrace_open; [apply receive_events|exact HT].
  - intros pre x post Heq.
    destruct (snoc_split _ _ _ _ _ Heq) as [post' [_ Hb]]; [discriminate|].
    eapply producerTrace_send; [apply receive_events|exact HT|exact Hb].
  - intros pre b post Heq.
    destruct (snoc_split _ _ _ _ _ Heq) as [post' [_ Hb]]; [discriminate|].
    eapply (producerTrace_poll receive receive_events); [exact HT|exact Hb].
  - intros pre post Heq.
    destruct (snoc_split _ _ _ _ _ Heq) as [post' [Hp Hb]]; [discriminate|].
    destruct (producerTrace_poll receive receive_events _ _ _ HT _ _ _ Hb)
      as [_ Hpost].
    destruct (Hpost eq_refl) as [Hp'|Hp']; subst; auto.
  - rewrite filter_app, sent_app. simpl. rewrite !app_nil_r.
    eapply producerTrace_writes. exact HT.
Qed.


(** C9: when the cluster snapshot cannot be built, [Reconcile] logs the
    error and returns: no task is handed off, no Registry write is issued
    and the reconcile success is not reported. *)
Theorem C9_snapshot_failure_aborts t e e1 err :
  Engine_clusterState e = (e1, inr err) ->
  Reconcile t e =
    ([Log DebugPollingRegistry; CallClusterState; Log (ErrorFailedClusterState err)],
     e1) /\
  sent (fst (Reconcile t e)) = [] /\
  filter isWrite (fst (Reconcile t e)) = [] /\
  ~ In ReportEngineReconcileSuccess (fst (Reconcile t e)).
Proof.
  intros H. unfold Reconcile. rewrite H. simpl. repeat split.
  intros [Hc|[Hc|[Hc|[]]]]; discriminate.
Qed.

(** C10: [doTask] cannot fail on an AttemptScheduleUnit task: whatever
    [attemptScheduleUnit] returns, the error is nil, the EngineTask metric
    is reported and the task is logged as completed.  The EngineTask
    metric is reported for an UnscheduleUnit task too, failed or not, and
    EngineTaskFailure is reported exactly when an UnscheduleUnit task
    failed or the task type is not recognized, which are the cases where
    [doTask] returns an error. *)
Theorem C10_attempt_cannot_fail x e :
  (Typ x = taskTypeAttemptScheduleUnit ->
   doTask x e =
     (None,
      [CallAttemptScheduleUnit (JobName x) (MachineID x);
       ReportEngineTask taskTypeAttemptScheduleUnit;
       Log (InfoCompletedTask x)],
      fst (attemptScheduleUnit e (JobName x) (MachineID x)))) /\
  (Typ x = taskTypeUnscheduleUnit ->
   In (ReportEngineTask taskTypeUnscheduleUnit) (snd (fst (doTask x e)))) /\
  (In (ReportEngineTaskFailure (Typ x)) (snd (fst (doTask x e))) <->
   (Typ x = taskTypeUnscheduleUnit /\
    snd (unscheduleUnit e (JobName x) (MachineID x)) <> None) \/
   (Typ x <> taskTypeUnscheduleUnit /\ Typ x <> taskTypeAttemptScheduleUnit)) /\
  (fst (fst (doTask x e)) <> None <->
   In (ReportEngineTaskFailure (Typ x)) (snd (fst (doTask x e)))).
Proof.
  unfold doTask.
  destruct (String.eqb_spec (Typ x) taskTypeUnscheduleUnit) as [HU|HU].
  - destruct (unscheduleUnit e (JobName x) (MachineID x)) as [e' [err|]] eqn:Hu;
      simpl; rewrite HU; (split; [discriminate|split; [auto|split; split]]).
    + intros _. left. split; [reflexivity|discriminate].
    + intros _. right. right. left. reflexivity.
    + intros _. right. right. left. reflexivity.
    + intros _. discriminate.
    + intros [Hc|[Hc|[Hc|[]]]]; discriminate.
    + intros [[_ Hc]|[Hc _]]; contradiction.
    + intros Hc. contradiction.
    + intros [Hc|[Hc|[Hc|[]]]]; discriminate.
  - destruct (String.eqb_spec (Typ x) taskTypeAttemptScheduleUnit) as [HA|HA].
    + destruct (attemptScheduleUnit e (JobName x) (MachineID x)) as [e' r] eqn:Ha.
      simpl. rewrite HA. split; [reflexivity|split; [discriminate|split; split]].
      * intros [Hc|[Hc|[Hc|[]]]]; discriminate.
      * intros [[Hc _]|[_ Hc]]; [discriminate|contradiction].
      * intros Hc. contradiction.
      * intros [Hc|[Hc|[Hc|[]]]]; discriminate.
    + simpl. split; [contradiction|split; [contradiction|split; split]].
      * intros _. right. split; assumption.
      * intros _. left. reflexivity.
      * intros _. left. reflexivity.
      * intros _. discriminate.
Qed.

(** ** More properties of a pass *)

Lemma rangeJobs_kept (I : state -> state -> Prop) body :
  (forall s, I s s) ->
  (forall a b c, I a b -> I b c -> I a c) ->
  (forall j t s, I s (snd (body j t s))) ->
  forall idx t s, I s (snd (rangeJobs body idx t s)).
Proof.
  intros Hrefl Htrans Hb. induction idx as [|i idx IH]; intros t s; [apply Hrefl|].
  destruct (nth_error (jobs (clust s)) i) as [j|] eqn:Hj.
  - rewrite (rangeJobs_cons _ _ _ _ _ _ Hj). unfold andThen.
    pose proof (Hb j t s) as H1.
    destruct (body j t s) as [[ok ev1] s1]. simpl in H1. destruct ok.
    + pose proof (IH (t + length ev1) s1) as H2.
      destruct (rangeJobs body idx (t + length ev1) s1) as [[ok2 ev2] s2].
      simpl in H2. simpl. eapply Htrans; eassumption.
    + exact H1.
  - rewrite (rangeJobs_cons_none _ _ _ _ _ Hj). apply IH.
Qed.










(** The unschedule loop when it may be stopped: it has settled the jobs
    before some position and left the others. *)
Lemma unschedule_range_prefix ags : forall rest done post t s ok evs s',
  jobs (clust s) = done ++ rest ++ post ->
  NoDup (map Name (done ++ rest ++ post)) ->
  rangeJobs (unscheduleStep receive ags) (seq (length done) (length rest)) t s
    = (ok, evs, s') ->
  exists k,
    jobs (clust s') = done ++ (map (settle ags) (firstn k rest) ++ skipn k rest) ++ post /\
    sent evs = flat_map (tasksOf ags) (firstn k rest).
Proof.
  induction rest as [|j rest IH]; intros done post t s ok evs s' Hjobs Hnd H.
  - simpl in H. inversion H; subst. exists 0. split; [exact Hjobs|reflexivity].
  - simpl length in H. simpl seq in H.
    assert (Hj : nth_error (jobs (clust s)) (length done) = Some j).
    { rewrite Hjobs. simpl. apply nth_error_middle. }
    rewrite (rangeJobs_cons _ _ _ _ _ _ Hj) in H. unfold andThen in H.
    pose proof (sent_notes _ (notesOf_notes ags j)) as Hsn.
    destruct (unscheduleStep_cases receive ags j t s) as [[Hw E1]|[[Hw [Hs E1]]|[Hw [Hs E1]]]];
      rewrite E1 in H.
    + destruct (rangeJobs _ _ (t + length (notesOf ags j)) s) as [[ok2 ev2] s2] eqn:E2.
      inversion H; subst; clear H.
      replace (S (length done)) with (length (done ++ [j])) in E2
        by (rewrite length_app; simpl; lia).
      apply IH with (post := post) in E2;
        [|rewrite <- app_assoc; exact Hjobs|rewrite <- app_assoc; exact Hnd].
      destruct E2 as [k [Hjs Hse]]. exists (S k). simpl.
      unfold settle at 1, tasksOf at 1. rewrite Hw. simpl.
      rewrite sent_app, Hsn, Hjs, <- app_assoc. simpl. split; [reflexivity|exact Hse].
    + inversion H; subst; clear H. exists 0. simpl.
      rewrite sent_app, Hsn. split; [exact Hjobs|reflexivity].
    + set (R := receive (unscheduleTask ags j) (eng s)) in *.
      set (s1 := mkState (unschedule (Name j) (clust s)) (snd R)) in *.
      destruct (rangeJobs _ _ _ s1) as [[ok2 ev2] s2] eqn:E2.
      inversion H; subst ok evs s'; clear H.
      assert (Hs1 : jobs (clust s1) = (done ++ [setTargetMachineID "" j]) ++ rest ++ post).
      { unfold s1, unschedule. simpl. rewrite Hjobs. simpl.
        rewrite map_retarget_at by exact Hnd. rewrite <- app_assoc. reflexivity. }
      replace (S (length done)) with (length (done ++ [setTargetMachineID "" j])) in E2
        by (rewrite length_app; simpl; lia).
      apply IH with (post := post) in E2; [|exact Hs1|].
      2:{ rewrite <- app_assoc. simpl. rewrite names_setTarget_at. exact Hnd. }
      destruct E2 as [k [Hjs Hse]]. exists (S k). simpl.
      unfold settle at 1, tasksOf at 1. rewrite Hw. simpl.
      pose proof (sent_receiver _ (receive_events (unscheduleTask ags j) (eng s))) as HsR.
      fold R in HsR.
      rewrite !sent_app, Hsn. simpl. rewrite HsR, Hjs, <- app_assoc. simpl.
      split; [reflexivity|rewrite Hse; reflexivity].
Qed.

Lemma settled_prefix ags k : forall l,
  Forall2 (fun j j' => j' = j \/ (willUnschedule ags j = true /\ j' = setTargetMachineID "" j))
          l (map (settle ags) (firstn k l) ++ skipn k l).
Proof.
  induction k as [|k IH]; intros l; simpl.
  - apply Forall2_same. intros a. left. reflexivity.
  - destruct l as [|j l]; simpl; [constructor|].
    constructor; [|apply IH].
    unfold settle. destruct (willUnschedule ags j); auto.
Qed.

Lemma same_name_same_job : forall (l : list Job) a b,
  NoDup (map Name l) -> In a l -> In b l -> Name a = Name b -> a = b.
Proof.
  induction l as [|j l IH]; intros a b Hnd Ha Hb Hn; [destruct Ha|].
  simpl in Hnd. inversion Hnd as [|n ns Hj Hnd']; subst.
  destruct Ha as [Ha|Ha]; destruct Hb as [Hb|Hb].
  - congruence.
  - subst a. exfalso. apply Hj. rewrite Hn. apply in_map. exact Hb.
  - subst b. exfalso. apply Hj. rewrite <- Hn. apply in_map. exact Ha.
  - apply IH; assumption.
Qed.

Lemma unschedulePhase_prefix cs t e ok1 ev1 s1 :
  NoDup (map Name (jobs cs)) ->
  unschedulePhase receive t (mkState cs e) = (ok1, ev1, s1) ->
  exists k,
    jobs (clust s1) = map (settle (agents cs)) (firstn k (jobs cs)) ++ skipn k (jobs cs) /\
    sent ev1 = flat_map (tasksOf (agents cs)) (firstn k (jobs cs)).
Proof.
  intros Hnd H. rewrite unschedulePhase_eq in H. simpl in H.
  pose proof (unschedule_range_prefix (agents cs) (jobs cs) [] [] t (mkState cs e)
                ok1 ev1 s1) as P.
  simpl in P. rewrite !app_nil_r in P.
  destruct (P eq_refl Hnd H) as [k [P1 P2]]. exists k.
  rewrite app_nil_r in P1. auto.
Qed.

Lemma in_firstn {A : Type} (k : nat) (l : list A) (a : A) :
  In a (firstn k l) -> In a l.
Proof.
  intros H. rewrite <- (firstn_skipn k l). apply in_or_app. left. exact H.
Qed.

Lemma names_prefix ags k l :
  map Name (map (settle ags) (firstn k l) ++ skipn k l) = map Name l.
Proof.
  rewrite map_app, names_settle, <- map_app, firstn_skipn. reflexivity.
Qed.

(** X2: a pass leaves a healthy job alone.  For a job that is scheduled,
    not to be inactive, whose target agent is in the agent map and can run
    it, a pass sends no task, whatever the stop channel does, and the
    snapshot holds the job unchanged at the end. *)
Theorem X2_healthy_job_untouched cs t e i j a :
  NoDup (map Name (jobs cs)) ->
  nth_error (jobs cs) i = Some j ->
  Scheduled j = true ->
  TargetState j <> JobStateInactive ->
  lookupAgent (TargetMachineID j) (agents cs) = Some a ->
  fst (AbleToRun a j) = true ->
  filter (fun x => JobName x =? Name j) (sent (fst (calculateClusterTasks receive cs t e)))
    = [] /\
  nth_error (jobs (clust (snd (calculateClusterTasks receive cs t e)))) i = Some j.
Proof.
  intros Hnd Hi Hsch Hts Ha Hable.
  assert (Hw : willUnschedule (agents cs) j = false).
  { unfold willUnschedule, decide. apply String.eqb_neq in Hts. rewrite Hsch, Hts, Ha.
    destruct (AbleToRun a j) as [able r]. simpl in Hable. subst able. reflexivity. }
  assert (Hws : wantsSchedule j = false).
  { unfold wantsSchedule. rewrite Hsch. reflexivity. }
  rewrite calculateClusterTasks_eq.
  destruct (unschedulePhase receive t (mkState cs e)) as [[ok1 ev1] s1] eqn:E1.
  destruct (unschedulePhase_prefix _ _ _ _ _ _ Hnd E1) as [k [Hjs Hse]].
  assert (Hi1 : nth_error (jobs (clust s1)) i = Some j).
  { rewrite Hjs.
    destruct (Forall2_nth_error _ _ _ _ _ (settled_prefix (agents cs) k (jobs cs)) Hi)
      as [b [Hb [Hb'|[Hb' _]]]].
    - subst b. exact Hb.
    - rewrite Hw in Hb'. discriminate. }
  assert (H1 : filter (fun x => JobName x =? Name j) (sent ev1) = []).
  { apply filter_none. intros x Hx. rewrite Hse in Hx.
    apply in_flat_map in Hx. destruct Hx as [j0 [Hj0 Hx]].
    unfold tasksOf in Hx. destruct (willUnschedule (agents cs) j0) eqn:Hw0; [|destruct Hx].
    destruct Hx as [Hx|[]]. subst x. simpl.
    destruct (String.eqb_spec (Name j0) (Name j)) as [Hn|Hn]; [|reflexivity].
    assert (j0 = j).
    { apply (same_name_same_job (jobs cs)); auto.
      - apply in_firstn in Hj0. exact Hj0.
      - eapply nth_error_In. exact Hi. }
    subst j0. rewrite Hw in Hw0. discriminate. }
  destruct ok1.
  - assert (Hnd1 : NoDup (map Name (jobs (clust s1)))).
    { rewrite Hjs, names_prefix. exact Hnd. }
    destruct (schedulePhase receive (t + length ev1) s1) as [[ok2 ev2] s2] eqn:E2.
    destruct (schedulePhase_spec _ _ _ _ _ Hnd1 E2) as [_ [_ [Hat [_ HF]]]].
    simpl. split.
    + rewrite !sent_app, !filter_app, H1. simpl. rewrite app_nil_r.
      apply filter_none. intros x Hx. rewrite Forall_forall in Hat.
      destruct (Hat x Hx) as [j0 [m [Hj0 [Hw0 Hx0]]]]. subst x. simpl.
      destruct (String.eqb_spec (Name j0) (Name j)) as [Hn|Hn]; [|reflexivity].
      assert (j0 = j).
      { apply (same_name_same_job (jobs (clust s1))); auto.
        eapply nth_error_In. exact Hi1. }
      subst j0. rewrite Hws in Hw0. discriminate.
    + destruct (Forall2_nth_error _ _ _ _ _ HF Hi1) as [b [Hb [Hb'|[Hb' _]]]].
      * subst b. exact Hb.
      * rewrite Hws in Hb'. discriminate.
  - simpl. split; [|exact Hi1].
    rewrite sent_app, filter_app, H1. reflexivity.
Qed.

Lemma Forall2_In_r {A B : Type} (P : A -> B -> Prop) : forall l l' b,
  Forall2 P l l' -> In b l' -> exists a, In a l /\ P a b.
Proof.
  intros l l' b H. induction H as [|x y l l' Hxy H IH]; intros Hb; [destruct Hb|].
  destruct Hb as [Hb|Hb].
  - subst y. exists x. split; [left; reflexivity|exact Hxy].
  - destruct (IH Hb) as [a [Ha Hab]]. exists a. split; [right; exact Ha|exact Hab].
Qed.

(** X3: a pass never schedules a job that is to be inactive: it sends no
    AttemptScheduleUnit task for such a job, whatever the stop channel does,
    and when it is not stopped, no job that is to be inactive is scheduled
    in the snapshot at its end. *)
Theorem X3_inactive_never_scheduled cs t e :
  NoDup (map Name (jobs cs)) ->
  (forall x j,
     In x (sent (fst (calculateClusterTasks receive cs t e))) ->
     Typ x = taskTypeAttemptScheduleUnit ->
     In j (jobs cs) ->
     Name j = JobName x ->
     TargetState j <> JobStateInactive) /\
  ((forall k, stopchan k = false) ->
   forall j',
     In j' (jobs (clust (snd (calculateClusterTasks receive cs t e)))) ->
     TargetState j' = JobStateInactive ->
     Scheduled j' = false).
Proof.
  intros Hnd. split.
  - intros x j Hx Hty Hj Hname.
    rewrite calculateClusterTasks_eq in Hx.
    pose proof (unschedulePhase_sends t (mkState cs e)) as HT1.
    destruct (unschedulePhase receive t (mkState cs e)) as [[ok1 ev1] s1] eqn:E1.
    simpl in HT1. rewrite Forall_forall in HT1.
    destruct (unschedulePhase_prefix _ _ _ _ _ _ Hnd E1) as [k [Hjs _]].
    destruct ok1.
    + assert (Hnd1 : NoDup (map Name (jobs (clust s1)))).
      { rewrite Hjs, names_prefix. exact Hnd. }
      destruct (schedulePhase receive (t + length ev1) s1) as [[ok2 ev2] s2] eqn:E2.
      destruct (schedulePhase_spec _ _ _ _ _ Hnd1 E2) as [_ [_ [Hat _]]].
      simpl in Hx. rewrite !sent_app in Hx. simpl in Hx. rewrite app_nil_r in Hx.
      apply in_app_or in Hx. destruct Hx as [Hx|Hx].
      * apply HT1 in Hx. rewrite Hx in Hty. discriminate.
      * rewrite Forall_forall in Hat.
        destruct (Hat x Hx) as [j1 [m [Hj1 [Hw1 Hx1]]]]. subst x. simpl in Hname.
        rewrite Hjs in Hj1.
        destruct (Forall2_In_r _ _ _ _ (settled_prefix (agents cs) k (jobs cs)) Hj1)
          as [j0 [Hj0 Hrel]].
        assert (Hsame : Name j1 = Name j0 /\ TargetState j1 = TargetState j0).
        { destruct Hrel as [Hrel|[_ Hrel]]; subst j1; split; reflexivity. }
        destruct Hsame as [Hn Hts].
        assert (j0 = j).
        { apply (same_name_same_job (jobs cs)); auto. congruence. }
        subst j0. rewrite <- Hts.
        unfold wantsSchedule in Hw1. apply negb_true_iff in Hw1.
        apply orb_false_elim in Hw1. destruct Hw1 as [_ Hw1].
        apply String.eqb_neq. exact Hw1.
    + simpl in Hx. rewrite sent_app in Hx. simpl in Hx. rewrite app_nil_r in Hx.
      apply HT1 in Hx. rewrite Hx in Hty. discriminate.
  - intros Hs j' Hj' Hts.
    destruct (unstopped_pass cs t e Hs) as [ev1 [s1 [ev2 [s2 [E1 [E2 Ec]]]]]].
    rewrite Ec in Hj'. simpl in Hj'.
    destruct (unschedulePhase_spec _ _ _ _ _ _ Hnd E1) as [_ P].
    destruct (P eq_refl) as [Hjs _].
    assert (Hnd1 : NoDup (map Name (jobs (clust s1)))).
    { rewrite Hjs, names_settle. exact Hnd. }
    destruct (schedulePhase_spec _ _ _ _ _ Hnd1 E2) as [_ [_ [_ [_ HF]]]].
    destruct (Forall2_In_r _ _ _ _ HF Hj') as [j1 [Hj1 [Heq|[Hw1 [m Heq]]]]].
    + subst j'. rewrite Hjs in Hj1. apply in_map_iff in Hj1.
      destruct Hj1 as [j0 [Hj0 _]]. subst j1. unfold settle in *.
      destruct (willUnschedule (agents cs) j0) eqn:Hw0; [reflexivity|].
      unfold willUnschedule in Hw0. rewrite (decide_inactive _ _ Hts) in Hw0.
      simpl in Hw0. rewrite andb_true_r in Hw0. exact Hw0.
    + subst j'. simpl in Hts.
      unfold wantsSchedule in Hw1. rewrite Hts in Hw1. simpl in Hw1.
      rewrite orb_true_r in Hw1. discriminate.
Qed.

(** X4: when it is not stopped, the unschedule phase leaves scheduled only
    jobs of the snapshot that are not to be inactive and whose target
    machine is in the agent map built at the start of the pass, with an
    agent that can run them. *)
Theorem X4_unschedule_phase_leaves_healthy cs t e j' :
  NoDup (map Name (jobs cs)) ->
  (forall k, stopchan k = false) ->
  In j' (jobs (clust (snd (unschedulePhase receive t (mkState cs e))))) ->
  Scheduled j' = true ->
  In j' (jobs cs) /\
  TargetState j' <> JobStateInactive /\
  exists a,
    lookupAgent (TargetMachineID j') (agents cs) = Some a /\
    fst (AbleToRun a j') = true.
Proof.
  intros Hnd Hs Hj' Hsch.
  destruct (unschedulePhase receive t (mkState cs e)) as [[ok1 ev1] s1] eqn:E1.
  pose proof (producerTrace_unstopped _ _ _ _ Hs (unschedulePhase_trace _ _ _ _ _ _ E1)).
  subst ok1. simpl in Hj'.
  destruct (unschedulePhase_spec _ _ _ _ _ _ Hnd E1) as [_ P].
  destruct (P eq_refl) as [Hjs _].
  rewrite Hjs in Hj'. apply in_map_iff in Hj'. destruct Hj' as [j0 [Hj0 Hin]].
  unfold settle in Hj0.
  destruct (willUnschedule (agents cs) j0) eqn:Hw0.
  - subst j'. discriminate.
  - subst j0. split; [exact Hin|].
    unfold willUnschedule in Hw0. rewrite Hsch in Hw0. simpl in Hw0.
    unfold decide in Hw0.
    destruct (String.eqb_spec (TargetState j') JobStateInactive) as [Hi|Hi];
      [discriminate|].
    split; [exact Hi|].
    destruct (lookupAgent (TargetMachineID j') (agents cs)) as [a|]; [|discriminate].
    exists a. split; [reflexivity|].
    destruct (AbleToRun a j') as [able r]. destruct able; [reflexivity|].
    simpl in Hw0. destruct (r =? JobReschedule); discriminate.
Qed.

Lemma producerTrace_inner recv t evs ok :
  (forall x e, Forall (fun ev => receiverEvent ev = true) (fst (recv x e))) ->
  producerTrace recv t evs ok ->
  ~ In ReportEngineReconcileSuccess evs.
Proof.
  intros HR. induction 1 as [t|t e evs ok He HA IH|t x0 e0 evs ok Hs HA IH|t tail Hs Ht];
    intros Hin.
  - destruct Hin.
  - destruct Hin as [Hin|Hin]; [subst; discriminate|auto].
  - destruct Hin as [Hin|[Hin|Hin]]; try discriminate.
    apply in_app_or in Hin. destruct Hin as [Hin|Hin]; [|auto].
    pose proof (HR x0 e0) as HR0. rewrite Forall_forall in HR0.
    apply HR0 in Hin. discriminate.
  - destruct Hin as [Hin|Hin]; [discriminate|].
    destruct Ht as [Ht|Ht]; subst; [destruct Hin|].
    destruct Hin as [Hin|[]]. discriminate.
Qed.

(** X5: whenever the snapshot was built, [Reconcile] reports the reconcile
    success, once, as its last action, after the close of the task channel:
    also when the pass was stopped and when tasks failed. *)
Theorem X5_success_reported_last t e e1 cs :
  Engine_clusterState e = (e1, inl cs) ->
  exists body,
    fst (Reconcile t e) =
      Log DebugPollingRegistry :: CallClusterState
        :: body ++ [Close; ReportEngineReconcileSuccess] /\
    ~ In Close body /\
    ~ In ReportEngineReconcileSuccess body.
Proof.
  intros H. unfold Reconcile. rewrite H.
  destruct (calculateClusterTasks_trace receive cs (t + 2) e1) as [body [ok [Hev HT]]].
  destruct (calculateClusterTasks receive cs (t + 2) e1) as [evs s]. simpl in Hev.
  subst evs. exists body. simpl. rewrite <- app_assoc. simpl.
  split; [reflexivity|split].
  - eapply producerTrace_open; [apply receive_events|exact HT].
  - eapply producerTrace_inner; [apply receive_events|exact HT].
Qed.

Lemma receive_failures x e typ :
  Typ x = taskTypeUnscheduleUnit \/ Typ x = taskTypeAttemptScheduleUnit ->
  In (ReportEngineTaskFailure typ) (fst (receive x e)) ->
  typ = taskTypeUnscheduleUnit.
Proof.
  unfold receive, doTask. intros Hx.
  destruct (String.eqb_spec (Typ x) taskTypeUnscheduleUnit) as [HU|HU].
  - destruct (unscheduleUnit e (JobName x) (MachineID x)) as [e' [err|]]; simpl.
    + intros [Hc|[Hc|[Hc|[Hc|[]]]]]; try discriminate. inversion Hc. congruence.
    + intros [Hc|[Hc|[Hc|[]]]]; discriminate.
  - destruct Hx as [Hx|Hx]; [contradiction|].
    rewrite Hx. simpl.
    destruct (attemptScheduleUnit e (JobName x) (MachineID x)) as [e' r]. simpl.
    intros [Hc|[Hc|[Hc|[]]]]; discriminate.
Qed.

Lemma producerTrace_failures t evs ok :
  producerTrace receive t evs ok ->
  Forall (fun x => Typ x = taskTypeUnscheduleUnit \/ Typ x = taskTypeAttemptScheduleUnit)
         (sent evs) ->
  forall typ, In (ReportEngineTaskFailure typ) evs -> typ = taskTypeUnscheduleUnit.
Proof.
  induction 1 as [t|t e evs ok He HA IH|t x0 e0 evs ok Hs HA IH|t tail Hs Ht];
    intros Hty typ Hin.
  - destruct Hin.
  - destruct Hin as [Hin|Hin]; [subst; discriminate|].
    apply IH; [|exact Hin].
    destruct e; simpl in *; try discriminate; exact Hty.
  - simpl in Hty. rewrite sent_app, (sent_receiver _ (receive_events x0 e0)) in Hty.
    simpl in Hty. inversion Hty as [|y l Hy Hl]; subst.
    destruct Hin as [Hin|[Hin|Hin]]; try discriminate.
    apply in_app_or in Hin. destruct Hin as [Hin|Hin].
    + eapply receive_failures; eassumption.
    + apply IH; assumption.
  - destruct Hin as [Hin|Hin]; [discriminate|].
    destruct Ht as [Ht|Ht]; subst; [destruct Hin|].
    destruct Hin as [Hin|[]]. discriminate.
Qed.

Lemma pass_task_types cs t e :
  Forall (fun x => Typ x = taskTypeUnscheduleUnit \/ Typ x = taskTypeAttemptScheduleUnit)
         (sent (fst (calculateClusterTasks receive cs t e))).
Proof.
  rewrite calculateClusterTasks_eq.
  pose proof (unschedulePhase_sends t (mkState cs e)) as H1.
  destruct (unschedulePhase receive t (mkState cs e)) as [[ok1 ev1] s1].
  simpl in H1. destruct ok1.
  - pose proof (schedulePhase_sends (t + length ev1) s1) as H2.
    destruct (schedulePhase receive (t + length ev1) s1) as [[ok2 ev2] s2].
    simpl in H2. simpl. rewrite !sent_app. simpl. rewrite app_nil_r.
    apply Forall_app. split.
    + eapply Forall_impl; [|exact H1]. simpl. auto.
    + eapply Forall_impl; [|exact H2]. simpl. auto.
  - simpl. rewrite sent_app. simpl. rewrite app_nil_r.
    eapply Forall_impl; [|exact H1]. simpl. auto.
Qed.

(** X6: every task that a pass hands off has one of the two task types
    that [doTask] knows.  The Engine calls of a pass are, in order, one for
    each task handed off, [unscheduleUnit] for an UnscheduleUnit task and
    [attemptScheduleUnit] for the other, and EngineTaskFailure is only ever
    reported for UnscheduleUnit. *)
Theorem X6_each_task_executed_once cs t e :
  Forall (fun x => Typ x = taskTypeUnscheduleUnit \/ Typ x = taskTypeAttemptScheduleUnit)
         (sent (fst (calculateClusterTasks receive cs t e))) /\
  filter isWrite (fst (calculateClusterTasks receive cs t e))
    = map (fun x =>
             if Typ x =? taskTypeUnscheduleUnit
             then CallUnscheduleUnit (JobName x) (MachineID x)
             else CallAttemptScheduleUnit (JobName x) (MachineID x))
          (sent (fst (calculateClusterTasks receive cs t e))) /\
  (forall typ,
     In (ReportEngineTaskFailure typ) (fst (calculateClusterTasks receive cs t e)) ->
     typ = taskTypeUnscheduleUnit).
Proof.
  pose proof (pass_task_types cs t e) as Hty.
  destruct (calculateClusterTasks_trace receive cs t e) as [body [ok [Hev HT]]].
  rewrite Hev in *.
  assert (Hsb : sent (body ++ [Close]) = sent body).
  { rewrite sent_app. simpl. apply app_nil_r. }
  rewrite Hsb in *.
  split; [exact Hty|split].
  - rewrite filter_app. simpl. rewrite app_nil_r.
    rewrite (producerTrace_writes _ _ _ HT).
    clear - Hty. induction Hty as [|x l Hx Hl IH]; [reflexivity|].
    simpl. rewrite IH. f_equal. unfold writesOf.
    destruct Hx as [Hx|Hx]; rewrite Hx; reflexivity.
  - intros typ Hin. apply in_app_or in Hin. destruct Hin as [Hin|[Hin|[]]].
    + eapply producerTrace_failures; eassumption.
    + discriminate.
Qed.

(** X8: when the stop channel is ready all along, a pass hands off no task,
    issues no Registry write and leaves the snapshot and the Engine as they
    were. *)
Theorem X8_stopped_pass_does_nothing cs t e :
  (forall k, stopchan k = true) ->
  sent (fst (calculateClusterTasks receive cs t e)) = [] /\
  filter isWrite (fst (calculateClusterTasks receive cs t e)) = [] /\
  snd (calculateClusterTasks receive cs t e) = mkState cs e.
Proof.
  intros Hs.
  assert (Hu : forall ags j t0 s,
             snd (unscheduleStep receive ags j t0 s) = s /\
             Forall (fun _ : task => False)
                    (sent (snd (fst (unscheduleStep receive ags j t0 s))))).
  { intros ags j t0 s.
    pose proof (sent_notes _ (notesOf_notes ags j)) as Hn.
    destruct (unscheduleStep_cases receive ags j t0 s)
      as [[_ E1]|[[_ [_ E1]]|[_ [Hc _]]]].
    - rewrite E1. simpl. rewrite Hn. split; [reflexivity|constructor].
    - rewrite E1. simpl. rewrite sent_app, Hn. split; [reflexivity|constructor].
    - rewrite Hs in Hc. discriminate. }
  assert (Hd : forall j t0 s,
             snd (scheduleStep receive j t0 s) = s /\
             Forall (fun _ : task => False)
                    (sent (snd (fst (scheduleStep receive j t0 s))))).
  { intros j t0 s.
    destruct (scheduleStep_cases receive j t0 s)
      as [[_ E1]|[[_ [err [_ E1]]]|[[_ [dec [_ [_ E1]]]]|[_ [dec [_ [Hc _]]]]]]].
    - rewrite E1. split; [reflexivity|constructor].
    - rewrite E1. split; [reflexivity|constructor].
    - rewrite E1. split; [reflexivity|constructor].
    - rewrite Hs in Hc. discriminate. }
  assert (Hnone : forall l : list task, Forall (fun _ => False) l -> l = []).
  { intros l Hl. destruct l as [|x l]; [reflexivity|]. inversion Hl. contradiction. }
  assert (Hres : sent (fst (calculateClusterTasks receive cs t e)) = [] /\
                 snd (calculateClusterTasks receive cs t e) = mkState cs e).
  { rewrite calculateClusterTasks_eq, unschedulePhase_eq. simpl.
    pose proof (rangeJobs_kept (fun a b => b = a)
                  (unscheduleStep receive (agents cs))
                  (fun s => eq_refl)
                  (fun a b c H1 H2 => eq_trans H2 H1)
                  (fun j t0 s => proj1 (Hu (agents cs) j t0 s))
                  (seq 0 (length (jobs cs))) t (mkState cs e)) as K1.
    pose proof (rangeJobs_sent (fun _ => False) _
                  (fun j t0 s => proj2 (Hu (agents cs) j t0 s))
                  (seq 0 (length (jobs cs))) t (mkState cs e)) as S1.
    destruct (rangeJobs _ _ t (mkState cs e)) as [[ok1 ev1] s1].
    simpl in K1, S1. subst s1. apply Hnone in S1. destruct ok1.
    - rewrite schedulePhase_eq. simpl.
      pose proof (rangeJobs_kept (fun a b => b = a)
                    (scheduleStep receive)
                    (fun s => eq_refl)
                    (fun a b c H1 H2 => eq_trans H2 H1)
                    (fun j t0 s => proj1 (Hd j t0 s))
                    (seq 0 (length (jobs cs))) (t + length ev1) (mkState cs e)) as K2.
      pose proof (rangeJobs_sent (fun _ => False) _
                    (fun j t0 s => proj2 (Hd j t0 s))
                    (seq 0 (length (jobs cs))) (t + length ev1) (mkState cs e)) as S2.
      destruct (rangeJobs _ _ (t + length ev1) (mkState cs e)) as [[ok2 ev2] s2].
      simpl in K2, S2. subst s2. apply Hnone in S2.
      simpl. rewrite !sent_app, S1, S2. split; reflexivity.
    - simpl. rewrite sent_app, S1. split; reflexivity. }
  destruct Hres as [H1 H2]. split; [exact H1|split; [|exact H2]].
  destruct (calculateClusterTasks_trace receive cs t e) as [body [ok [Hev HT]]].
  rewrite Hev in *. rewrite filter_app. simpl. rewrite app_nil_r.
  rewrite (producerTrace_writes _ _ _ HT).
  rewrite sent_app in H1. simpl in H1. rewrite app_nil_r in H1. rewrite H1. reflexivity.
Qed.

Lemma tasksOf_filter ags l :
  flat_map (tasksOf ags) l = map (unscheduleTask ags) (filter (willUnschedule ags) l).
Proof.
  induction l as [|j l IH]; simpl; [reflexivity|].
  unfold tasksOf at 1. destruct (willUnschedule ags j); simpl; rewrite IH; reflexivity.
Qed.

(** X9: the verdicts of the unschedule loop are all taken on the agent map
    built before the loop, so unscheduling a job does not change the
    verdict on a later job of the same pass: when the pass is not stopped,
    its UnscheduleUnit tasks are, in the order of the snapshot, those of the
    jobs that are scheduled and that [decide] condemns on that agent map. *)
Theorem X9_unschedule_verdicts_on_initial_agents cs t e :
  NoDup (map Name (jobs cs)) ->
  (forall k, stopchan k = false) ->
  filter (fun x => Typ x =? taskTypeUnscheduleUnit)
         (sent (fst (calculateClusterTasks receive cs t e)))
    = map (fun j =>
             mkTask taskTypeUnscheduleUnit (snd (fst (decide (agents cs) j)))
                    (Name j) (TargetMachineID j))
          (filter (fun j => Scheduled j && fst (fst (decide (agents cs) j))) (jobs cs)).
Proof.
  intros Hnd Hs.
  destruct (unstopped_pass cs t e Hs) as [ev1 [s1 [ev2 [s2 [E1 [E2 Ec]]]]]].
  rewrite Ec. simpl.
  destruct (unschedulePhase_spec _ _ _ _ _ _ Hnd E1) as [_ P].
  destruct (P eq_refl) as [_ [_ [Hse _]]].
  pose proof (schedulePhase_sends (t + length ev1) s1) as HT2.
  rewrite E2 in HT2. simpl in HT2. rewrite Forall_forall in HT2.
  rewrite !sent_app, !filter_app. simpl. rewrite app_nil_r.
  rewrite (filter_none _ (sent ev2)).
  - rewrite app_nil_r, Hse, tasksOf_filter.
    fold (willUnschedule (agents cs)). fold (unscheduleTask (agents cs)).
    generalize (filter (willUnschedule (agents cs)) (jobs cs)) as l.
    induction l as [|j l IH]; simpl; [reflexivity|]. rewrite IH. reflexivity.
  - intros x Hx. rewrite (HT2 x Hx). reflexivity.
Qed.

End Reconciler.

Arguments clust {E} _.
Arguments eng {E} _.
Arguments mkState {E} _ _.

(** ** The scenarios *)

Abbreviation sampleReceive :=
  (receive registry bool regUnschedule regAttemptSchedule).
Abbreviation samplePass stop cs :=
  (calculateClusterTasks registry sampleAble sampleMarker sampleDecide stop
     sampleReceive cs 0 []).
Abbreviation sampleUnschedulePhase stop cs :=
  (unschedulePhase registry sampleAble sampleMarker stop sampleReceive 0
     (mkState cs [])).
Abbreviation sampleReconcile reads stop :=
  (Reconcile registry bool reads regUnschedule regAttemptSchedule
     sampleAble sampleMarker sampleDecide stop 0 []).

Ltac distinct_names :=
  repeat (constructor; [simpl; intuition discriminate|]); constructor.


Lemma C2_witness :
  filter (isUnscheduleOf "J") (sent (fst (samplePass neverStopped inactiveCluster)))
    = [mkTask taskTypeUnscheduleUnit "target state inactive" "J" "A"] /\
  nth_error (jobs (clust (snd (sampleUnschedulePhase neverStopped inactiveCluster)))) 0
    = Some (simpleJob "J" JobStateInactive "") /\
  nth_error (jobs (clust (snd (samplePass neverStopped inactiveCluster)))) 0
    = Some (simpleJob "J" JobStateInactive "").
Proof.
  apply (C2_inactive_job_unscheduled registry bool regUnschedule regAttemptSchedule
           sampleAble sampleMarker sampleDecide neverStopped inactiveCluster 0 []
           0 (simpleJob "J" JobStateInactive "A")).
  - distinct_names.
  - reflexivity.
  - reflexivity.
  - reflexivity.
  - intros k. reflexivity.
Defined.

Lemma C3_witness :
  filter (isUnscheduleOf "J") (sent (fst (samplePass neverStopped awayCluster)))
    = [mkTask taskTypeUnscheduleUnit "target Machine(B) went away" "J" "B"] /\
  In (ReportEngineReconcileFailure MachineAway) (fst (samplePass neverStopped awayCluster)) /\
  countFailure MachineAway (fst (samplePass neverStopped awayCluster)) = 1.
Proof.
  apply (C3_machine_away registry bool regUnschedule regAttemptSchedule
           sampleAble sampleMarker sampleDecide neverStopped awayCluster 0 []
           0 (simpleJob "J" JobStateLaunched "B")).
  - distinct_names.
  - reflexivity.
  - reflexivity.
  - discriminate.
  - reflexivity.
  - intros k. reflexivity.
Defined.

(** J conflicts with K on A: the generic reason and one RunFailure; in the
    peer scenario the marker is the reason and RunFailure is not reported. *)
Lemma C4_witness :
  (filter (isUnscheduleOf "J") (sent (fst (samplePass neverStopped crowdedCluster)))
     = [mkTask taskTypeUnscheduleUnit "target Machine(A) unable to run unit" "J" "A"] /\
   nth_error (jobs (clust (snd (sampleUnschedulePhase neverStopped crowdedCluster)))) 0
     = Some (mkJob "J" "" JobStateLaunched "" [] ["K"] []) /\
   runFailJob sampleAble sampleMarker (agents crowdedCluster)
              (mkJob "J" "" JobStateLaunched "A" [] ["K"] []) = true /\
   countFailure RunFailure (fst (samplePass neverStopped crowdedCluster)) = 1) /\
  (filter (isUnscheduleOf "J") (sent (fst (samplePass neverStopped peerCluster)))
     = [mkTask taskTypeUnscheduleUnit sampleMarker "J" "B"] /\
   nth_error (jobs (clust (snd (sampleUnschedulePhase neverStopped peerCluster)))) 0
     = Some (mkJob "J" "" JobStateLaunched "" [] [] ["K"]) /\
   runFailJob sampleAble sampleMarker (agents peerCluster)
              (mkJob "J" "" JobStateLaunched "B" [] [] ["K"]) = false /\
   countFailure RunFailure (fst (samplePass neverStopped peerCluster)) = 0).
Proof.
  split.
  - apply (C4_unable_to_run registry bool regUnschedule regAttemptSchedule
             sampleAble sampleMarker sampleDecide neverStopped crowdedCluster 0 []
             0 (mkJob "J" "" JobStateLaunched "A" [] ["K"] [])
             (mkAgent (machine "A") (jobs crowdedCluster)) "conflict").
    + distinct_names.
    + reflexivity.
    + reflexivity.
    + discriminate.
    + reflexivity.
    + reflexivity.
    + intros k. reflexivity.
  - apply (C4_unable_to_run registry bool regUnschedule regAttemptSchedule
             sampleAble sampleMarker sampleDecide neverStopped peerCluster 0 []
             0 (mkJob "J" "" JobStateLaunched "B" [] [] ["K"])
             (mkAgent (machine "B") [mkJob "J" "" JobStateLaunched "B" [] [] ["K"]])
             sampleMarker).
    + distinct_names.
    + reflexivity.
    + reflexivity.
    + discriminate.
    + reflexivity.
    + reflexivity.
    + intros k. reflexivity.
Defined.

(** C4 as it is stated fails on a job that is to be inactive: its agent
    cannot run it and gave another reason than the marker, yet the reason of
    the task is "target state inactive" and RunFailure is not reported.  It
    fails too when the stop channel is ready: the job is not unscheduled. *)
Lemma C4_counterexample :
  (nth_error (jobs crowdedInactiveCluster) 0
     = Some (mkJob "J" "" JobStateInactive "A" [] ["K"] []) /\
   Scheduled (mkJob "J" "" JobStateInactive "A" [] ["K"] []) = true /\
   lookupAgent "A" (agents crowdedInactiveCluster)
     = Some (mkAgent (machine "A") (jobs crowdedInactiveCluster)) /\
   sampleAble (mkAgent (machine "A") (jobs crowdedInactiveCluster))
              (mkJob "J" "" JobStateInactive "A" [] ["K"] [])
     = (false, "conflict") /\
   sent (fst (samplePass neverStopped crowdedInactiveCluster))
     = [mkTask taskTypeUnscheduleUnit "target state inactive" "J" "A"] /\
   sent (fst (samplePass neverStopped crowdedInactiveCluster))
     <> [mkTask taskTypeUnscheduleUnit "target Machine(A) unable to run unit" "J" "A"] /\
   countFailure RunFailure (fst (samplePass neverStopped crowdedInactiveCluster)) = 0) /\
  (nth_error (jobs crowdedCluster) 0
     = Some (mkJob "J" "" JobStateLaunched "A" [] ["K"] []) /\
   sampleAble (mkAgent (machine "A") (jobs crowdedCluster))
              (mkJob "J" "" JobStateLaunched "A" [] ["K"] [])
     = (false, "conflict") /\
   sent (fst (samplePass alwaysStopped crowdedCluster)) = [] /\
   jobs (clust (snd (samplePass alwaysStopped crowdedCluster))) = jobs crowdedCluster).
Proof.
  repeat split. discriminate.
Qed.

(** The placement scenario: J goes to B, the agent with no job. *)
Lemma C5_witness :
  (exists post,
     fst (samplePass neverStopped placementCluster) =
       Poll false
       :: Send (mkTask taskTypeAttemptScheduleUnit
                       "target state launched and unit not scheduled" "J" "B")
       :: post) /\
  filter (isAttemptOf "J") (sent (fst (samplePass neverStopped placementCluster)))
    = [mkTask taskTypeAttemptScheduleUnit
              "target state launched and unit not scheduled" "J" "B"] /\
  nth_error (jobs (schedule "J" "B" placementCluster)) 2
    = Some (simpleJob "J" JobStateLaunched "B") /\
  nth_error (jobs (clust (snd (samplePass neverStopped placementCluster)))) 2
    = Some (simpleJob "J" JobStateLaunched "B").
Proof.
  apply (C5_unscheduled_job_scheduled registry bool regUnschedule regAttemptSchedule
           sampleAble sampleMarker sampleDecide neverStopped placementCluster 0 []
           2 [] (mkState placementCluster []) [] (mkState placementCluster [])
           (simpleJob "J" JobStateLaunched "") (mkDecision "B")).
  - distinct_names.
  - reflexivity.
  - reflexivity.
  - reflexivity.
  - reflexivity.
  - discriminate.
  - reflexivity.
  - reflexivity.
Defined.

(** C5 as it is stated fails when the stop channel is ready at the
    hand-off: the scheduler returns B for J, and the pass sends no task,
    reports ScheduleFailure and leaves J unscheduled in the snapshot. *)
Lemma C5_counterexample :
  nth_error (jobs placementCluster) 2 = Some (simpleJob "J" JobStateLaunched "") /\
  Scheduled (simpleJob "J" JobStateLaunched "") = false /\
  TargetState (simpleJob "J" JobStateLaunched "") <> JobStateInactive /\
  sampleDecide placementCluster (simpleJob "J" JobStateLaunched "")
    = inl (mkDecision "B") /\
  fst (samplePass alwaysStopped placementCluster)
    = [Poll true; ReportEngineReconcileFailure ScheduleFailure; Close] /\
  sent (fst (samplePass alwaysStopped placementCluster)) = [] /\
  nth_error (jobs (clust (snd (samplePass alwaysStopped placementCluster)))) 2
    = Some (simpleJob "J" JobStateLaunched "").
Proof.
  repeat split. discriminate.
Qed.

(** The conflict scenario: no agent can run J; no task, one
    ScheduleFailure, and the loop goes on to K. *)
Lemma C6_witness :
  scheduleStep registry sampleDecide neverStopped sampleReceive
    (mkJob "J" "" JobStateLaunched "" [] ["K"] []) 0 (mkState conflictCluster [])
    = (true,
       [Log (DebugUnableToSchedule "J" (OtherError "unable to schedule unit"));
        ReportEngineReconcileFailure ScheduleFailure],
       mkState conflictCluster []) /\
  (exists okr evr sr,
     rangeJobs registry (scheduleStep registry sampleDecide neverStopped sampleReceive)
               [1] 2 (mkState conflictCluster []) = (okr, evr, sr) /\
     samplePass neverStopped conflictCluster
       = ([Log (DebugUnableToSchedule "J" (OtherError "unable to schedule unit"));
           ReportEngineReconcileFailure ScheduleFailure] ++ evr ++ [Close], sr)) /\
  filter (isAttemptOf "J") (sent (fst (samplePass neverStopped conflictCluster))) = [].
Proof.
  apply (C6_schedule_failure_continues registry bool regUnschedule regAttemptSchedule
           sampleAble sampleMarker sampleDecide neverStopped conflictCluster 0 []
           0 [] (mkState conflictCluster []) [] (mkState conflictCluster [])
           (mkJob "J" "" JobStateLaunched "" [] ["K"] [])
           (OtherError "unable to schedule unit")).
  - distinct_names.
  - reflexivity.
  - reflexivity.
  - reflexivity.
  - reflexivity.
  - discriminate.
  - reflexivity.
Defined.

(** The peer scenario, stopped from time 5 on: J is unscheduled, the poll
    before its rescheduling finds the stop channel ready, and the pass ends
    with the ScheduleFailure report and the close. *)
Lemma C7_witness :
  stoppedFrom 5 (0 + 5) = true /\
  ([ReportEngineReconcileFailure ScheduleFailure; Close] = [Close] \/
   [ReportEngineReconcileFailure ScheduleFailure; Close]
     = [ReportEngineReconcileFailure ScheduleFailure; Close]) /\
  filter isWrite (fst (samplePass (stoppedFrom 5) peerCluster))
    = flat_map writesOf (sent (fst (samplePass (stoppedFrom 5) peerCluster))).
Proof.
  destruct (C7_stop_honored registry bool regUnschedule regAttemptSchedule
              sampleAble sampleMarker sampleDecide (stoppedFrom 5) peerCluster 0 [])
    as [_ [_ [H3 [H4 H5]]]].
  split; [|split].
  - apply (H3 [Poll false;
               Send (mkTask taskTypeUnscheduleUnit sampleMarker "J" "B");
               CallUnscheduleUnit "J" "B";
               ReportEngineTask taskTypeUnscheduleUnit;
               Log (InfoCompletedTask (mkTask taskTypeUnscheduleUnit sampleMarker "J" "B"))]
              true
              [ReportEngineReconcileFailure ScheduleFailure; Close]).
    reflexivity.
  - apply (H4 [Poll false;
               Send (mkTask taskTypeUnscheduleUnit sampleMarker "J" "B");
               CallUnscheduleUnit "J" "B";
               ReportEngineTask taskTypeUnscheduleUnit;
               Log (InfoCompletedTask (mkTask taskTypeUnscheduleUnit sampleMarker "J" "B"))]
              [ReportEngineReconcileFailure ScheduleFailure; Close]).
    reflexivity.
  - exact H5.
Defined.



Lemma C9_witness :
  sampleReconcile registryDown neverStopped
    = ([Log DebugPollingRegistry; CallClusterState;
        Log (ErrorFailedClusterState (OtherError "store unavailable"))],
       []) /\
  sent (fst (sampleReconcile registryDown neverStopped)) = [] /\
  filter isWrite (fst (sampleReconcile registryDown neverStopped)) = [] /\
  ~ In ReportEngineReconcileSuccess (fst (sampleReconcile registryDown neverStopped)).
Proof.
  apply (C9_snapshot_failure_aborts registry bool registryDown regUnschedule
           regAttemptSchedule sampleAble sampleMarker sampleDecide neverStopped
           0 [] [] (OtherError "store unavailable")).
  reflexivity.
Defined.

(** An AttemptScheduleUnit task completes; an UnscheduleUnit task on a
    registry whose write fails reports the failure. *)
Lemma C10_witness :
  doTask registry bool regUnschedule regAttemptSchedule
         (mkTask taskTypeAttemptScheduleUnit "" "J" "A") []
    = (None,
       [CallAttemptScheduleUnit "J" "A";
        ReportEngineTask taskTypeAttemptScheduleUnit;
        Log (InfoCompletedTask (mkTask taskTypeAttemptScheduleUnit "" "J" "A"))],
       [("J", "A")]) /\
  In (ReportEngineTaskFailure taskTypeUnscheduleUnit)
     (snd (fst (doTask registry bool regUnscheduleFails regAttemptSchedule
                       (mkTask taskTypeUnscheduleUnit "" "J" "A") []))).
Proof.
  split.
  - apply (proj1 (C10_attempt_cannot_fail registry bool regUnschedule regAttemptSchedule
                    (mkTask taskTypeAttemptScheduleUnit "" "J" "A") [])).
    reflexivity.
  - apply (proj2 (proj1 (proj2 (proj2
             (C10_attempt_cannot_fail registry bool regUnscheduleFails regAttemptSchedule
                (mkTask taskTypeUnscheduleUnit "" "J" "A") []))))).
    left. split; [reflexivity|discriminate].
Defined.

(** ** Two Engines behind one pass *)

Lemma rangeJobs_agree (E1 E2 : Type)
  (b1 : Job -> nat -> state E1 -> bool * list event * state E1)
  (b2 : Job -> nat -> state E2 -> bool * list event * state E2) :
  (forall j t1 t2 s1 s2, clust s1 = clust s2 ->
     fst (fst (b1 j t1 s1)) = fst (fst (b2 j t2 s2)) /\
     sent (snd (fst (b1 j t1 s1))) = sent (snd (fst (b2 j t2 s2))) /\
     clust (snd (b1 j t1 s1)) = clust (snd (b2 j t2 s2))) ->
  forall idx t1 t2 s1 s2, clust s1 = clust s2 ->
    fst (fst (rangeJobs E1 b1 idx t1 s1)) = fst (fst (rangeJobs E2 b2 idx t2 s2)) /\
    sent (snd (fst (rangeJobs E1 b1 idx t1 s1)))
      = sent (snd (fst (rangeJobs E2 b2 idx t2 s2))) /\
    clust (snd (rangeJobs E1 b1 idx t1 s1)) = clust (snd (rangeJobs E2 b2 idx t2 s2)).
Proof.
  intros Hb. induction idx as [|i rest IH]; intros t1 t2 s1 s2 Hc.
  - simpl. auto.
  - destruct (nth_error (jobs (clust s1)) i) as [j|] eqn:Hj.
    + rewrite (rangeJobs_cons E1 b1 i rest t1 s1 j Hj).
      rewrite Hc in Hj.
      rewrite (rangeJobs_cons E2 b2 i rest t2 s2 j Hj).
      destruct (Hb j t1 t2 s1 s2 Hc) as [Hok [Hse Hcl]].
      unfold andThen.
      destruct (b1 j t1 s1) as [[ok1 ev1] s1'].
      destruct (b2 j t2 s2) as [[ok2 ev2] s2'].
      simpl in Hok, Hse, Hcl. subst ok2.
      destruct ok1; [|simpl; auto].
      destruct (IH (t1 + length ev1) (t2 + length ev2) s1' s2' Hcl) as [Hok' [Hse' Hcl']].
      destruct (rangeJobs E1 b1 rest (t1 + length ev1) s1') as [[ok1' ev1'] s1''].
      destruct (rangeJobs E2 b2 rest (t2 + length ev2) s2') as [[ok2' ev2'] s2''].
      simpl in *. rewrite !sent_app, Hse, Hse'. auto.
    + rewrite (rangeJobs_cons_none E1 b1 i rest t1 s1 Hj).
      rewrite Hc in Hj.
      rewrite (rangeJobs_cons_none E2 b2 i rest t2 s2 Hj).
      apply IH. exact Hc.
Qed.

(** X7: absent a stop signal, what a pass decides does not depend on the
    Engine behind it: with two Engines, whatever their writes return and
    however long they take, the same tasks are handed off in the same order
    and the snapshot ends the same. The snapshot is updated after a
    hand-off also when the Engine's write failed. *)
Theorem X7_tasks_independent_of_engine
  (E1 E2 A1 A2 : Type)
  (unscheduleUnit1 : E1 -> string -> string -> E1 * option error)
  (attemptScheduleUnit1 : E1 -> string -> string -> E1 * A1)
  (unscheduleUnit2 : E2 -> string -> string -> E2 * option error)
  (attemptScheduleUnit2 : E2 -> string -> string -> E2 * A2)
  (AbleToRun : AgentState -> Job -> bool * string) (JobReschedule : string)
  (Decide : clusterState -> Job -> decision + error) (stopchan : nat -> bool)
  (cs : clusterState) (t1 t2 : nat) (e1 : E1) (e2 : E2) :
  (forall k, stopchan k = false) ->
  sent (fst (calculateClusterTasks E1 AbleToRun JobReschedule Decide stopchan
               (receive E1 A1 unscheduleUnit1 attemptScheduleUnit1) cs t1 e1))
    = sent (fst (calculateClusterTasks E2 AbleToRun JobReschedule Decide stopchan
                   (receive E2 A2 unscheduleUnit2 attemptScheduleUnit2) cs t2 e2)) /\
  clust (snd (calculateClusterTasks E1 AbleToRun JobReschedule Decide stopchan
                (receive E1 A1 unscheduleUnit1 attemptScheduleUnit1) cs t1 e1))
    = clust (snd (calculateClusterTasks E2 AbleToRun JobReschedule Decide stopchan
                    (receive E2 A2 unscheduleUnit2 attemptScheduleUnit2) cs t2 e2)).
Proof.
  intros Hs.
  set (r1 := receive E1 A1 unscheduleUnit1 attemptScheduleUnit1).
  set (r2 := receive E2 A2 unscheduleUnit2 attemptScheduleUnit2).
  assert (Hr1 : forall x e, sent (fst (r1 x e)) = []).
  { intros x e. apply sent_receiver, receive_events. }
  assert (Hr2 : forall x e, sent (fst (r2 x e)) = []).
  { intros x e. apply sent_receiver, receive_events. }
  assert (Hu : forall ags j u1 u2 (s1 : state E1) (s2 : state E2),
             clust s1 = clust s2 ->
             fst (fst (unscheduleStep E1 AbleToRun JobReschedule stopchan r1 ags j u1 s1))
               = fst (fst (unscheduleStep E2 AbleToRun JobReschedule stopchan r2 ags j u2 s2)) /\
             sent (snd (fst (unscheduleStep E1 AbleToRun JobReschedule stopchan r1 ags j u1 s1)))
               = sent (snd (fst (unscheduleStep E2 AbleToRun JobReschedule stopchan r2 ags j u2 s2))) /\
             clust (snd (unscheduleStep E1 AbleToRun JobReschedule stopchan r1 ags j u1 s1))
               = clust (snd (unscheduleStep E2 AbleToRun JobReschedule stopchan r2 ags j u2 s2))).
  { intros ags j u1 u2 s1 s2 Hc.
    destruct (unscheduleStep_cases E1 AbleToRun JobReschedule stopchan r1 ags j u1 s1)
      as [[W1 Q1]|[[_ [C1 _]]|[W1 [_ Q1]]]];
      [| rewrite Hs in C1; discriminate |];
      (destruct (unscheduleStep_cases E2 AbleToRun JobReschedule stopchan r2 ags j u2 s2)
        as [[W2 Q2]|[[_ [C2 _]]|[W2 [_ Q2]]]];
       [| rewrite Hs in C2; discriminate |]);
      try congruence; rewrite Q1, Q2; simpl.
    - auto.
    - rewrite !sent_app. simpl. rewrite Hr1, Hr2, Hc. auto. }
  assert (Hd : forall j u1 u2 (s1 : state E1) (s2 : state E2),
             clust s1 = clust s2 ->
             fst (fst (scheduleStep E1 Decide stopchan r1 j u1 s1))
               = fst (fst (scheduleStep E2 Decide stopchan r2 j u2 s2)) /\
             sent (snd (fst (scheduleStep E1 Decide stopchan r1 j u1 s1)))
               = sent (snd (fst (scheduleStep E2 Decide stopchan r2 j u2 s2))) /\
             clust (snd (scheduleStep E1 Decide stopchan r1 j u1 s1))
               = clust (snd (scheduleStep E2 Decide stopchan r2 j u2 s2))).
  { intros j u1 u2 s1 s2 Hc.
    destruct (scheduleStep_cases E1 Decide stopchan r1 j u1 s1)
      as [[W1 Q1]|[[W1 [x1 [D1 Q1]]]|[[_ [x1 [_ [C1 _]]]]|[W1 [x1 [D1 [_ Q1]]]]]]];
      [| | rewrite Hs in C1; discriminate |];
      (destruct (scheduleStep_cases E2 Decide stopchan r2 j u2 s2)
        as [[W2 Q2]|[[W2 [x2 [D2 Q2]]]|[[_ [x2 [_ [C2 _]]]]|[W2 [x2 [D2 [_ Q2]]]]]]];
       [| | rewrite Hs in C2; discriminate |]);
      try congruence; try (rewrite Hc in D1; congruence); rewrite Q1, Q2; simpl.
    - auto.
    - auto.
    - rewrite Hc in D1. rewrite D1 in D2. inversion D2. subst x2.
      rewrite Hr1, Hr2, Hc. auto. }
  rewrite !calculateClusterTasks_eq, !unschedulePhase_eq. simpl.
  destruct (rangeJobs_agree E1 E2 _ _ (Hu (agents cs))
              (seq 0 (length (jobs cs))) t1 t2 (mkState cs e1) (mkState cs e2) eq_refl)
    as [Hok [Hse Hcl]].
  destruct (rangeJobs E1 _ _ t1 (mkState cs e1)) as [[ok1 ev1] s1].
  destruct (rangeJobs E2 _ _ t2 (mkState cs e2)) as [[ok2 ev2] s2].
  simpl in Hok, Hse, Hcl. subst ok2.
  destruct ok1.
  - rewrite !schedulePhase_eq. rewrite <- Hcl.
    destruct (rangeJobs_agree E1 E2 _ _ Hd
                (seq 0 (length (jobs (clust s1)))) (t1 + length ev1) (t2 + length ev2)
                s1 s2 Hcl)
      as [_ [Hse' Hcl']].
    destruct (rangeJobs E1 _ _ (t1 + length ev1) s1) as [[ok1' ev1'] s1'].
    destruct (rangeJobs E2 _ _ (t2 + length ev2) s2) as [[ok2' ev2'] s2'].
    simpl in *. rewrite !sent_app, Hse, Hse'. auto.
  - simpl. rewrite !sent_app, Hse. auto.
Qed.

(** ** Scenarios for the further properties *)

(** K1 is healthy on A: it gets no task and stays as it was. *)
Lemma X2_witness :
  filter (fun x => JobName x =? "K1") (sent (fst (samplePass neverStopped placementCluster))) = [] /\
  nth_error (jobs (clust (snd (samplePass neverStopped placementCluster)))) 0
    = Some (simpleJob "K1" JobStateLaunched "A").
Proof.
  eapply (X2_healthy_job_untouched registry bool regUnschedule regAttemptSchedule
            sampleAble sampleMarker sampleDecide neverStopped placementCluster 0 []
            0 (simpleJob "K1" JobStateLaunched "A")).
  - distinct_names.
  - reflexivity.
  - reflexivity.
  - discriminate.
  - reflexivity.
  - reflexivity.
Defined.

(** J is to be inactive: no schedule task names it and it ends
    unscheduled. *)
Lemma X3_witness :
  (forall x j,
     In x (sent (fst (samplePass neverStopped crowdedInactiveCluster))) ->
     Typ x = taskTypeAttemptScheduleUnit ->
     In j (jobs crowdedInactiveCluster) ->
     Name j = JobName x ->
     TargetState j <> JobStateInactive) /\
  (forall j',
     In j' (jobs (clust (snd (samplePass neverStopped crowdedInactiveCluster)))) ->
     TargetState j' = JobStateInactive ->
     Scheduled j' = false).
Proof.
  destruct (X3_inactive_never_scheduled registry bool regUnschedule regAttemptSchedule
              sampleAble sampleMarker sampleDecide neverStopped crowdedInactiveCluster 0 []
              ltac:(distinct_names)) as [H1 H2].
  split; [exact H1|exact (H2 (fun k => eq_refl))].
Defined.

(** After the unschedule phase of the peer scenario, K is still on A. *)
Lemma X4_witness :
  In (simpleJob "K" JobStateLaunched "A") (jobs peerCluster) /\
  TargetState (simpleJob "K" JobStateLaunched "A") <> JobStateInactive /\
  exists a,
    lookupAgent "A" (agents peerCluster) = Some a /\
    fst (sampleAble a (simpleJob "K" JobStateLaunched "A")) = true.
Proof.
  apply (X4_unschedule_phase_leaves_healthy registry bool regUnschedule regAttemptSchedule
           sampleAble sampleMarker neverStopped peerCluster 0 []
           (simpleJob "K" JobStateLaunched "A")).
  - distinct_names.
  - intros k. reflexivity.
  - right. left. reflexivity.
  - reflexivity.
Defined.

(** A reconciliation that is stopped at once still reports success. *)
Lemma X5_witness :
  exists body,
    fst (sampleReconcile (registryReads crowdedCluster) alwaysStopped) =
      Log DebugPollingRegistry :: CallClusterState
        :: body ++ [Close; ReportEngineReconcileSuccess] /\
    ~ In Close body /\
    ~ In ReportEngineReconcileSuccess body.
Proof.
  apply (X5_success_reported_last registry bool (registryReads crowdedCluster)
           regUnschedule regAttemptSchedule sampleAble sampleMarker sampleDecide
           alwaysStopped 0 [] [] crowdedCluster).
  reflexivity.
Defined.

Lemma X7_witness :
  sent (fst (calculateClusterTasks registry sampleAble sampleMarker sampleDecide
               neverStopped (receive registry bool regUnschedule regAttemptSchedule)
               peerCluster 0 []))
    = sent (fst (calculateClusterTasks registry sampleAble sampleMarker sampleDecide
                   neverStopped (receive registry bool regUnscheduleFails regAttemptSchedule)
                   peerCluster 7 [("J", "B")])) /\
  clust (snd (calculateClusterTasks registry sampleAble sampleMarker sampleDecide
                neverStopped (receive registry bool regUnschedule regAttemptSchedule)
                peerCluster 0 []))
    = clust (snd (calculateClusterTasks registry sampleAble sampleMarker sampleDecide
                    neverStopped (receive registry bool regUnscheduleFails regAttemptSchedule)
                    peerCluster 7 [("J", "B")])).
Proof.
  apply (X7_tasks_independent_of_engine registry registry bool bool
           regUnschedule regAttemptSchedule regUnscheduleFails regAttemptSchedule
           sampleAble sampleMarker sampleDecide neverStopped peerCluster 0 7
           [] [("J", "B")]).
  intros k. reflexivity.
Defined.

Lemma X8_witness :
  sent (fst (samplePass alwaysStopped crowdedCluster)) = [] /\
  filter isWrite (fst (samplePass alwaysStopped crowdedCluster)) = [] /\
  snd (samplePass alwaysStopped crowdedCluster) = mkState crowdedCluster [].
Proof.
  apply (X8_stopped_pass_does_nothing registry bool regUnschedule regAttemptSchedule
           sampleAble sampleMarker sampleDecide alwaysStopped crowdedCluster 0 []).
  intros k. reflexivity.
Defined.

(** J and K conflict with each other on A: K is condemned although J has
    left A by the time K is visited. *)
Lemma X9_witness :
  filter (fun x => Typ x =? taskTypeUnscheduleUnit)
         (sent (fst (samplePass neverStopped feudCluster)))
    = map (fun j =>
             mkTask taskTypeUnscheduleUnit
                    (snd (fst (decide sampleAble sampleMarker (agents feudCluster) j)))
                    (Name j) (TargetMachineID j))
          (filter (fun j => Scheduled j
                            && fst (fst (decide sampleAble sampleMarker (agents feudCluster) j)))
                  (jobs feudCluster)) /\
  map JobName (filter (fun x => Typ x =? taskTypeUnscheduleUnit)
                      (sent (fst (samplePass neverStopped feudCluster))))
    = ["J"; "K"].
Proof.
  split; [|reflexivity].
  apply (X9_unschedule_verdicts_on_initial_agents registry bool regUnschedule regAttemptSchedule
           sampleAble sampleMarker sampleDecide neverStopped feudCluster 0 []).
  - distinct_names.
  - intros k. reflexivity.
Defined.

(** ** The stop and start commands *)

Section FleetctlProperties.

Variable A : Type.
Variable findUnits : A -> list string -> A * (list Unit + error).
Variable suToGlobal : Unit -> bool.
Variable SetUnitTargetState : A -> string -> string -> A * option error.
Variable tryWaitForUnitStates :
  A -> list string -> string -> JobState -> Z -> A * option error.
Variable tryWaitForSystemdActiveState : A -> list string -> Z -> A * option error.
Variable lazyCreateUnits : A -> list string -> A * option error.
Variable lazyStartUnits : A -> list string -> A * (list Unit + error).
Variable getBlockAttempts : Z.

Local Abbreviation stopLoop := (stopUnits A suToGlobal SetUnitTargetState).
Local Abbreviation stopCmd :=
  (runStopUnit A findUnits suToGlobal SetUnitTargetState tryWaitForUnitStates
     getBlockAttempts).
Local Abbreviation startCmd :=
  (runStartUnit A suToGlobal tryWaitForUnitStates tryWaitForSystemdActiveState
     lazyCreateUnits lazyStartUnits getBlockAttempts).
Local Abbreviation setLoaded :=
  (fun v : Unit => CallSetUnitTargetState (UnitName v) JobStateLoaded).

Lemma stopUnits_calls units : forall stopping a,
  filter isCall (fst (fst (stopLoop units stopping a)))
    = map setLoaded (filter (toldToStop suToGlobal) (visited suToGlobal units)).
Proof.
  induction units as [|u rest IH]; intros stopping a; [reflexivity|].
  cbn [stopUnits visited]. unfold refusesToStop at 1.
  destruct (suToGlobal u) eqn:Hg; cbn [negb andb].
  - specialize (IH stopping (fst (SetUnitTargetState a (UnitName u) JobStateLoaded))).
    destruct (stopLoop rest stopping _) as [[evs r] a'].
    cbn [fst snd filter isCall] in *. unfold toldToStop at 1. rewrite Hg, IH. reflexivity.
  - destruct (CurrentState u =? JobStateInactive) eqn:Hi; [reflexivity|].
    cbn [filter]. unfold toldToStop at 1. rewrite Hg.
    destruct (CurrentState u =? JobStateLoaded) eqn:Hl; cbn [negb orb].
    + specialize (IH stopping a).
      destruct (stopLoop rest stopping a) as [[evs r] a'].
      cbn [fst snd filter isCall] in *. exact IH.
    + specialize (IH (stopping ++ [UnitName u])
                     (fst (SetUnitTargetState a (UnitName u) JobStateLoaded))).
      destruct (stopLoop rest _ _) as [[evs r] a'].
      cbn [fst snd filter isCall] in *. rewrite IH. reflexivity.
Qed.

Lemma stopUnits_result units : forall stopping a,
  snd (fst (stopLoop units stopping a))
    = if existsb (refusesToStop suToGlobal) units then None
      else Some (stopping ++ map UnitName (filter (waitedFor suToGlobal) units)).
Proof.
  induction units as [|u rest IH]; intros stopping a.
  - simpl. rewrite app_nil_r. reflexivity.
  - simpl. unfold refusesToStop at 1. unfold waitedFor at 1.
    destruct (suToGlobal u) eqn:Hg; simpl.
    + specialize (IH stopping (fst (SetUnitTargetState a (UnitName u) JobStateLoaded))).
      destruct (stopLoop rest stopping _) as [[evs r] a'].
      simpl in *. exact IH.
    + destruct (CurrentState u =? JobStateInactive) eqn:Hi; [reflexivity|].
      destruct (CurrentState u =? JobStateLoaded) eqn:Hl; simpl.
      * specialize (IH stopping a).
        destruct (stopLoop rest stopping a) as [[evs r] a'].
        simpl in *. exact IH.
      * specialize (IH (stopping ++ [UnitName u])
                       (fst (SetUnitTargetState a (UnitName u) JobStateLoaded))).
        destruct (stopLoop rest _ _) as [[evs r] a'].
        simpl in *. rewrite IH. rewrite <- app_assoc. reflexivity.
Qed.

Lemma stopUnits_refusal units u : forall stopping a,
  find (refusesToStop suToGlobal) units = Some u ->
  exists evs,
    fst (fst (stopLoop units stopping a))
      = evs ++ [Stderr (UnableToStopUnit (UnitName u) JobStateInactive)].
Proof.
  induction units as [|v rest IH]; intros stopping a Hf; [discriminate|].
  simpl in Hf. simpl. unfold refusesToStop in Hf at 1.
  destruct (suToGlobal v) eqn:Hg; simpl in *.
  - destruct (IH stopping (fst (SetUnitTargetState a (UnitName v) JobStateLoaded)) Hf)
      as [evs He].
    destruct (stopLoop rest stopping _) as [[evs' r] a'].
    simpl in *. subst evs'. eexists (_ :: _ :: _ :: evs). reflexivity.
  - destruct (CurrentState v =? JobStateInactive) eqn:Hi.
    + inversion Hf. subst v. exists []. reflexivity.
    + destruct (CurrentState v =? JobStateLoaded) eqn:Hl; simpl.
      * destruct (IH stopping a Hf) as [evs He].
        destruct (stopLoop rest stopping a) as [[evs' r] a'].
        simpl in *. subst evs'. eexists (_ :: evs). reflexivity.
      * destruct (IH (stopping ++ [UnitName v])
                     (fst (SetUnitTargetState a (UnitName v) JobStateLoaded)) Hf)
          as [evs He].
        destruct (stopLoop rest _ _) as [[evs' r] a'].
        simpl in *. subst evs'. eexists (_ :: _ :: evs). reflexivity.
Qed.

(** X10: the stop command is not atomic.  At the first unit that is not
    global and is inactive it prints that it is unable to stop it and
    exits with 1: by then it has set the target state of the units it
    visited before, to loaded, and it waits for none of them. *)
Theorem X10_stop_refuses_inactive_unit args a a1 units u :
  args <> [] ->
  findUnits a args = (a1, inl units) ->
  find (refusesToStop suToGlobal) units = Some u ->
  fst (fst (stopCmd args a)) = 1%Z /\
  filter isCall (snd (fst (stopCmd args a)))
    = CallFindUnits args
        :: map setLoaded (filter (toldToStop suToGlobal) (visited suToGlobal units)) /\
  exists evs,
    snd (fst (stopCmd args a))
      = evs ++ [Stderr (UnableToStopUnit (UnitName u) JobStateInactive)].
Proof.
  intros Hargs Hfound Hf.
  assert (Hex : existsb (refusesToStop suToGlobal) units = true).
  { apply existsb_exists. destruct (find_some _ _ Hf) as [Hin Hr]. eauto. }
  unfold runStopUnit.
  destruct args as [|arg args']; [contradiction|].
  rewrite Hfound.
  destruct units as [|u0 rest]; [discriminate|].
  pose proof (stopUnits_calls (u0 :: rest) [] a1) as Hc.
  pose proof (stopUnits_result (u0 :: rest) [] a1) as Hr.
  destruct (stopUnits_refusal (u0 :: rest) u [] a1 Hf) as [evs He].
  rewrite Hex in Hr.
  destruct (stopLoop (u0 :: rest) [] a1) as [[evs' r] a2].
  simpl fst in *. simpl snd in *. subst r evs'.
  split; [reflexivity|split].
  - simpl filter at 1. rewrite Hc. reflexivity.
  - exists (CallFindUnits (arg :: args') :: evs). reflexivity.
Qed.


Lemma startUnits_spec triggered : forall starting,
  snd (startUnits suToGlobal triggered starting)
    = starting ++ map UnitName (filter (fun u => negb (suToGlobal u)) triggered) /\
  fst (startUnits suToGlobal triggered starting)
    = map (fun u => Stdout (TriggeredGlobalUnit (UnitName u) "start"))
          (filter suToGlobal triggered).
Proof.
  induction triggered as [|u rest IH]; intros starting.
  - simpl. rewrite app_nil_r. auto.
  - simpl. destruct (suToGlobal u) eqn:Hg; simpl.
    + destruct (IH starting) as [H1 H2].
      destruct (startUnits suToGlobal rest starting) as [evs r].
      simpl in *. subst. auto.
    + destruct (IH (starting ++ [UnitName u])) as [H1 H2].
      rewrite H1, H2, <- app_assoc. auto.
Qed.

(** X12: once the units are created and triggered, the start command
    announces the global units on standard output and waits for the
    others only: first for their unit states and then, if that wait
    succeeded, for systemd, both times for the same names in the order
    triggered.  A failed first wait skips the second. *)
Theorem X12_start_waits_for_triggered_units args a a1 a2 triggered :
  args <> [] ->
  lazyCreateUnits a args = (a1, None) ->
  lazyStartUnits a1 args = (a2, inl triggered) ->
  filter isStdout (snd (fst (startCmd args a)))
    = map (fun u => Stdout (TriggeredGlobalUnit (UnitName u) "start"))
          (filter suToGlobal triggered) /\
  filter isWait (snd (fst (startCmd args a)))
    = CallTryWaitForUnitStates
        (map UnitName (filter (fun u => negb (suToGlobal u)) triggered))
        "start" JobStateLaunched getBlockAttempts
      :: match snd (tryWaitForUnitStates a2
                      (map UnitName (filter (fun u => negb (suToGlobal u)) triggered))
                      "start" JobStateLaunched getBlockAttempts) with
         | Some _ => []
         | None =>
             [CallTryWaitForSystemdActiveState
                (map UnitName (filter (fun u => negb (suToGlobal u)) triggered))
                getBlockAttempts]
         end.
Proof.
  intros Hargs Hc Hs.
  unfold runStartUnit.
  destruct args as [|arg args']; [contradiction|].
  rewrite Hc, Hs.
  destruct (startUnits_spec triggered []) as [H1 H2].
  destruct (startUnits suToGlobal triggered []) as [evs starting].
  simpl in H1, H2. subst evs starting.
  assert (Hout : forall l : list Unit,
             filter isStdout (map (fun u => Stdout (TriggeredGlobalUnit (UnitName u) "start")) l)
               = map (fun u => Stdout (TriggeredGlobalUnit (UnitName u) "start")) l).
  { induction l as [|x l IH]; simpl; [reflexivity|]. rewrite IH. reflexivity. }
  assert (Hw : forall l : list Unit,
             filter isWait (map (fun u => Stdout (TriggeredGlobalUnit (UnitName u) "start")) l)
               = []).
  { induction l as [|x l IH]; simpl; [reflexivity|]. exact IH. }
  destruct (tryWaitForUnitStates a2 _ "start" JobStateLaunched getBlockAttempts)
    as [a3 [err|]]; simpl snd.
  - simpl. rewrite !filter_app, Hout, Hw. simpl. rewrite app_nil_r. auto.
  - destruct (tryWaitForSystemdActiveState a3 _ getBlockAttempts) as [a4 [err|]];
      simpl; rewrite !filter_app, Hout, Hw; simpl; rewrite app_nil_r; auto.
Qed.

End FleetctlProperties.

(** ** The etcd double *)

Lemma next_spec (Response : Type) (t : testEtcdKeysAPI Response) :
  fst (next Response t) = (nth (ri Response t) (res Response t) None,
                           nth (ei Response t) (err Response t) None) /\
  gets Response (snd (next Response t)) = gets Response t /\
  sets Response (snd (next Response t)) = sets Response t /\
  deletes Response (snd (next Response t)) = deletes Response t /\
  res Response (snd (next Response t)) = res Response t /\
  err Response (snd (next Response t)) = err Response t /\
  (forall k, nth (ri Response (snd (next Response t)) + k) (res Response t) None
             = nth (ri Response t + S k) (res Response t) None) /\
  (forall k, nth (ei Response (snd (next Response t)) + k) (err Response t) None
             = nth (ei Response t + S k) (err Response t) None).
Proof.
  unfold next. destruct t as [g s d rs i es j]. simpl.
  destruct (Nat.ltb i (length rs)) eqn:Hi; simpl;
    destruct (Nat.ltb j (length es)) eqn:Hj; simpl;
    first [apply Nat.ltb_lt in Hi | apply Nat.ltb_ge in Hi];
    first [apply Nat.ltb_lt in Hj | apply Nat.ltb_ge in Hj];
    rewrite ?(nth_overflow rs None Hi), ?(nth_overflow es None Hj);
    repeat split; try reflexivity; intros k;
    first [ f_equal; lia | rewrite !nth_overflow by lia; reflexivity ].
Qed.

Lemma invoke_spec (Response : Type) (t : testEtcdKeysAPI Response) (c : call) :
  fst (invoke Response t c) = (nth (ri Response t) (res Response t) None,
                               nth (ei Response t) (err Response t) None) /\
  gets Response (snd (invoke Response t c)) = gets Response t ++ getsOf [c] /\
  sets Response (snd (invoke Response t c)) = sets Response t ++ setsOf [c] /\
  deletes Response (snd (invoke Response t c)) = deletes Response t ++ deletesOf [c] /\
  res Response (snd (invoke Response t c)) = res Response t /\
  err Response (snd (invoke Response t c)) = err Response t /\
  (forall k, nth (ri Response (snd (invoke Response t c)) + k) (res Response t) None
             = nth (ri Response t + S k) (res Response t) None) /\
  (forall k, nth (ei Response (snd (invoke Response t c)) + k) (err Response t) None
             = nth (ei Response t + S k) (err Response t) None).
Proof.
  destruct c as [k v|k [o|]|k [o|]]; unfold invoke, Set_, Get, Delete;
    match goal with
    | |- context [next Response ?u] =>
        destruct (next_spec Response u) as [H1 [H2 [H3 [H4 [H5 [H6 [H7 H8]]]]]]]
    end;
    simpl in *; rewrite ?app_nil_r; repeat split; assumption.
Qed.

(** X13: the double replays its canned answers in order, one response and
    one error for each call, whatever the method called: the call number
    [k] returns the [k]th response and the [k]th error counted from the
    cursors, and [nil] for either once its list is used up. *)
Theorem X13_double_replays_in_order (Response : Type) (calls : list call) :
  forall (t : testEtcdKeysAPI Response) k,
    k < length calls ->
    nth_error (fst (invokeAll Response t calls)) k
      = Some (nth (ri Response t + k) (res Response t) None,
              nth (ei Response t + k) (err Response t) None).
Proof.
  induction calls as [|c rest IH]; intros t k Hk; [simpl in Hk; lia|].
  simpl.
  destruct (invoke_spec Response t c) as [H1 [_ [_ [_ [H5 [H6 [H7 H8]]]]]]].
  destruct (invoke Response t c) as [[r e] t1]. simpl in *.
  specialize (IH t1).
  destruct (invokeAll Response t1 rest) as [out t2]. simpl in *.
  destruct k as [|k].
  - simpl. rewrite !Nat.add_0_r. inversion H1. reflexivity.
  - simpl. rewrite IH by lia. rewrite H5, H6, H7, H8. reflexivity.
Qed.

(** X14: the double records every call in the log of its method, in the
    order of the calls and after what the log held, with the Recursive
    option of a Get or Delete and without it when no options are given; it
    never changes its canned answers. *)
Theorem X14_double_records_calls (Response : Type) (calls : list call) :
  forall t : testEtcdKeysAPI Response,
    sets Response (snd (invokeAll Response t calls)) = sets Response t ++ setsOf calls /\
    gets Response (snd (invokeAll Response t calls)) = gets Response t ++ getsOf calls /\
    deletes Response (snd (invokeAll Response t calls))
      = deletes Response t ++ deletesOf calls /\
    res Response (snd (invokeAll Response t calls)) = res Response t /\
    err Response (snd (invokeAll Response t calls)) = err Response t.
Proof.
  induction calls as [|c rest IH]; intros t.
  - simpl. rewrite !app_nil_r. auto.
  - simpl.
    destruct (invoke_spec Response t c) as [_ [H2 [H3 [H4 [H5 [H6 _]]]]]].
    destruct (invoke Response t c) as [[r e] t1]. simpl in H2, H3, H4, H5, H6.
    destruct (IH t1) as [I1 [I2 [I3 [I4 I5]]]].
    destruct (invokeAll Response t1 rest) as [out t2]. simpl in *.
    rewrite I1, I2, I3, I4, I5, H2, H3, H4, H5, H6.
    change (setsOf (c :: rest)) with (setsOf [c] ++ setsOf rest).
    change (getsOf (c :: rest)) with (getsOf [c] ++ getsOf rest).
    change (deletesOf (c :: rest)) with (deletesOf [c] ++ deletesOf rest).
    rewrite !app_assoc, ?app_nil_r. auto.
Qed.

(** ** Scenarios for the commands and the double *)

(** Stopping web, db, the global agent, old and cache: old is inactive,
    so the command gives up there, after web and agent were told to
    stop. *)
Lemma X10_witness :
  fst (fst (runStopUnit cluster (findIn sampleUnits) sampleGlobal setTarget waitSucceeds 0%Z
              ["web"; "db"; "agent"; "old"; "cache"] [])) = 1%Z /\
  filter isCall
    (snd (fst (runStopUnit cluster (findIn sampleUnits) sampleGlobal setTarget waitSucceeds 0%Z
                 ["web"; "db"; "agent"; "old"; "cache"] [])))
    = [CallFindUnits ["web"; "db"; "agent"; "old"; "cache"];
       CallSetUnitTargetState "web" JobStateLoaded;
       CallSetUnitTargetState "agent" JobStateLoaded] /\
  exists evs,
    snd (fst (runStopUnit cluster (findIn sampleUnits) sampleGlobal setTarget waitSucceeds 0%Z
                ["web"; "db"; "agent"; "old"; "cache"] []))
      = evs ++ [Stderr (UnableToStopUnit "old" JobStateInactive)].
Proof.
  apply (X10_stop_refuses_inactive_unit cluster (findIn sampleUnits) sampleGlobal setTarget
           waitSucceeds 0%Z ["web"; "db"; "agent"; "old"; "cache"] [] [] sampleUnits
           (mkUnit "old" "inactive" [])).
  - discriminate.
  - reflexivity.
  - reflexivity.
Defined.


(** Starting web and the global agent when the wait for the unit states
    fails: agent is announced, web is waited for, systemd is not asked. *)
Lemma X12_witness :
  filter isStdout
    (snd (fst (runStartUnit cluster sampleGlobal waitFails systemdWaitSucceeds createNothing
                 (findIn sampleUnits) 0%Z ["web"; "agent"] [])))
    = [Stdout (TriggeredGlobalUnit "agent" "start")] /\
  filter isWait
    (snd (fst (runStartUnit cluster sampleGlobal waitFails systemdWaitSucceeds createNothing
                 (findIn sampleUnits) 0%Z ["web"; "agent"] [])))
    = [CallTryWaitForUnitStates ["web"] "start" JobStateLaunched 0%Z].
Proof.
  apply (X12_start_waits_for_triggered_units cluster sampleGlobal waitFails
           systemdWaitSucceeds createNothing (findIn sampleUnits) 0%Z
           ["web"; "agent"] [] [] []
           [mkUnit "web" "launched" []; mkUnit "agent" "inactive" [globalOption]]).
  - discriminate.
  - reflexivity.
  - reflexivity.
Defined.

(** One canned response and three canned errors: the second call gets no
    response and the second error. *)
Lemma X13_witness :
  nth_error
    (fst (invokeAll string
            (mkTestEtcdKeysAPI string [] [] [] [Some "node"] 0
               [None; Some (OtherError "key not found"); None] 0)
            [DoGet "/fleet/job" None; DoSet "/fleet/job" "x";
             DoDelete "/fleet/job" (Some (mkDeleteOptions true))]))
    1
    = Some (None, Some (OtherError "key not found")).
Proof.
  apply (X13_double_replays_in_order string
           [DoGet "/fleet/job" None; DoSet "/fleet/job" "x";
            DoDelete "/fleet/job" (Some (mkDeleteOptions true))]
           (mkTestEtcdKeysAPI string [] [] [] [Some "node"] 0
              [None; Some (OtherError "key not found"); None] 0)
           1).
  simpl. lia.
Defined.

(** ** A stop signal cuts a pass short *)

Lemma rangeJobs_cut (E : Type)
  (b b0 : Job -> nat -> state E -> bool * list event * state E) :
  (forall j t s,
     b j t s = b0 j t s \/
     (fst (fst (b j t s)) = false /\ sent (snd (fst (b j t s))) = [])) ->
  forall idx t s,
    rangeJobs E b idx t s = rangeJobs E b0 idx t s \/
    (fst (fst (rangeJobs E b idx t s)) = false /\
     exists rest,
       sent (snd (fst (rangeJobs E b0 idx t s)))
         = sent (snd (fst (rangeJobs E b idx t s))) ++ rest).
Proof.
  intros Hb. induction idx as [|i idx IH]; intros t s; [left; reflexivity|].
  destruct (nth_error (jobs (clust s)) i) as [j|] eqn:Hj.
  - rewrite !(rangeJobs_cons E _ i idx t s j Hj).
    destruct (Hb j t s) as [Heq|[Hok Hse]].
    + rewrite <- Heq. unfold andThen.
      destruct (b j t s) as [[ok ev1] s1].
      destruct ok; [|left; reflexivity].
      destruct (IH (t + length ev1) s1) as [H|[Hf [rest Hr]]].
      * left. rewrite H. reflexivity.
      * right.
        destruct (rangeJobs E b idx (t + length ev1) s1) as [[ok2 ev2] s2].
        destruct (rangeJobs E b0 idx (t + length ev1) s1) as [[ok3 ev3] s3].
        simpl in *. split; [exact Hf|].
        exists rest. rewrite !sent_app, Hr, app_assoc. reflexivity.
    + right. unfold andThen at 1 3.
      destruct (b j t s) as [[ok ev1] s1]. simpl in Hok, Hse. subst ok.
      simpl. split; [reflexivity|]. rewrite Hse. simpl. eauto.
  - rewrite !(rangeJobs_cons_none E _ i idx t s Hj). apply IH.
Qed.

(** X15: a stop signal only cuts a pass short.  From the same snapshot and
    with the same Engine, the tasks that a pass hands off under any stop
    channel are the first tasks that the pass hands off when no stop
    signal comes: stopping neither reorders nor changes them. *)
Theorem X15_stop_only_truncates
  (E AttemptResult : Type)
  (unscheduleUnit : E -> string -> string -> E * option error)
  (attemptScheduleUnit : E -> string -> string -> E * AttemptResult)
  (AbleToRun : AgentState -> Job -> bool * string) (JobReschedule : string)
  (Decide : clusterState -> Job -> decision + error)
  (stopchan unstopped : nat -> bool)
  (cs : clusterState) (t : nat) (e : E) :
  (forall k, unstopped k = false) ->
  exists rest,
    sent (fst (calculateClusterTasks E AbleToRun JobReschedule Decide unstopped
                 (receive E AttemptResult unscheduleUnit attemptScheduleUnit) cs t e))
      = sent (fst (calculateClusterTasks E AbleToRun JobReschedule Decide stopchan
                     (receive E AttemptResult unscheduleUnit attemptScheduleUnit) cs t e))
        ++ rest.
Proof.
  intros H0.
  set (r := receive E AttemptResult unscheduleUnit attemptScheduleUnit).
  assert (Hu : forall ags j u s,
             unscheduleStep E AbleToRun JobReschedule stopchan r ags j u s
               = unscheduleStep E AbleToRun JobReschedule unstopped r ags j u s \/
             (fst (fst (unscheduleStep E AbleToRun JobReschedule stopchan r ags j u s)) = false /\
              sent (snd (fst (unscheduleStep E AbleToRun JobReschedule stopchan r ags j u s)))
                = [])).
  { intros ags j u s.
    pose proof (sent_notes _ (notesOf_notes AbleToRun JobReschedule ags j)) as Hn.
    destruct (unscheduleStep_cases E AbleToRun JobReschedule unstopped r ags j u s)
      as [[W0 Q0]|[[_ [C0 _]]|[W0 [_ Q0]]]];
      [| rewrite H0 in C0; discriminate |];
      (destruct (unscheduleStep_cases E AbleToRun JobReschedule stopchan r ags j u s)
        as [[W1 Q1]|[[W1 [_ Q1]]|[W1 [_ Q1]]]]);
      first [ congruence
            | left; congruence
            | right; rewrite Q1; simpl; rewrite sent_app, Hn; auto ]. }
  assert (Hd : forall j u s,
             scheduleStep E Decide stopchan r j u s
               = scheduleStep E Decide unstopped r j u s \/
             (fst (fst (scheduleStep E Decide stopchan r j u s)) = false /\
              sent (snd (fst (scheduleStep E Decide stopchan r j u s))) = [])).
  { intros j u s.
    destruct (scheduleStep_cases E Decide unstopped r j u s)
      as [[W0 Q0]|[[W0 [x0 [D0 Q0]]]|[[_ [x0 [_ [C0 _]]]]|[W0 [x0 [D0 [_ Q0]]]]]]];
      [| | rewrite H0 in C0; discriminate |];
      (destruct (scheduleStep_cases E Decide stopchan r j u s)
        as [[W1 Q1]|[[W1 [x1 [D1 Q1]]]|[[W1 [x1 [D1 [_ Q1]]]]|[W1 [x1 [D1 [_ Q1]]]]]]]);
      first [ congruence
            | left; congruence
            | right; rewrite Q1; simpl; auto; fail
            | left; rewrite Q0, Q1; rewrite D0 in D1; inversion D1; reflexivity ]. }
  rewrite !calculateClusterTasks_eq, !unschedulePhase_eq. simpl.
  destruct (rangeJobs_cut E _ _ (Hu (agents cs)) (seq 0 (length (jobs cs))) t (mkState cs e))
    as [Heq|[Hf [rest Hr]]].
  - rewrite Heq. clear Heq.
    destruct (rangeJobs E _ _ t (mkState cs e)) as [[ok1 ev1] s1].
    destruct ok1; [|exists []; rewrite app_nil_r; reflexivity].
    rewrite !schedulePhase_eq.
    destruct (rangeJobs_cut E _ _ Hd (seq 0 (length (jobs (clust s1)))) (t + length ev1) s1)
      as [Heq2|[Hf2 [rest2 Hr2]]].
    + rewrite Heq2. exists []. rewrite app_nil_r. reflexivity.
    + destruct (rangeJobs E (scheduleStep E Decide stopchan r) _ (t + length ev1) s1)
        as [[ok2 ev2] s2].
      destruct (rangeJobs E (scheduleStep E Decide unstopped r) _ (t + length ev1) s1)
        as [[ok3 ev3] s3].
      simpl in *. exists rest2.
      rewrite !sent_app, Hr2. simpl. rewrite !app_nil_r, app_assoc. reflexivity.
  - destruct (rangeJobs E (unscheduleStep E AbleToRun JobReschedule stopchan r (agents cs))
                _ t (mkState cs e)) as [[ok1 ev1] s1].
    destruct (rangeJobs E (unscheduleStep E AbleToRun JobReschedule unstopped r (agents cs))
                _ t (mkState cs e)) as [[ok0 ev0] s0].
    simpl in Hf, Hr. subst ok1.
    destruct ok0.
    + destruct (schedulePhase E Decide unstopped r (t + length ev0) s0) as [[ok3 ev3] s3].
      simpl. exists (rest ++ sent ev3).
      rewrite !sent_app, Hr. simpl. rewrite !app_nil_r, app_assoc. reflexivity.
    + simpl. exists rest. rewrite !sent_app, Hr. simpl. rewrite !app_nil_r. reflexivity.
Qed.

(** In the peer scenario a stop signal at the fifth tick lets the
    unscheduling of J through and cuts the scheduling. *)
Lemma X15_witness :
  exists rest,
    sent (fst (samplePass neverStopped peerCluster))
      = sent (fst (samplePass (stoppedFrom 5) peerCluster)) ++ rest.
Proof.
  apply (X15_stop_only_truncates registry bool regUnschedule regAttemptSchedule
           sampleAble sampleMarker sampleDecide (stoppedFrom 5) neverStopped
           peerCluster 0 []).
  intros k. reflexivity.
Defined.
